(** * Neo Launcher: resilient API client and startup/shutdown orchestrator

    A shallow embedding of

      - [src/main/services/hydra-api.ts]              (module [HydraApi])
      - [src/main/services/critical-error-handler.ts] (module
        [CriticalErrorHandler])
      - [src/main/events/catalogue/search-games.ts]   (module [SearchGames])
      - the pure parts of the catalogue page of the renderer (module
        [Catalogue])

    Asynchronous TypeScript is embedded as state passing: an [async]
    method becomes a computation [M W E A] that takes the world before the
    call and gives back how the promise settled together with the world
    after it.  A rejected promise keeps every mutation made before the
    rejection, exactly as a JavaScript exception does.  JavaScript numbers
    are integers ([Z]); the decimal literals of the mock catalogue are
    rationals ([Q]). *)

From stdpp Require Import gmap strings list pretty.
From Stdlib Require Import ZArith QArith Ascii Lia.

Local Open Scope Z_scope.

(** ** Settled promises and the state/exception monad *)

Inductive Outcome (E A : Type) : Type :=
| Returned (a : A)
| Thrown (e : E).
Arguments Returned {E A} a.
Arguments Thrown {E A} e.

Definition M (W E A : Type) : Type := W -> Outcome E A * W.

Definition ret {W E A} (a : A) : M W E A := fun w => (Returned a, w).

Definition throw {W E A} (e : E) : M W E A := fun w => (Thrown e, w).

Definition bind {W E A B} (c : M W E A) (k : A -> M W E B) : M W E B :=
  fun w =>
    match c w with
    | (Returned a, w1) => k a w1
    | (Thrown e, w1) => (Thrown e, w1)
    end.

(** [try { c } catch (e) { h e }] *)
Definition tryCatch {W E A} (c : M W E A) (h : E -> M W E A) : M W E A :=
  fun w =>
    match c w with
    | (Returned a, w1) => (Returned a, w1)
    | (Thrown e, w1) => h e w1
    end.

Definition modify {W E} (f : W -> W) : M W E unit :=
  fun w => (Returned tt, f w).

Definition gets {W E A} (f : W -> A) : M W E A :=
  fun w => (Returned (f w), w).

Declare Scope eff_scope.
Delimit Scope eff_scope with eff.
Notation "x <- c ;; k" := (bind c (fun x => k))
  (at level 100, c at next level, right associativity) : eff_scope.
Notation "c ;; k" := (bind c (fun _ => k))
  (at level 100, right associativity) : eff_scope.
Local Open Scope eff_scope.

(** The integer range of [for (let i = lo; i <= hi; i++)], whose body
    never assigns [i]. *)
Definition zrange (lo hi : Z) : list Z :=
  map (fun k : nat => lo + Z.of_nat k) (seq 0 (Z.to_nat (hi - lo + 1))).

Inductive Level := Info | Warn | Error.

(** The ambient services every method of the two classes reaches through
    module-level names: the timer behind [delay(ms)] and the logger. *)
Class Runtime (W : Type) := {
  rt_delay : Z -> W -> W;
  rt_log : Level -> string -> W -> W;
}.

(** [private static delay(ms)], the same in both classes. *)
Definition delay {W E} `{Runtime W} (ms : Z) : M W E unit :=
  modify (rt_delay ms).

(** [logger.info], [logger.warn], [logger.error]: the arguments are
    rendered into one line of text. *)
Definition logger {W E} `{Runtime W} (l : Level) (text : string)
    : M W E unit :=
  modify (rt_log l text).

(* ====================================================================== *)
(** * hydra-api.ts *)
(* ====================================================================== *)

Module HydraApi.

(** [subscription: { expiresAt: Date | string | null } | null]; a date is
    its epoch milliseconds. *)
Record Subscription := { expiresAt : option Z }.

(** [interface HydraApiUserAuth] *)
Module UserAuth.
Record t := mk {
  authToken : string;
  refreshToken : string;
  expirationTimestamp : Z;
  subscription : option Subscription;
}.
End UserAuth.

(** The [Auth] record persisted under [levelKeys.auth]. *)
Module Auth.
Record t := mk {
  accessToken : string;
  refreshToken : option string;
  tokenExpirationTimestamp : Z;
}.
End Auth.

(** The part of a response body this file reads ([accessToken] and
    [expiresIn] of the refresh endpoint); the rest stays opaque. *)
Module Data.
Record t := mk {
  accessToken : string;
  expiresIn : Z;
  rest : string;
}.
End Data.

Record Response := { status : Z; data : Data.t }.

(** Values that reach a [catch] in this file. *)
Inductive Err :=
| UserNotLoggedInError
| SubscriptionRequiredError
| AxiosError (code : option string) (response : option Response) (message : string)
| NetworkError (message : string) (originalError : Err)
| BackendUnavailableError (message : string)
| PlainError (code : option string) (message : string)
| TypeError (message : string)
| SyntaxError (message : string).

(** [error.code] *)
Definition errCode (error : Err) : option string :=
  match error with
  | AxiosError code _ _ => code
  | PlainError code _ => code
  | _ => None
  end.

(** [error.message]; the texts of the two [@shared] errors are defined
    outside this file and never read by it. *)
Definition errMessage (error : Err) : string :=
  match error with
  | UserNotLoggedInError => ""
  | SubscriptionRequiredError => ""
  | AxiosError _ _ message => message
  | NetworkError message _ => message
  | BackendUnavailableError message => message
  | PlainError _ message => message
  | TypeError message => message
  | SyntaxError message => message
  end.

(** [error.code === c] *)
Definition codeIs (error : Err) (c : string) : bool :=
  match errCode error with
  | Some c' => String.eqb c' c
  | None => false
  end.

(** [error instanceof AxiosError && error.response?.status === 401] *)
Definition isUnauthorized (error : Err) : bool :=
  match error with
  | AxiosError _ (Some r) _ => status r =? 401
  | _ => false
  end.

(** [error instanceof UserNotLoggedInError ||
     error instanceof SubscriptionRequiredError] *)
Definition isAuthError (error : Err) : bool :=
  match error with
  | UserNotLoggedInError | SubscriptionRequiredError => true
  | _ => false
  end.

Definition DEFAULT_RETRY_ATTEMPTS : Z := 3.
Definition DEFAULT_RETRY_DELAY : Z := 1000.
Definition EXPIRATION_OFFSET_IN_MS : Z := 1000 * 60 * 5.

Definition secondsToMilliseconds (seconds : Z) : Z := seconds * 1000.

Definition isRetryableError (error : Err) : bool :=
  match error with
  | AxiosError _ response _ =>
      match response with
      | None => true
      | Some r => (500 <=? status r) && (status r <? 600)
      end
  | _ =>
      codeIs error "ECONNREFUSED" || codeIs error "ENOTFOUND"
      || codeIs error "ETIMEDOUT"
  end.

(** ** The retry engine, [retryRequest] *)

Section RetryRequest.
Context {W : Type} `{Runtime W} {T : Type}.

(** How the [for] loop of [retryRequest] is left when it neither
    returns nor throws: by [break] or by its condition failing, with
    the current [lastError]. *)
Fixpoint retryLoop (requestFn : M W Err T) (retryAttempts retryDelay : Z)
    (attempts : list Z) (lastError : option Err)
    : M W Err (T + option Err) :=
  match attempts with
  | [] => ret (inr lastError)
  | attempt :: later =>
      fun w =>
        match requestFn w with
        | (Returned v, w1) => (Returned (inl v), w1)
        | (Thrown error, w1) =>
            if isAuthError error then (Thrown error, w1)
            else if isUnauthorized error then (Thrown error, w1)
            else if isRetryableError error && (attempt <? retryAttempts)
            then
              (logger Warn
                 ("Request failed (attempt " +:+ pretty (attempt + 1)
                  +:+ "/" +:+ pretty (retryAttempts + 1) +:+ "): "
                  +:+ errMessage error) ;;
               delay (retryDelay * 2 ^ attempt) ;;
               retryLoop requestFn retryAttempts retryDelay later
                 (Some error)) w1
            else (Returned (inr (Some error)), w1)
        end
  end.

(** Lines 110-124: the error thrown once the loop is left.  With no
    [lastError] (the loop body never ran) the log of line 123 is
    written with [undefined] and the read of [lastError.message] of
    line 124 is a [TypeError]. *)
Definition surface (lastError : option Err) : M W Err T :=
  match lastError with
  | None =>
      logger Error "Request failed after all retry attempts: undefined" ;;
      throw (TypeError "Cannot read properties of undefined (reading 'message')")
  | Some e =>
      match e with
      | AxiosError _ response _ =>
          if codeIs e "ECONNREFUSED" || codeIs e "ENOTFOUND" then
            logger Error ("Backend connection failed: " +:+ errMessage e) ;;
            throw (BackendUnavailableError
                     ("Backend service unavailable: " +:+ errMessage e))
          else
            match response with
            | Some r =>
                if 500 <=? status r then
                  logger Error ("Server error: " +:+ pretty (status r)) ;;
                  throw (NetworkError
                           ("Server error: " +:+ pretty (status r)) e)
                else
                  logger Error
                    ("Request failed after all retry attempts: "
                     +:+ errMessage e) ;;
                  throw (NetworkError
                           ("Request failed: " +:+ errMessage e) e)
            | None =>
                logger Error
                  ("Request failed after all retry attempts: "
                   +:+ errMessage e) ;;
                throw (NetworkError ("Request failed: " +:+ errMessage e) e)
            end
      | _ =>
          logger Error
            ("Request failed after all retry attempts: " +:+ errMessage e) ;;
          throw (NetworkError ("Request failed: " +:+ errMessage e) e)
      end
  end.

(** [retryAttempts] and [retryDelay] are optional parameters with
    defaults. *)
Definition retryRequest (requestFn : M W Err T)
    (retryAttempts retryDelay : option Z) : M W Err T :=
  let retryAttempts := default DEFAULT_RETRY_ATTEMPTS retryAttempts in
  let retryDelay := default DEFAULT_RETRY_DELAY retryDelay in
  r <- retryLoop requestFn retryAttempts retryDelay
         (zrange 0 retryAttempts) None ;;
  match r with
  | inl v => ret v
  | inr lastError => surface lastError
  end.

End RetryRequest.

(** ** The world the API client runs in *)

Inductive Method := GET | POST | PUT | PATCH | DELETE.

(** What the client does to its surroundings, newest event first. *)
Inductive Event :=
| Logged (l : Level) (text : string)
| Delayed (ms : Z)
| Requested (m : Method) (url : string) (body bearer : option string)
| Sent (channel : string)
| ClearedGamesRemoteIds
| UploadedGamesBatch
| WsClosed
| WsConnected.

(** How a call on the axios instance settles, as seen by the [.then] and
    [.catch] attached to it in this file, that is, after the interceptors
    that [setupApi] installs on the instance; [throughInterceptors]
    below gives it from what the transport did. *)
Inductive Settled :=
| Resolved (r : Response)
| Rejected (e : Err).

Inductive Stored :=
| StoredAuth (a : Auth.t)
| StoredUser (u : string).

(** [getUserData()] resolves to the user details or to nothing. *)
Record UserDetails := { details_subscription : option Subscription }.

Record World := {
  userAuth : UserAuth.t;          (* HydraApi.userAuth *)
  db : gmap string Stored;        (* the level database *)
  now : Z;                        (* Date.now() *)
  mainWindow : bool;              (* WindowManager.mainWindow is set *)
  axios : nat -> Settled;         (* how the k-th axios call settles *)
  userData : option UserDetails;  (* what getUserData() resolves to *)
  calls : nat;                    (* axios calls made so far *)
  trace : list Event;
}.

Definition with_userAuth (u : UserAuth.t) (w : World) : World :=
  {| userAuth := u; db := db w; now := now w; mainWindow := mainWindow w;
     axios := axios w; userData := userData w; calls := calls w;
     trace := trace w |}.

Definition with_db (d : gmap string Stored) (w : World) : World :=
  {| userAuth := userAuth w; db := d; now := now w;
     mainWindow := mainWindow w; axios := axios w; userData := userData w;
     calls := calls w; trace := trace w |}.

Definition record (e : Event) (w : World) : World :=
  {| userAuth := userAuth w; db := db w; now := now w;
     mainWindow := mainWindow w; axios := axios w; userData := userData w;
     calls := calls w; trace := e :: trace w |}.

(** [setTimeout(resolve, ms)]: the clock has advanced by [ms] when the
    promise resolves (a negative [ms] fires at once). *)
Definition sleep (ms : Z) (w : World) : World :=
  {| userAuth := userAuth w; db := db w; now := now w + Z.max 0 ms;
     mainWindow := mainWindow w; axios := axios w; userData := userData w;
     calls := calls w; trace := Delayed ms :: trace w |}.

#[export] Instance world_runtime : Runtime World := {
  rt_delay := sleep;
  rt_log l text := record (Logged l text);
}.

(** One call on the axios instance: method, URL, request body (query
    parameters for GET) and the bearer token of the [Authorization]
    header when a config is passed. *)
Definition request (m : Method) (url : string) (body bearer : option string)
    : M World Err Response :=
  fun w =>
    let w1 :=
      {| userAuth := userAuth w; db := db w; now := now w;
         mainWindow := mainWindow w; axios := axios w;
         userData := userData w; calls := S (calls w);
         trace := Requested m url body bearer :: trace w |} in
    match axios w (calls w) with
    | Resolved r => (Returned r, w1)
    | Rejected e => (Thrown e, w1)
    end.

(** Modelled from the spec: the values of [levelKeys.auth] and
    [levelKeys.user], declared in [@main/level/sublevels] outside the
    sources at hand; the spec only says they are fixed logical keys. *)
Definition levelKeys_auth : string := "auth".
Definition levelKeys_user : string := "user".

Definition emptyUserAuth : UserAuth.t :=
  UserAuth.mk "" "" 0 None.

Definition isLoggedIn : M World Err bool :=
  gets (fun w => negb (String.eqb (UserAuth.authToken (userAuth w)) "")).

(** [new Date(this.userAuth.subscription?.expiresAt ?? 0) > new Date()] *)
Definition hasActiveSubscription : M World Err bool :=
  gets (fun w =>
          let expires :=
            default 0 (UserAuth.subscription (userAuth w) ≫= expiresAt) in
          now w <? expires).

(** ** Session transitions *)

(** The decoded [payload] query parameter of the sign-in URI. *)
Module Payload.
Record t := mk {
  accessToken : string;
  expiresIn : Z;
  refreshToken : string;
}.
End Payload.

Definition sendSignOutEvent : M World Err unit :=
  fun w =>
    if mainWindow w then (Returned tt, record (Sent "on-signout") w)
    else (Returned tt, w).

Definition handleExternalAuth (payload : Payload.t) : M World Err unit :=
  t <- gets now ;;
  let tokenExpirationTimestamp :=
    t + secondsToMilliseconds (Payload.expiresIn payload)
    - EXPIRATION_OFFSET_IN_MS in
  modify (with_userAuth
            (UserAuth.mk (Payload.accessToken payload)
               (Payload.refreshToken payload) tokenExpirationTimestamp
               None)) ;;
  logger Info
    ("Sign in received. Token expiration timestamp: "
     +:+ pretty tokenExpirationTimestamp) ;;
  modify (fun w =>
            with_db (<[levelKeys_auth :=
                        StoredAuth
                          (Auth.mk (Payload.accessToken payload)
                             (Some (Payload.refreshToken payload))
                             tokenExpirationTimestamp)]> (db w)) w) ;;
  userDetails <- gets userData ;;
  match userDetails ≫= details_subscription with
  | Some sub =>
      modify (fun w =>
                let u := userAuth w in
                with_userAuth
                  (UserAuth.mk (UserAuth.authToken u)
                     (UserAuth.refreshToken u)
                     (UserAuth.expirationTimestamp u)
                     (Some {| expiresAt :=
                                match expiresAt sub with
                                | Some d => if d =? 0 then None else Some d
                                | None => None
                                end |})) w)
  | None => ret tt
  end ;;
  hasWindow <- gets mainWindow ;;
  if hasWindow then
    modify (record (Sent "on-signin")) ;;
    modify (record ClearedGamesRemoteIds) ;;
    modify (record UploadedGamesBatch) ;;
    modify (record WsClosed) ;;
    modify (record WsConnected)
  else ret tt.

(** [await this.instance.post("/auth/refresh", ...)] and the in-place
    update of the session that follows it. *)
Definition refreshToken : M World Err (string * Z) :=
  token <- gets (fun w => UserAuth.refreshToken (userAuth w)) ;;
  response <- request POST "/auth/refresh" (Some token) None ;;
  let accessToken := Data.accessToken (data response) in
  let expiresIn := Data.expiresIn (data response) in
  t <- gets now ;;
  let tokenExpirationTimestamp :=
    t + secondsToMilliseconds expiresIn - EXPIRATION_OFFSET_IN_MS in
  modify (fun w =>
            let u := userAuth w in
            with_userAuth
              (UserAuth.mk accessToken (UserAuth.refreshToken u)
                 tokenExpirationTimestamp (UserAuth.subscription u)) w) ;;
  logger Info
    ("Token refreshed. New expiration: " +:+ pretty tokenExpirationTimestamp) ;;
  modify (fun w =>
            let kept :=
              match db w !! levelKeys_auth with
              | Some (StoredAuth a) => Auth.refreshToken a
              | _ => None
              end in
            with_db (<[levelKeys_auth :=
                        StoredAuth
                          (Auth.mk accessToken kept
                             tokenExpirationTimestamp)]> (db w)) w) ;;
  ret (accessToken, expiresIn).

Definition handleUnauthorizedError {T} (err : Err) : M World Err T :=
  if isUnauthorized err then
    logger Error "401 - Current credentials:" ;;
    modify (with_userAuth emptyUserAuth) ;;
    modify (fun w =>
              with_db (delete levelKeys_user (delete levelKeys_auth (db w)))
                w) ;;
    sendSignOutEvent ;;
    throw err
  else throw err.

Definition revalidateAccessTokenIfExpired : M World Err unit :=
  fun w =>
    if UserAuth.expirationTimestamp (userAuth w) <? now w then
      tryCatch (refreshToken ;; ret tt) handleUnauthorizedError w
    else (Returned tt, w).

(** [{ headers: { Authorization: `Bearer ${authToken}` } }] *)
Definition getAxiosConfig : M World Err (option string) :=
  gets (fun w => Some (UserAuth.authToken (userAuth w))).

(** ** The five operations *)

Record HydraApiOptions := {
  needsAuth : option bool;
  needsSubscription : option bool;
  ifModifiedSince : option Z;
  retryAttempts : option Z;
  retryDelay : option Z;
}.

Definition validateOptions (options : option HydraApiOptions)
    : M World Err unit :=
  let needsAuth := default true (options ≫= needsAuth) in
  let needsSubscription := default false (options ≫= needsSubscription) in
  (if needsAuth then
     loggedIn <- isLoggedIn ;;
     if negb loggedIn then throw UserNotLoggedInError
     else revalidateAccessTokenIfExpired
   else ret tt) ;;
  if needsSubscription then
    active <- hasActiveSubscription ;;
    if negb active then throw SubscriptionRequiredError else ret tt
  else ret tt.

(** [this.instance.m(...).then((response) => response.data)
        .catch(this.handleUnauthorizedError)] *)
Definition guarded (m : Method) (url : string) (body bearer : option string)
    : M World Err Data.t :=
  tryCatch (response <- request m url body bearer ;; ret (data response))
    handleUnauthorizedError.

Definition get (url : string) (params : option string)
    (options : option HydraApiOptions) : M World Err Data.t :=
  validateOptions options ;;
  headers <- getAxiosConfig ;;
  retryRequest (guarded GET url params headers)
    (options ≫= retryAttempts) (options ≫= retryDelay).

Definition post (url : string) (data : option string)
    (options : option HydraApiOptions) : M World Err Data.t :=
  validateOptions options ;;
  retryRequest (config <- getAxiosConfig ;; guarded POST url data config)
    (options ≫= retryAttempts) (options ≫= retryDelay).

Definition put (url : string) (data : option string)
    (options : option HydraApiOptions) : M World Err Data.t :=
  validateOptions options ;;
  config <- getAxiosConfig ;;
  guarded PUT url data config.

Definition patch (url : string) (data : option string)
    (options : option HydraApiOptions) : M World Err Data.t :=
  validateOptions options ;;
  config <- getAxiosConfig ;;
  guarded PATCH url data config.

Definition delete (url : string) (options : option HydraApiOptions)
    : M World Err Data.t :=
  validateOptions options ;;
  config <- getAxiosConfig ;;
  guarded DELETE url None config.

(** [handleSignOut]: the logout request is started after the reset and
    its rejection is discarded by [.catch(() => {})]. *)
Definition handleSignOut : M World Err unit :=
  modify (with_userAuth emptyUserAuth) ;;
  tryCatch
    (post "/auth/logout" (Some "{}")
       (Some {| needsAuth := Some false; needsSubscription := None;
                ifModifiedSince := None; retryAttempts := None;
                retryDelay := None |}) ;;
     ret tt)
    (fun _ => ret tt).

(** ** Vocabulary of the statements about the API client *)

(** A request function observed by a counter of its invocations, the way
    a test double counts calls; the timer and the logger do not touch
    the counter. *)
Definition spy {W T} (requestFn : M W Err T) : M (W * nat) Err T :=
  fun '(w, n) => let '(r, w1) := requestFn w in (r, (w1, S n)).

#[export] Instance spied_runtime {W} `{Runtime W} : Runtime (W * nat) := {
  rt_delay ms '(w, n) := (rt_delay ms w, n);
  rt_log l text '(w, n) := (rt_log l text w, n);
}.

(** The five operations as one entry point. *)
Inductive Operation :=
| Get (url : string) (params : option string)
| Post (url : string) (data : option string)
| Put (url : string) (data : option string)
| Patch (url : string) (data : option string)
| Delete (url : string).

Definition perform (op : Operation) (options : option HydraApiOptions)
    : M World Err Data.t :=
  match op with
  | Get url params => get url params options
  | Post url body => post url body options
  | Put url body => put url body options
  | Patch url body => patch url body options
  | Delete url => delete url options
  end.

(** The [k]-th axios call is rejected with an HTTP 401 response. *)
Definition answers401 (w : World) (k : nat) : bool :=
  match axios w k with
  | Rejected e => isUnauthorized e
  | Resolved _ => false
  end.

(** A computation started in [w] that ended in [w'] with [r] was ended
    by the 401 answer to its [k]-th axios call: that call was the last
    one, its error is what the computation threw, the session is empty,
    both persisted records are gone, and the sign-out notification to
    the main window, when there is one, is the last thing that
    happened. *)
Definition signedOut {T} (w : World) (k : nat) (r : Outcome Err T)
    (w' : World) : Prop :=
  calls w' = S k
  /\ (exists e, axios w k = Rejected e /\ r = Thrown e)
  /\ userAuth w' = emptyUserAuth
  /\ db w' !! levelKeys_auth = None
  /\ db w' !! levelKeys_user = None
  /\ exists earlier,
       trace w'
       = (if mainWindow w then [Sent "on-signout"] else [])
         ++ Logged Error "401 - Current credentials:" :: earlier.

(** [okAt w r w']: nothing but the oracle of the axios calls is consulted
    between [w] and [w'], and a 401 among the calls made in between
    ended the computation as [signedOut] says. *)
Definition okAt {T} (w : World) (r : Outcome Err T) (w' : World) : Prop :=
  axios w' = axios w /\ mainWindow w' = mainWindow w
  /\ (calls w <= calls w')%nat
  /\ forall k, (calls w <= k < calls w')%nat -> answers401 w k = true ->
               signedOut w k r w'.

Definition settlesOn401 {T} (c : M World Err T) : Prop :=
  forall w r w', c w = (r, w') -> okAt w r w'.

(** [keepsSignedOut c]: run in a world whose session is empty, [c] ends
    in one. *)
Definition keepsSignedOut {T} (c : M World Err T) : Prop :=
  forall w r w', userAuth w = emptyUserAuth -> c w = (r, w') ->
                 userAuth w' = emptyUserAuth.

(** The all-or-nothing reading of the session: the three fields are
    jointly empty, or jointly populated. *)
Definition jointlyEmpty (u : UserAuth.t) : bool :=
  String.eqb (UserAuth.authToken u) ""
  && String.eqb (UserAuth.refreshToken u) ""
  && (UserAuth.expirationTimestamp u =? 0).

Definition jointlyPopulated (u : UserAuth.t) : bool :=
  negb (String.eqb (UserAuth.authToken u) "")
  && negb (String.eqb (UserAuth.refreshToken u) "")
  && negb (UserAuth.expirationTimestamp u =? 0).

Definition allOrNothing (u : UserAuth.t) : bool :=
  jointlyEmpty u || jointlyPopulated u.

(** ** Sample worlds *)

Definition ok200 (accessToken : string) (expiresIn : Z) : Settled :=
  Resolved {| status := 200; data := Data.mk accessToken expiresIn "" |}.

Definition failed (status : Z) : Err :=
  AxiosError None (Some {| status := status; data := Data.mk "" 0 "" |})
    ("Request failed with status code " +:+ pretty status).

(** Nobody is signed in; the main window is open. *)
Definition signedOutWorld (server : nat -> Settled) : World :=
  {| userAuth := emptyUserAuth; db := ∅; now := 1700000000000;
     mainWindow := true; axios := server; userData := None; calls := O;
     trace := [] |}.

(** Somebody is signed in and the token is good for another 55
    minutes. *)
Definition signedInWorld (server : nat -> Settled) : World :=
  {| userAuth := UserAuth.mk "access" "refresh" 1700003300000 None;
     db := {[ levelKeys_auth :=
                StoredAuth (Auth.mk "access" (Some "refresh") 1700003300000) ]};
     now := 1700000000000; mainWindow := true; axios := server;
     userData := None; calls := O; trace := [] |}.

(** A server that answers the first call with a 503 and every later one
    with success. *)
Definition flaky (k : nat) : Settled :=
  match k with
  | O => Rejected (failed 503)
  | S _ => ok200 "" 0
  end.

(** The delays waited, oldest first. *)
Fixpoint delaysOf (tr : list Event) : list Z :=
  match tr with
  | [] => []
  | Delayed ms :: tr' => delaysOf tr' ++ [ms]
  | _ :: tr' => delaysOf tr'
  end.

(** An operation that throws [e] each time it is invoked. *)
Definition failing {W T} (e : Err) : M W Err T := throw e.

(** ** The rest of the file: start-up of the session, the response
    interceptor *)

(** [setupApi], from [db.getMany] on.  Creating the axios instance and
    registering the interceptors is what makes the [axios] oracle of the
    world; the type [User] of the stored user record is declared in
    [@types], outside the sources at hand, and [subscriptionOf] reads its
    [subscription] field. *)
Definition setupApi (subscriptionOf : string -> option Subscription)
    : M World Err unit :=
  modify (fun w =>
            let userAuth :=
              match db w !! levelKeys_auth with
              | Some (StoredAuth a) => Some a
              | _ => None
              end in
            let user :=
              match db w !! levelKeys_user with
              | Some (StoredUser u) => Some u
              | _ => None
              end in
            with_userAuth
              (UserAuth.mk
                 (default "" (Auth.accessToken <$> userAuth))
                 (default "" (userAuth ≫= Auth.refreshToken))
                 (default 0 (Auth.tokenExpirationTimestamp <$> userAuth))
                 (match user ≫= subscriptionOf with
                  | Some sub => Some {| expiresAt := expiresAt sub |}
                  | None => None
                  end)) w) ;;
  updatedUserData <- gets userData ;;
  modify (fun w =>
            let u := userAuth w in
            with_userAuth
              (UserAuth.mk (UserAuth.authToken u) (UserAuth.refreshToken u)
                 (UserAuth.expirationTimestamp u)
                 (match updatedUserData ≫= details_subscription with
                  | Some sub => Some {| expiresAt := expiresAt sub |}
                  | None => None
                  end)) w).

(** ** [JSON.parse] *)

(** Whether [JSON.parse(text)] returns or throws a [SyntaxError]: the
    grammar of ECMA-404, a value between optional white space.  The
    functions below read one construct off the front of the text and
    give back what follows it. *)

Definition isWhitespace (c : ascii) : bool :=
  match c with
  | " "%char | "009"%char | "010"%char | "013"%char => true
  | _ => false
  end.

Fixpoint skipWhitespace (s : string) : string :=
  match s with
  | String c s' => if isWhitespace c then skipWhitespace s' else s
  | EmptyString => s
  end.

Definition isDigit (c : ascii) : bool :=
  (48 <=? nat_of_ascii c)%nat && (nat_of_ascii c <=? 57)%nat.

Definition isHexDigit (c : ascii) : bool :=
  isDigit c
  || (65 <=? nat_of_ascii c)%nat && (nat_of_ascii c <=? 70)%nat
  || (97 <=? nat_of_ascii c)%nat && (nat_of_ascii c <=? 102)%nat.

Fixpoint skipDigits (s : string) : string :=
  match s with
  | String c s' => if isDigit c then skipDigits s' else s
  | EmptyString => s
  end.

(** [literal "true" s]: [s] without the leading [true]. *)
Fixpoint literal (word s : string) : option string :=
  match word with
  | EmptyString => Some s
  | String a word' =>
      match s with
      | String b s' => if Ascii.eqb a b then literal word' s' else None
      | EmptyString => None
      end
  end.

(** The characters of a string up to and with the closing quote. *)
Fixpoint jsonCharacters (s : string) : option string :=
  match s with
  | EmptyString => None
  | String "034"%char s' => Some s'
  | String "\"%char (String e s') =>
      match e with
      | "034"%char | "\"%char | "/"%char | "b"%char | "f"%char | "n"%char
      | "r"%char | "t"%char => jsonCharacters s'
      | "u"%char =>
          match s' with
          | String h1 (String h2 (String h3 (String h4 s''))) =>
              if isHexDigit h1 && isHexDigit h2 && isHexDigit h3
                 && isHexDigit h4
              then jsonCharacters s''
              else None
          | _ => None
          end
      | _ => None
      end
  | String "\"%char EmptyString => None
  | String c s' =>
      if (nat_of_ascii c <? 32)%nat then None else jsonCharacters s'
  end.

(** An optional minus, then [0] or digits that do not start with [0],
    then optionally a point and digits, then optionally an exponent. *)
Definition jsonNumber (s : string) : option string :=
  let unsigned :=
    match s with
    | String "-"%char s' => s'
    | _ => s
    end in
  integer ←
    match unsigned with
    | String "0"%char s' => Some s'
    | String c s' => if isDigit c then Some (skipDigits s') else None
    | EmptyString => None
    end ;
  fraction ←
    match integer with
    | String "."%char (String d s') =>
        if isDigit d then Some (skipDigits s') else None
    | String "."%char EmptyString => None
    | _ => Some integer
    end ;
  match fraction with
  | String e s' =>
      if Ascii.eqb e "e" || Ascii.eqb e "E" then
        let digits :=
          match s' with
          | String sign s'' =>
              if Ascii.eqb sign "+" || Ascii.eqb sign "-" then s'' else s'
          | EmptyString => s'
          end in
        match digits with
        | String d s'' => if isDigit d then Some (skipDigits s'') else None
        | EmptyString => None
        end
      else Some fraction
  | EmptyString => Some fraction
  end.

(** Values, the elements of an array after its bracket, the members of
    an object after its brace; [fuel] bounds the nesting. *)
Fixpoint jsonValue (fuel : nat) (s : string) : option string :=
  match fuel with
  | O => None
  | S fuel =>
      match skipWhitespace s with
      | String "{"%char s' =>
          match skipWhitespace s' with
          | String "}"%char s'' => Some s''
          | _ => jsonMembers fuel s'
          end
      | String "["%char s' =>
          match skipWhitespace s' with
          | String "]"%char s'' => Some s''
          | _ => jsonElements fuel s'
          end
      | String "034"%char s' => jsonCharacters s'
      | String "t"%char _ => literal "true" (skipWhitespace s)
      | String "f"%char _ => literal "false" (skipWhitespace s)
      | String "n"%char _ => literal "null" (skipWhitespace s)
      | _ => jsonNumber (skipWhitespace s)
      end
  end
with jsonElements (fuel : nat) (s : string) : option string :=
  match fuel with
  | O => None
  | S fuel =>
      match jsonValue fuel s with
      | Some s' =>
          match skipWhitespace s' with
          | String ","%char s'' => jsonElements fuel s''
          | String "]"%char s'' => Some s''
          | _ => None
          end
      | None => None
      end
  end
with jsonMembers (fuel : nat) (s : string) : option string :=
  match fuel with
  | O => None
  | S fuel =>
      match skipWhitespace s with
      | String "034"%char s' =>
          match jsonCharacters s' with
          | Some s'' =>
              match skipWhitespace s'' with
              | String ":"%char s3 =>
                  match jsonValue fuel s3 with
                  | Some s4 =>
                      match skipWhitespace s4 with
                      | String ","%char s5 => jsonMembers fuel s5
                      | String "}"%char s5 => Some s5
                      | _ => None
                      end
                  | None => None
                  end
              | _ => None
              end
          | None => None
          end
      | _ => None
      end
  end.

(** Every nested construct takes a character, so twice the length is
    fuel enough. *)
Definition isJSONText (text : string) : bool :=
  match jsonValue (2 * String.length text + 2) text with
  | Some rest =>
      match skipWhitespace rest with
      | EmptyString => true
      | _ => false
      end
  | None => false
  end.

(** ** The response interceptor *)

(** What the rejection handler of the response interceptor reads of the
    error it is given: [code], [message], [response], whether [request]
    is set, and of its [config] the method and the URL, for the log, and
    [data], the request body as it was sent. *)
Record RawError := {
  raw_code : option string;
  raw_message : string;
  raw_response : option Response;
  raw_request : bool;
  raw_method : string;
  raw_url : string;
  raw_data : option string;
}.

(** The error object itself, as a value caught in this file. *)
Definition asErr (error : RawError) : Err :=
  AxiosError (raw_code error) (raw_response error) (raw_message error).

(** [JSON.parse(config.data ?? null)]: [null] parses; a body that is not
    JSON text is a [SyntaxError], whose message is the engine's,
    [syntaxErrorMessage] of the text. *)
Definition parseData {W} (syntaxErrorMessage : string -> string)
    (data : option string) : M W Err unit :=
  match data with
  | None => ret tt
  | Some text =>
      if isJSONText text then ret tt
      else throw (SyntaxError (syntaxErrorMessage text))
  end.

(** Lines 243-284, the second argument of
    [this.instance.interceptors.response.use]. *)
Definition responseErrorInterceptor {W} `{Runtime W} {T}
    (syntaxErrorMessage : string -> string) (error : RawError)
    : M W Err T :=
  logger Error " ---- RESPONSE ERROR -----" ;;
  parseData syntaxErrorMessage (raw_data error) ;;
  logger Error (raw_method error +:+ " " +:+ raw_url error) ;;
  match raw_response error with
  | Some r =>
      logger Error ("Response error: " +:+ pretty (status r)) ;;
      throw (asErr error)
  | None =>
      if raw_request error then
        logger Error
          ("Request error: " +:+ default "undefined" (raw_code error)
           +:+ " " +:+ raw_message error) ;;
        throw (PlainError None
                 ("Request failed with "
                  +:+ default "undefined" (raw_code error)
                  +:+ " " +:+ raw_message error))
      else
        logger Error ("Error " +:+ raw_message error) ;;
        throw (asErr error)
  end.

(** What the transport does with a call, before the interceptors. *)
Inductive Transport :=
| Answered (r : Response)
| Failed (error : RawError).

(** A logger and a timer that keep nothing, to read off how a
    computation settles. *)
Definition silent : Runtime unit :=
  {| rt_delay := fun _ w => w; rt_log := fun _ _ w => w |}.

(** How the call on the instance settles then: a response is passed on,
    a failure is rejected with what the interceptor throws. *)
Definition throughInterceptors (syntaxErrorMessage : string -> string)
    (t : Transport) : Settled :=
  match t with
  | Answered r => Resolved r
  | Failed error =>
      match
        (@responseErrorInterceptor unit silent Empty_set
           syntaxErrorMessage error tt).1
      with
      | Thrown e => Rejected e
      | Returned nothing => match nothing with end
      end
  end.

(** ** Vocabulary of the further statements *)

(** The three fields a restart has to bring back. *)
Definition tokens (u : UserAuth.t) : string * string * Z :=
  (UserAuth.authToken u, UserAuth.refreshToken u,
   UserAuth.expirationTimestamp u).

(** The axios calls made, oldest first: method, URL, body, bearer. *)
Fixpoint requestsOf (tr : list Event)
    : list (Method * string * option string * option string) :=
  match tr with
  | [] => []
  | Requested m url body bearer :: tr' =>
      requestsOf tr' ++ [(m, url, body, bearer)]
  | _ :: tr' => requestsOf tr'
  end.

(** Method, URL and body of the request an operation makes. *)
Definition requestOf (op : Operation) : Method * string * option string :=
  match op with
  | Get url params => (GET, url, params)
  | Post url body => (POST, url, body)
  | Put url body => (PUT, url, body)
  | Patch url body => (PATCH, url, body)
  | Delete url => (DELETE, url, None)
  end.

(** The world after one axios call for [op] that did not end in a 401. *)
Definition attempted (op : Operation) (bearer : option string) (w : World)
    : World :=
  {| userAuth := userAuth w; db := db w; now := now w;
     mainWindow := mainWindow w; axios := axios w; userData := userData w;
     calls := S (calls w);
     trace :=
       Requested (requestOf op).1.1 (requestOf op).1.2 (requestOf op).2
         bearer :: trace w |}.

(** [d * 2^a, d * 2^(a+1), ...], [k] delays. *)
Definition backoff (d a : Z) (k : nat) : list Z :=
  map (fun i : nat => d * 2 ^ (a + Z.of_nat i)) (seq 0 k).

(** A raw connection failure: a request was made, no response came. *)
Definition connectionRefused : RawError :=
  {| raw_code := Some "ECONNREFUSED";
     raw_message := "connect ECONNREFUSED 127.0.0.1:443";
     raw_response := None; raw_request := true;
     raw_method := "get"; raw_url := "/games"; raw_data := None |}.

(** A 401 answer to a [post] whose body is plain text. *)
Definition unauthorizedAnswer : RawError :=
  {| raw_code := Some "ERR_BAD_REQUEST";
     raw_message := "Request failed with status code 401";
     raw_response := Some {| status := 401; data := Data.mk "" 0 "" |};
     raw_request := true;
     raw_method := "post"; raw_url := "/games";
     raw_data := Some "not json" |}.

(** The channels notified through the main window, oldest first. *)
Fixpoint sentOf (tr : list Event) : list string :=
  match tr with
  | [] => []
  | Sent channel :: tr' => sentOf tr' ++ [channel]
  | _ :: tr' => sentOf tr'
  end.

(** Signed in with a token that ran out a second ago. *)
Definition expiredWorld (server : nat -> Settled) : World :=
  {| userAuth := UserAuth.mk "access" "refresh" 1699999999000 None;
     db := {[ levelKeys_auth :=
                StoredAuth (Auth.mk "access" (Some "refresh") 1699999999000) ]};
     now := 1700000000000; mainWindow := true; axios := server;
     userData := None; calls := O; trace := [] |}.

(** [preserves I c]: [c], started in a world where [I] holds, ends in
    one. *)
Definition preserves {T} (I : World -> Prop) (c : M World Err T) : Prop :=
  forall w r w', I w -> c w = (r, w') -> I w'.

(** The request [handleSignOut] makes. *)
Definition logoutRequest : Method * string * option string * option string :=
  (POST, "/auth/logout", Some "{}", Some "").

(** [attemptsLike op u requestFn]: while the session is [u], one
    invocation of [requestFn] is one axios call for [op] carrying the
    access token of [u]; it returns the body of a response and throws a
    rejection that is not a 401 as it is. *)
Definition attemptsLike (op : Operation) (u : UserAuth.t)
    (requestFn : M World Err Data.t) : Prop :=
  forall w, userAuth w = u ->
    match axios w (calls w) with
    | Resolved r =>
        requestFn w
        = (Returned (data r), attempted op (Some (UserAuth.authToken u)) w)
    | Rejected e =>
        isUnauthorized e = false ->
        requestFn w
        = (Thrown e, attempted op (Some (UserAuth.authToken u)) w)
    end.

(** [get] and [post], the two operations that go through
    [retryRequest]. *)
Definition retried (op : Operation) : bool :=
  match op with
  | Get _ _ | Post _ _ => true
  | _ => false
  end.

(** The [k] axios calls from the next one on are all rejected with
    retryable errors. *)
Definition nextFail (w : World) (k : nat) : Prop :=
  forall i, (i < k)%nat ->
    exists e, axios w (calls w + i) = Rejected e /\ isRetryableError e = true.

(** A server that answers every call with a 503. *)
Definition down (k : nat) : Settled := Rejected (failed 503).

End HydraApi.

(* ====================================================================== *)
(** * critical-error-handler.ts *)
(* ====================================================================== *)

Module CriticalErrorHandler.

(** [class CriticalStartupError]: message, component, recoverable. *)
Record CriticalStartupError := {
  message : string;
  component : string;
  recoverable : bool;
}.

(** [null] and [undefined]: a promise may be rejected without a
    reason. *)
Inductive Nullish := JsNull | JsUndefined.

Definition nullishText (v : Nullish) : string :=
  match v with
  | JsNull => "null"
  | JsUndefined => "undefined"
  end.

(** Values thrown and caught in this file; [Foreign] is an error raised
    by a collaborator, with its [name] and [message]; [NoError] is a
    rejection with [null] or [undefined]. *)
Inductive Exn :=
| Critical (e : CriticalStartupError)
| DatabaseCorruptionError (msg : string)
| SystemPathError (msg path : string)
| ProcessManagementError (msg processType : string)
| Foreign (name msg : string)
| NoError (v : Nullish).

(** [error.name] and [error.message] of an error; for [null] and
    [undefined], which have no properties, the text the logger prints
    for the value. *)
Definition exnName (error : Exn) : string :=
  match error with
  | Critical _ => "CriticalStartupError"
  | DatabaseCorruptionError _ => "DatabaseCorruptionError"
  | SystemPathError _ _ => "SystemPathError"
  | ProcessManagementError _ _ => "ProcessManagementError"
  | Foreign name _ => name
  | NoError v => nullishText v
  end.

Definition exnMessage (error : Exn) : string :=
  match error with
  | Critical e => message e
  | DatabaseCorruptionError msg => msg
  | SystemPathError msg _ => msg
  | ProcessManagementError msg _ => msg
  | Foreign _ msg => msg
  | NoError v => nullishText v
  end.

Definition nullish (error : Exn) : option Nullish :=
  match error with
  | NoError v => Some v
  | _ => None
  end.

(** The collaborator calls the handler makes. *)
Inductive Call :=
| AcquireLock                (* Lock.acquireLock() *)
| ReleaseLock                (* Lock.releaseLock() *)
| DbGetUserPreferences       (* db.get(levelKeys.userPreferences, ...) *)
| DbPutUserPreferences       (* db.put(levelKeys.userPreferences, ...) *)
| CheckIfPathsAreAvailable   (* SystemPath.checkIfPathsAreAvailable() *)
| PythonInitialize           (* PythonRPC.initialize() *)
| SetupApi                   (* HydraApi.setupApi() *)
| DownloadManagerInitialize  (* DownloadManager.initialize() *)
| DownloadCommonRedist       (* CommonRedistManager.downloadCommonRedist() *)
| CopyBinaryToUserData       (* Ludusavi.copyBinaryToUserData() *)
| StopAllDownloads           (* DownloadManager.stopAllDownloads() *)
| WsDisconnect               (* WSClient.disconnect() *)
| PythonKill                 (* PythonRPC.kill() *)
| Exec (command : string).   (* execAsync(command) *)

Definition call_eqb (a b : Call) : bool :=
  match a, b with
  | AcquireLock, AcquireLock
  | ReleaseLock, ReleaseLock
  | DbGetUserPreferences, DbGetUserPreferences
  | DbPutUserPreferences, DbPutUserPreferences
  | CheckIfPathsAreAvailable, CheckIfPathsAreAvailable
  | PythonInitialize, PythonInitialize
  | SetupApi, SetupApi
  | DownloadManagerInitialize, DownloadManagerInitialize
  | DownloadCommonRedist, DownloadCommonRedist
  | CopyBinaryToUserData, CopyBinaryToUserData
  | StopAllDownloads, StopAllDownloads
  | WsDisconnect, WsDisconnect
  | PythonKill, PythonKill => true
  | Exec c1, Exec c2 => String.eqb c1 c2
  | _, _ => false
  end.

(** The options of [dialog.showMessageBox]. *)
Record MessageBox := {
  box_type : string;
  title : string;
  box_message : string;
  detail : string;
  buttons : list string;
  defaultId : Z;
  cancelId : option Z;
}.

(** The entries and the whole of the [report] object of [reportIssue]. *)
Record ReportedError := {
  entry_component : string;
  entry_message : string;
  entry_recoverable : bool;
}.

Record IssueReport := {
  timestamp : Z;
  error_name : string;
  error_message : string;
  error_stack : string;
  report_startupErrors : list ReportedError;
  info_platform : string;
  info_arch : string;
  info_version : string;
  info_electronVersion : string;
}.

(** What the handler does to its surroundings, newest event first.
    [Reported r] is the call [logger.error('Issue report:',
    JSON.stringify(report, null, 2))]. *)
Inductive Event :=
| Called (c : Call)
| Logged (l : Level) (text : string)
| Delayed (ms : Z)
| Dialog (d : MessageBox)
| Reported (r : IssueReport)
| Quit                       (* app.quit() *)
| Exited (code : Z).         (* app.exit(code) *)

Record World := {
  startupErrors : list CriticalStartupError;
  trace : list Event;
  now : Z;
  (* how the k-th call of a collaborator settles: resolves, or rejects *)
  settles : Call -> nat -> option Exn;
  (* the button index the k-th message box resolves to *)
  response : nat -> Z;
  (* error.stack *)
  stack : Exn -> string;
  platform : string;           (* process.platform *)
  arch : string;               (* process.arch *)
  version : string;            (* process.version *)
  electronVersion : string;    (* process.versions.electron *)
}.

Definition record (e : Event) (w : World) : World :=
  {| startupErrors := startupErrors w; trace := e :: trace w; now := now w;
     settles := settles w; response := response w; stack := stack w;
     platform := platform w; arch := arch w; version := version w;
     electronVersion := electronVersion w |}.

Definition sleep (ms : Z) (w : World) : World :=
  {| startupErrors := startupErrors w; trace := Delayed ms :: trace w;
     now := now w + Z.max 0 ms; settles := settles w;
     response := response w; stack := stack w; platform := platform w;
     arch := arch w; version := version w;
     electronVersion := electronVersion w |}.

(** [this.startupErrors.push(e)] *)
Definition push (e : CriticalStartupError) (w : World) : World :=
  {| startupErrors := startupErrors w ++ [e]; trace := trace w;
     now := now w; settles := settles w; response := response w;
     stack := stack w; platform := platform w; arch := arch w;
     version := version w; electronVersion := electronVersion w |}.

#[export] Instance world_runtime : Runtime World := {
  rt_delay := sleep;
  rt_log l text := record (Logged l text);
}.

(** How often [c] has been called so far. *)
Fixpoint occurrences (c : Call) (tr : list Event) : nat :=
  match tr with
  | [] => O
  | Called c' :: tr' =>
      if call_eqb c c' then S (occurrences c tr') else occurrences c tr'
  | _ :: tr' => occurrences c tr'
  end.

Fixpoint dialogs (tr : list Event) : nat :=
  match tr with
  | [] => O
  | Dialog _ :: tr' => S (dialogs tr')
  | _ :: tr' => dialogs tr'
  end.

(** How the next call of [c] will settle. *)
Definition next (w : World) (c : Call) : option Exn :=
  settles w c (occurrences c (trace w)).

(** Awaiting (or, for [WSClient.disconnect], making) a collaborator
    call. *)
Definition call (c : Call) : M World Exn unit :=
  fun w =>
    match next w c with
    | None => (Returned tt, record (Called c) w)
    | Some e => (Thrown e, record (Called c) w)
    end.

Definition showMessageBox (d : MessageBox) : M World Exn Z :=
  fun w => (Returned (response w (dialogs (trace w))), record (Dialog d) w).

(** Reading a property of a caught value, [error.message] or
    [error.name]: on [null] and [undefined] the read throws a
    [TypeError]. *)
Definition readProperty {A} (property : string) (read : Exn -> A)
    (error : Exn) : M World Exn A :=
  match nullish error with
  | Some v =>
      throw (Foreign "TypeError"
               ("Cannot read properties of " +:+ nullishText v
                +:+ " (reading '" +:+ property +:+ "')"))
  | None => ret (read error)
  end.

Definition MAX_RETRY_ATTEMPTS : Z := 3.
Definition RETRY_DELAY : Z := 2000.

(** ** Startup *)

(** The body of [for (let attempt = 1; attempt <= MAX_RETRY_ATTEMPTS;
    attempt++)] in [handleLockAcquisition], over the attempts left. *)
Fixpoint lockAttempts (attempts : list Z) : M World Exn unit :=
  match attempts with
  | [] => ret tt
  | attempt :: later =>
      fun w =>
        match call AcquireLock w with
        | (Returned _, w1) => logger Info "Lock acquired successfully" w1
        | (Thrown error, w1) =>
            (logger Error
               ("Lock acquisition attempt " +:+ pretty attempt
                +:+ " failed: " +:+ exnMessage error) ;;
             if attempt =? MAX_RETRY_ATTEMPTS then
               throw (Critical
                        {| message :=
                             "Failed to acquire application lock after multiple attempts. Another instance may be running.";
                           component := "Lock";
                           recoverable := false |})
             else
               delay (RETRY_DELAY * attempt) ;;
               lockAttempts later) w1
        end
  end.

Definition handleLockAcquisition : M World Exn unit :=
  lockAttempts (zrange 1 MAX_RETRY_ATTEMPTS).

Definition createDatabaseBackup : M World Exn unit :=
  logger Info "Database backup created".

Definition resetCriticalDatabaseEntries : M World Exn unit :=
  tryCatch
    (call DbPutUserPreferences ;;
     logger Info "Critical database entries reset to defaults")
    (fun error =>
       logger Error ("Failed to reset database entries: " +:+ exnMessage error) ;;
       throw error).

Definition attemptDatabaseRecovery : M World Exn bool :=
  tryCatch
    (logger Info "Attempting database recovery..." ;;
     createDatabaseBackup ;;
     resetCriticalDatabaseEntries ;;
     logger Info "Database recovery successful" ;;
     ret true)
    (fun error =>
       logger Error ("Database recovery failed: " +:+ exnMessage error) ;;
       ret false).

Definition handleDatabaseInitialization : M World Exn unit :=
  tryCatch
    (call DbGetUserPreferences ;;
     logger Info "Database initialization successful")
    (fun error =>
       logger Error ("Database initialization failed: " +:+ exnMessage error) ;;
       recovered <- attemptDatabaseRecovery ;;
       if negb recovered then
         throw (DatabaseCorruptionError
                  "Database is corrupted and cannot be recovered. Please reinstall the application.")
       else ret tt).

Definition attemptPathRecovery : M World Exn bool :=
  tryCatch
    (logger Info "Attempting system path recovery..." ;;
     logger Info "System path recovery successful" ;;
     ret true)
    (fun error =>
       logger Error ("System path recovery failed: " +:+ exnMessage error) ;;
       ret false).

Definition handleSystemPathValidation : M World Exn unit :=
  tryCatch
    (call CheckIfPathsAreAvailable ;;
     logger Info "System path validation successful")
    (fun error =>
       logger Error ("System path validation failed: " +:+ exnMessage error) ;;
       recovered <- attemptPathRecovery ;;
       if negb recovered then
         throw (SystemPathError
                  "Critical system paths are inaccessible. Please check file permissions."
                  "system-paths")
       else ret tt).

Record ServiceDescriptor := {
  name : string;
  init : M World Exn unit;
}.

Definition services : list ServiceDescriptor :=
  [ {| name := "PythonRPC"; init := call PythonInitialize |};
    {| name := "HydraApi"; init := call SetupApi |};
    {| name := "DownloadManager"; init := call DownloadManagerInitialize |};
    {| name := "CommonRedistManager"; init := call DownloadCommonRedist |};
    {| name := "Ludusavi"; init := call CopyBinaryToUserData |} ].

(** [for (const service of services) { try ... catch ... }]; the
    [catch] reads [error.message], and what it throws then ends the
    loop. *)
Fixpoint initializeEach (svcs : list ServiceDescriptor) : M World Exn unit :=
  match svcs with
  | [] => ret tt
  | service :: later =>
      tryCatch
        (init service ;;
         logger Info (name service +:+ " initialization successful"))
        (fun error =>
           logger Error
             (name service +:+ " initialization failed: "
              +:+ exnMessage error) ;;
           original <- readProperty "message" exnMessage error ;;
           modify
             (push {| message :=
                        name service +:+ " failed to initialize: "
                        +:+ original;
                      component := name service;
                      recoverable := true |})) ;;
      initializeEach later
  end.

Definition handleEssentialServices : M World Exn unit :=
  initializeEach services.

(** ** Failure handling and reporting *)

Definition initializeWithLimitedFunctionality : M World Exn unit :=
  logger Info "Initializing with limited functionality..." ;;
  showMessageBox
    {| box_type := "warning";
       title := "Limited Functionality";
       box_message :=
         "Some features may not work properly due to startup errors.";
       detail :=
         "The application will continue with limited functionality. You may need to restart the application later.";
       buttons := ["Continue"];
       defaultId := 0;
       cancelId := None |} ;;
  ret tt.

Definition reportIssue (error : Exn) : M World Exn unit :=
  logger Info "Preparing issue report..." ;;
  readProperty "name" exnName error ;;
  modify
    (fun w =>
       record
         (Reported
            {| timestamp := now w;
               error_name := exnName error;
               error_message := exnMessage error;
               error_stack := stack w error;
               report_startupErrors :=
                 map (fun e =>
                        {| entry_component := component e;
                           entry_message := message e;
                           entry_recoverable := recoverable e |})
                   (startupErrors w);
               info_platform := platform w;
               info_arch := arch w;
               info_version := version w;
               info_electronVersion := electronVersion w |}) w).

(** [error instanceof CriticalStartupError ? error.recoverable : false] *)
Definition isRecoverable (error : Exn) : bool :=
  match error with
  | Critical e => recoverable e
  | _ => false
  end.

(** The message box of [handleStartupFailure]; its [detail] is
    [error.message]. *)
Definition failureBox (error : Exn) : MessageBox :=
  {| box_type := "error";
     title := "Neo Launcher Startup Error";
     box_message :=
       "The application encountered a critical error during startup.";
     detail := exnMessage error;
     buttons :=
       if isRecoverable error then ["Retry"; "Continue Anyway"; "Exit"]
       else ["Exit"; "Report Issue"];
     defaultId := 0;
     cancelId := Some (if isRecoverable error then 2 else 0) |}.

(** A whole startup may be run again from the failure dialog, any number
    of times; [option] is for a run that is cut off before it ends. *)
Definition Run : Type := World -> option (Outcome Exn unit * World).

(** [handleStartupFailure], with [handleCriticalStartup] for the call
    [await this.handleCriticalStartup()] of its Retry branch.  The
    options of the message box are built, [error.message] read, before
    the box is shown. *)
Definition handleStartupFailure (handleCriticalStartup : Run) (error : Exn)
    : Run :=
  fun w =>
    match
      (logger Error ("Critical startup failure: " +:+ exnMessage error) ;;
       readProperty "message" exnMessage error ;;
       showMessageBox (failureBox error)) w
    with
    | (Thrown e, w1) => Some (Thrown e, w1)
    | (Returned result, w1) =>
        if result =? 0 then
          if isRecoverable error then
            handleCriticalStartup
              (rt_log Info "User chose to retry startup" w1)
          else
            Some ((logger Info "User chose to exit due to unrecoverable error" ;;
                   modify (record Quit)) w1)
        else if result =? 1 then
          if isRecoverable error then
            Some ((logger Info "User chose to continue despite errors" ;;
                   initializeWithLimitedFunctionality) w1)
          else Some (Returned tt, w1)
        else if result =? 2 then
          Some ((logger Info "User chose to report issue" ;;
                 reportIssue error ;;
                 modify (record Quit)) w1)
        else Some (Returned tt, w1)
    end.

(** The [try] block of [handleCriticalStartup]. *)
Definition startupSequence : M World Exn unit :=
  logger Info "Starting critical startup sequence..." ;;
  handleLockAcquisition ;;
  handleDatabaseInitialization ;;
  handleSystemPathValidation ;;
  handleEssentialServices ;;
  logger Info "Critical startup sequence completed successfully".

(** [fuel] bounds how many times the sequence is started. *)
Fixpoint handleCriticalStartup (fuel : nat) : Run :=
  fun w =>
    match fuel with
    | O => None
    | S fuel' =>
        match startupSequence w with
        | (Returned _, w1) => Some (Returned tt, w1)
        | (Thrown error, w1) =>
            handleStartupFailure (handleCriticalStartup fuel') error w1
        end
    end.

(** ** Shutdown *)

Definition forceKillPythonProcesses : M World Exn unit :=
  tryCatch
    (platform <- gets platform ;;
     (if String.eqb platform "win32" then
        call (Exec "taskkill /f /im python.exe")
      else call (Exec "pkill -f python")) ;;
     logger Info "Python processes force-killed")
    (fun error =>
       logger Error
         ("Failed to force-kill Python processes: " +:+ exnMessage error)).

Definition killPythonProcesses : M World Exn unit :=
  tryCatch
    (call PythonKill ;;
     logger Info "Python processes terminated successfully")
    (fun error =>
       logger Error
         ("Failed to kill Python processes gracefully: "
          +:+ exnMessage error) ;;
       forceKillPythonProcesses).

Definition handleGracefulShutdown : M World Exn unit :=
  logger Info "Starting graceful shutdown..." ;;
  tryCatch
    (call StopAllDownloads ;;
     call WsDisconnect ;;
     killPythonProcesses ;;
     call ReleaseLock ;;
     logger Info "Graceful shutdown completed")
    (fun error =>
       logger Error ("Error during graceful shutdown: " +:+ exnMessage error) ;;
       modify (record (Exited 1))).

(** [getStartupErrors] returns a copy; [clearStartupErrors] empties. *)
Definition getStartupErrors : M World Exn (list CriticalStartupError) :=
  gets startupErrors.

Definition clearStartupErrors : M World Exn unit :=
  modify (fun w =>
            {| startupErrors := []; trace := trace w; now := now w;
               settles := settles w; response := response w;
               stack := stack w; platform := platform w; arch := arch w;
               version := version w;
               electronVersion := electronVersion w |}).

(** ** Vocabulary of the statements about the handler *)

(** The delays waited and the collaborator calls made, oldest first. *)
Fixpoint delaysOf (tr : list Event) : list Z :=
  match tr with
  | [] => []
  | Delayed ms :: tr' => delaysOf tr' ++ [ms]
  | _ :: tr' => delaysOf tr'
  end.

Fixpoint callsOf (tr : list Event) : list Call :=
  match tr with
  | [] => []
  | Called c :: tr' => callsOf tr' ++ [c]
  | _ :: tr' => callsOf tr'
  end.

Fixpoint reportsOf (tr : list Event) : list IssueReport :=
  match tr with
  | [] => []
  | Reported r :: tr' => reportsOf tr' ++ [r]
  | _ :: tr' => reportsOf tr'
  end.

(** [app.quit()] or [app.exit(code)] was called. *)
Definition hasQuit (tr : list Event) : bool :=
  existsb (fun e => match e with Quit | Exited _ => true | _ => false end) tr.

(** The startup error a service leaves behind when its [init], run in
    [w], fails; none when it fails without a reason, for then the
    [catch] itself throws. *)
Definition entryFor (w : World) (service : ServiceDescriptor)
    : list CriticalStartupError :=
  match (init service w).1 with
  | Returned _ => []
  | Thrown error =>
      match nullish error with
      | Some _ => []
      | None =>
          [ {| message :=
                 name service +:+ " failed to initialize: "
                 +:+ exnMessage error;
               component := name service;
               recoverable := true |} ]
      end
  end.

(** The [init] of the service, run in [w], is rejected with [null] or
    [undefined]. *)
Definition unexplained (w : World) (service : ServiceDescriptor) : bool :=
  match (init service w).1 with
  | Returned _ => false
  | Thrown error =>
      match nullish error with
      | Some _ => true
      | None => false
      end
  end.

(** The services the loop gets to: all of them, or those up to and
    with the first that fails without a reason. *)
Fixpoint reached (w : World) (svcs : list ServiceDescriptor)
    : list ServiceDescriptor :=
  match svcs with
  | [] => []
  | service :: later =>
      service :: (if unexplained w service then [] else reached w later)
  end.

(** What the [catch] of the service loop throws on [null] or
    [undefined]. *)
Definition noMessage (v : Nullish) : Exn :=
  Foreign "TypeError"
    ("Cannot read properties of " +:+ nullishText v
     +:+ " (reading 'message')").

Definition fails (w : World) (service : ServiceDescriptor) : bool :=
  match (init service w).1 with
  | Returned _ => false
  | Thrown _ => true
  end.

(** The error [handleLockAcquisition] gives up with. *)
Definition lockFailure : Exn :=
  Critical
    {| message :=
         "Failed to acquire application lock after multiple attempts. Another instance may be running.";
       component := "Lock";
       recoverable := false |}.

(** ** Sample worlds *)

Definition world (settles : Call -> nat -> option Exn) (response : nat -> Z)
    (platform : string) : World :=
  {| startupErrors := []; trace := []; now := 1700000000000;
     settles := settles; response := response;
     stack := fun error => exnName error +:+ ": " +:+ exnMessage error;
     platform := platform; arch := "x64"; version := "v20.11.1";
     electronVersion := "31.7.7" |}.

(** Another instance holds the lock; the user presses the second
    button of whatever dialog comes up. *)
Definition lockedOut : World :=
  world (fun c _ =>
           match c with
           | AcquireLock => Some (Foreign "Error" "EEXIST: file already exists")
           | _ => None
           end)
    (fun _ => 1) "linux".

(** The API set-up and the backup tool fail to initialise. *)
Definition twoServicesDown : World :=
  world (fun c _ =>
           match c with
           | SetupApi => Some (Foreign "AxiosError" "connect ECONNREFUSED")
           | CopyBinaryToUserData => Some (Foreign "Error" "EACCES")
           | _ => None
           end)
    (fun _ => 0) "linux".

(** The helper subprocess refuses to die. *)
Definition stubbornHelper (platform : string) : World :=
  world (fun c _ =>
           match c with
           | PythonKill => Some (Foreign "Error" "kill ESRCH")
           | _ => None
           end)
    (fun _ => 0) platform.

(** ** Vocabulary of the further statements *)

(** The calls of the three steps that come before the services. *)
Definition isEarlyCall (c : Call) : bool :=
  match c with
  | AcquireLock | DbGetUserPreferences | DbPutUserPreferences
  | CheckIfPathsAreAvailable => true
  | _ => false
  end.

(** The five [init] calls, in the declared order. *)
Definition serviceCalls : list Call :=
  [PythonInitialize; SetupApi; DownloadManagerInitialize;
   DownloadCommonRedist; CopyBinaryToUserData].

(** Another instance lets go of the lock after two tries. *)
Definition busyLock : World :=
  world (fun c k =>
           match c with
           | AcquireLock =>
               if (k <? 2)%nat
               then Some (Foreign "Error" "EEXIST: file already exists")
               else None
           | _ => None
           end)
    (fun _ => 0) "linux".

(** The downloads cannot be stopped. *)
Definition stuckDownloads : World :=
  world (fun c _ =>
           match c with
           | StopAllDownloads => Some (Foreign "Error" "aria2 not responding")
           | _ => None
           end)
    (fun _ => 0) "linux".

(** The API set-up is rejected without a reason; the user presses the
    first button of whatever dialog comes up. *)
Definition silentRejection : World :=
  world (fun c _ =>
           match c with
           | SetupApi => Some (NoError JsUndefined)
           | _ => None
           end)
    (fun _ => 0) "linux".

(** A dialog answered with its third button. *)
Definition thirdButton : World :=
  world (fun _ _ => None) (fun _ => 2) "linux".

(** [early w w1]: between [w] and [w1] only calls of the first three
    steps were made, no dialog was shown, no exit was asked for and the
    startup errors were left alone. *)
Definition early (w w1 : World) : Prop :=
  exists pre,
    forallb isEarlyCall pre = true
    /\ callsOf (trace w1) = callsOf (trace w) ++ pre
    /\ dialogs (trace w1) = dialogs (trace w)
    /\ hasQuit (trace w1) = hasQuit (trace w)
    /\ startupErrors w1 = startupErrors w
    /\ settles w1 = settles w.

(** The next call of [c] will be rejected. *)
Definition rejects (w : World) (c : Call) : bool :=
  match next w c with
  | Some _ => true
  | None => false
  end.

(** A service failure as [handleEssentialServices] records it. *)
Definition serviceFailure : Exn :=
  Critical
    {| message := "HydraApi failed to initialize: connect ECONNREFUSED";
       component := "HydraApi";
       recoverable := true |}.

End CriticalErrorHandler.

(* ====================================================================== *)
(** * events/catalogue/search-games.ts *)
(* ====================================================================== *)

Module SearchGames.
Import HydraApi.

(** An entry of [mockGames]; rating and price are the decimal literals
    of the source. *)
Record MockGame := {
  id : Z;
  title : string;
  description : string;
  image : string;
  rating : Q;
  price : Q;
  developer : string;
  publisher : string;
  releaseDate : string;
  platforms : list string;
  genres : list string;
}.

Definition mockGames : list MockGame :=
  [ {| id := 1;
       title := "Cyberpunk 2077";
       description := "An open-world action-adventure story set in Night City";
       image := "https://via.placeholder.com/300x200?text=Cyberpunk+2077";
       rating := 4.5%Q;
       price := 59.99%Q;
       developer := "CD Projekt Red";
       publisher := "CD Projekt";
       releaseDate := "2020-12-10";
       platforms := ["PC"; "Steam"];
       genres := ["RPG"; "Action"] |};
    {| id := 2;
       title := "Elden Ring";
       description := "An action RPG set in a vast fantasy world";
       image := "https://via.placeholder.com/300x200?text=Elden+Ring";
       rating := 4.8%Q;
       price := 59.99%Q;
       developer := "FromSoftware";
       publisher := "Bandai Namco";
       releaseDate := "2022-02-25";
       platforms := ["PC"; "Steam"];
       genres := ["Action"; "RPG"] |};
    {| id := 3;
       title := "Baldur's Gate 3";
       description :=
         "A next-generation RPG set in the world of Dungeons & Dragons";
       image := "https://via.placeholder.com/300x200?text=Baldur's+Gate+3";
       rating := 4.9%Q;
       price := 59.99%Q;
       developer := "Larian Studios";
       publisher := "Larian Studios";
       releaseDate := "2023-08-03";
       platforms := ["PC"; "Steam"];
       genres := ["RPG"; "Strategy"] |} ].

(** [Array.prototype.slice(start, end)] on integer arguments: a negative
    index counts from the end, and both are clamped to the array. *)
Definition slice {A} (l : list A) (start stop : Z) : list A :=
  let len := Z.of_nat (length l) in
  let k := if start <? 0 then Z.max (len + start) 0 else Z.min start len in
  let final := if stop <? 0 then Z.max (len + stop) 0 else Z.min stop len in
  firstn (Z.to_nat (final - k)) (skipn (Z.to_nat k) l).

(** What the handler resolves to: the body of the backend's answer, or
    the mock page. *)
Inductive SearchResult :=
| FromBackend (data : Data.t)
| Fallback (edges : list MockGame) (count : Z).

(** The request body [{ ...payload, take, skip }], carried as text. *)
Definition searchBody (payload : string) (take skip : Z) : string :=
  payload +:+ " take=" +:+ pretty take +:+ " skip=" +:+ pretty skip.

Definition searchOptions : option HydraApiOptions :=
  Some {| needsAuth := Some false; needsSubscription := None;
          ifModifiedSince := None; retryAttempts := None;
          retryDelay := None |}.

Definition searchGames (payload : string) (take skip : Z)
    : M World Err SearchResult :=
  tryCatch
    (r <- post "/catalogue/search" (Some (searchBody payload take skip))
            searchOptions ;;
     ret (FromBackend r))
    (fun _ =>
       ret (Fallback (slice mockGames skip (skip + take))
              (Z.of_nat (length mockGames)))).

(** The search request as it appears among the calls made. *)
Definition searchRequest (payload : string) (take skip : Z) : Operation :=
  Post "/catalogue/search" (Some (searchBody payload take skip)).

(** A server that answers every call with a 401. *)
Definition unauthorized (k : nat) : Settled := Rejected (failed 401).

End SearchGames.

(* ====================================================================== *)
(** * The catalogue page of the renderer *)
(* ====================================================================== *)

Module Catalogue.

Definition PAGE_SIZE : Z := 20.

(** [s.replaceAll(pattern, replacement)] for a non-empty [pattern]:
    the occurrences are found from left to right and do not overlap.
    [skip] counts the characters of a match still to be passed over. *)
Fixpoint replaceAllFrom (pattern replacement : string) (skip : nat)
    (s : string) : string :=
  match s with
  | EmptyString => EmptyString
  | String c s' =>
      match skip with
      | S k => replaceAllFrom pattern replacement k s'
      | O =>
          if String.prefix pattern s then
            replacement
            +:+ replaceAllFrom pattern replacement
                  (Nat.pred (String.length pattern)) s'
          else String c (replaceAllFrom pattern replacement O s')
      end
  end.

Definition replaceAll (s pattern replacement : string) : string :=
  replaceAllFrom pattern replacement O s.

Definition decodeHTML (s : string) : string :=
  replaceAll (replaceAll (replaceAll s "&amp;" "&") "&lt;" "<") "&gt;" ">".

(** [filters[key].includes(value)] *)
Definition includes (filters : list string) (value : string) : bool :=
  existsb (String.eqb value) filters.

(** The list dispatched by [onSelect] of a filter section. *)
Definition onSelect (filters : list string) (value : string) : list string :=
  if includes filters value
  then List.filter (fun item => negb (String.eqb item value)) filters
  else filters ++ [value].

(** The list dispatched by [onRemove] of a filter item. *)
Definition onRemove (filters : list string) (value : string) : list string :=
  List.filter (fun item => negb (String.eqb item value)) filters.

(** [Math.ceil(itemsCount / PAGE_SIZE)] on an integer count. *)
Definition totalPages (itemsCount : Z) : Z :=
  (itemsCount + PAGE_SIZE - 1) / PAGE_SIZE.

(** The offset [(page - 1) * PAGE_SIZE] the search is called with. *)
Definition offsetOf (page : Z) : Z := (page - 1) * PAGE_SIZE.

(** No ampersand in [s]. *)
Fixpoint plain (s : string) : bool :=
  match s with
  | EmptyString => true
  | String c s' => negb (Ascii.eqb c "&"%char) && plain s'
  end.

End Catalogue.

(* ====================================================================== *)
(** * Properties of the API client *)
(* ====================================================================== *)

Module HydraApiFacts.
Import HydraApi.

Lemma zrange_cons lo hi : lo <= hi -> zrange lo hi = lo :: zrange (lo + 1) hi.
Proof.
  intros Hle. unfold zrange.
  replace (Z.to_nat (hi - lo + 1)) with (S (Z.to_nat (hi - (lo + 1) + 1)))
    by lia.
  simpl. f_equal; [lia|].
  rewrite <- seq_shift, map_map. apply map_ext. intros k. lia.
Qed.

Lemma zrange_nil lo hi : hi < lo -> zrange lo hi = [].
Proof.
  intros Hlt. unfold zrange.
  replace (Z.to_nat (hi - lo + 1)) with O by lia. reflexivity.
Qed.

Lemma retryable_not_auth e : isRetryableError e = true -> isAuthError e = false.
Proof. destruct e; simpl; intros; try reflexivity; discriminate. Qed.

Lemma retryable_not_unauthorized e :
  isRetryableError e = true -> isUnauthorized e = false.
Proof.
  destruct e as [| |c [r|] m| | | | |]; simpl; intros Hr; try reflexivity.
  apply andb_prop in Hr as [H1 H2]. lia.
Qed.

Ltac step := unfold bind, logger, delay, modify, ret, throw, gets; simpl.

Section Exhaustion.
Context {W : Type} `{Runtime W} {T : Type}.
Variable requestFn : M W Err T.
(** [J k w]: the world [w] has seen [k] invocations of [requestFn]. *)
Variable J : nat -> W -> Prop.
Variable P : Err -> Prop.
Hypothesis fails :
  forall k w, J k w ->
    exists e w', requestFn w = (Thrown e, w')
                 /\ isRetryableError e = true /\ P e /\ J (S k) w'.
Hypothesis J_delay : forall k w ms, J k w -> J k (rt_delay ms w).
Hypothesis J_log : forall k w l text, J k w -> J k (rt_log l text w).

(** A loop over the attempts [a..n] that fail one and all is left by
    [break] at attempt [n], after [n - a + 1] invocations. *)
Lemma retryLoop_exhausts (n d : Z) :
  forall (m : nat) (a : Z) (last : option Err) (k : nat) (w : W),
    a <= n -> m = Z.to_nat (n - a) -> J k w ->
    exists e w',
      retryLoop requestFn n d (zrange a n) last w
      = (Returned (inr (Some e)), w')
      /\ isRetryableError e = true /\ P e /\ J (k + m + 1)%nat w'.
Proof.
  induction m as [|m IH]; intros a last k w Han Hm HJ;
    rewrite zrange_cons by lia; simpl;
    destruct (fails k w HJ) as (e & w1 & Hrun & Hre & HP & HJ1);
    rewrite Hrun, (retryable_not_auth e Hre),
      (retryable_not_unauthorized e Hre), Hre; simpl.
  - assert (a = n) by lia. subst a.
    rewrite Z.ltb_irrefl. exists e, w1.
    replace (k + 0 + 1)%nat with (S k) by lia. auto.
  - assert (Hlt : (a <? n) = true) by (apply Z.ltb_lt; lia).
    rewrite Hlt. step.
    destruct (IH (a + 1) (Some e) (S k)
                (rt_delay (d * 2 ^ a)
                   (rt_log Warn
                      ("Request failed (attempt " +:+ pretty (a + 1)
                       +:+ "/" +:+ pretty (n + 1) +:+ "): "
                       +:+ errMessage e) w1)))
      as (e' & w' & Hloop & Hre' & HP' & HJ');
      [lia | lia | auto |].
    exists e', w'. rewrite Hloop.
    replace (k + S m + 1)%nat with (S k + m + 1)%nat by lia. auto.
Qed.
End Exhaustion.


Lemma spy_counts {W T} (requestFn : M W Err T) (P : Err -> Prop) :
  (forall w, exists e w',
      requestFn w = (Thrown e, w') /\ isRetryableError e = true /\ P e) ->
  forall (k : nat) (s : W * nat), s.2 = k ->
    exists e s', spy requestFn s = (Thrown e, s')
                 /\ isRetryableError e = true /\ P e /\ s'.2 = S k.
Proof.
  intros Hf k [w c] Hc. simpl in Hc. subst c.
  destruct (Hf w) as (e & w' & Hrun & Hre & HP).
  exists e, (w', S k). unfold spy. rewrite Hrun. auto.
Qed.

(** What [surface] throws for a retryable [lastError]. *)
Lemma surface_throws {W} `{Runtime W} {T} (e : Err) (w : W) :
  exists e' w',
    surface (T := T) (Some e) w = (Thrown e', w')
    /\ ((exists m, e' = BackendUnavailableError m)
        \/ (exists m, e' = NetworkError m e)).
Proof.
  unfold surface.
  destruct e as [| |c [r|] m| | | | |]; step;
    repeat match goal with
           | |- context [if ?b then _ else _] => destruct b; step
           end;
    eexists; eexists; (split; [reflexivity|]); eauto.
Qed.

(** C1.  With [retryAttempts = n >= 0], an operation that fails with a
    retryable error each time it is invoked is invoked exactly [n + 1]
    times by [retryRequest], which then throws: a
    [BackendUnavailableError], or a [NetworkError] wrapping the error of
    the last invocation. *)
Theorem retryRequest_invokes_n_plus_1 :
  forall (W : Type) (R : Runtime W) (T : Type) (requestFn : M W Err T)
         (n : Z) (retryDelay : option Z) (w : W),
    0 <= n ->
    (forall w, exists e w',
        requestFn w = (Thrown e, w') /\ isRetryableError e = true) ->
    exists thrown w',
      retryRequest (spy requestFn) (Some n) retryDelay (w, O)
      = (Thrown thrown, (w', Z.to_nat (n + 1)))
      /\ ((exists m, thrown = BackendUnavailableError m)
          \/ (exists m last,
                 thrown = NetworkError m last
                 /\ isRetryableError last = true)).
Proof.
  intros W R T requestFn n retryDelay w Hn Hf.
  unfold retryRequest. simpl default.
  destruct (retryLoop_exhausts (spy requestFn) (fun k s => s.2 = k)
              (fun _ => True)) with
    (n := n) (d := default DEFAULT_RETRY_DELAY retryDelay)
    (m := Z.to_nat (n - 0)) (a := 0) (last := @None Err) (k := O)
    (w := (w, O))
    as (e & [w1 c1] & Hloop & Hre & _ & Hc); try lia; try reflexivity.
  - intros k s Hs.
    destruct (spy_counts requestFn (fun _ => True)) with (k := k) (s := s)
      as (e & s' & Hrun & Hre & HP & Hs'); auto.
    + intros w0. destruct (Hf w0) as (e & w' & H1 & H2). eauto.
    + eauto 8.
  - intros k [w0 c0] ms Hk. exact Hk.
  - intros k [w0 c0] l text Hk. exact Hk.
  - simpl in Hc. unfold bind. rewrite Hloop.
    destruct (surface_throws (T := T) e (w1, c1)) as (e' & [w2 c2] & Hs & Hshape).
    assert (Hcount : c2 = c1).
    { revert Hs. unfold surface.
      destruct e as [| |c [r|] m| | | | |]; step;
        repeat match goal with
               | |- context [if ?b then _ else _] => destruct b; step
               end; intros Heq; inversion Heq; reflexivity. }
    subst c2. exists e', w2. rewrite Hs. split.
    + do 2 f_equal. lia.
    + destruct Hshape as [?|[m ->]]; eauto.
Qed.


(** C5, at the failing input: [get('/games')] while the backend refuses
    the connection.  The failure has no response and the code
    ECONNREFUSED, so it is retryable as it stands, and [retryRequest],
    given it as it stands, makes its four attempts and throws a
    [BackendUnavailableError].  But the response interceptor has turned
    it into a plain [Error] without a code before [retryRequest] sees
    it: the call is made once, nothing is waited for, and what is
    thrown is the generic [NetworkError]. *)
Theorem refused_connection_is_tried_once :
  forall syntaxErrorMessage : string -> string,
    let w :=
      signedInWorld
        (fun _ =>
           throughInterceptors syntaxErrorMessage (Failed connectionRefused))
    in
    raw_response connectionRefused = None
    /\ raw_code connectionRefused = Some "ECONNREFUSED"
    /\ isRetryableError (asErr connectionRefused) = true
    /\ (exists w',
          retryRequest
            (spy (failing (T := Data.t) (asErr connectionRefused)))
            None None (w, O)
          = (Thrown
               (BackendUnavailableError
                  "Backend service unavailable: connect ECONNREFUSED 127.0.0.1:443"),
             (w', 4%nat)))
    /\ exists w',
         perform (Get "/games" None) None w
         = (Thrown
              (NetworkError
                 "Request failed: Request failed with ECONNREFUSED connect ECONNREFUSED 127.0.0.1:443"
                 (PlainError None
                    "Request failed with ECONNREFUSED connect ECONNREFUSED 127.0.0.1:443")),
            w')
         /\ calls w' = 1%nat
         /\ delaysOf (trace w') = [].
Proof.
  intros syntaxErrorMessage w. subst w.
  split; [reflexivity|]. split; [reflexivity|]. split; [reflexivity|].
  split.
  - eexists. vm_compute. reflexivity.
  - eexists. split; [vm_compute; reflexivity|].
    split; reflexivity.
Qed.

Lemma handleUnauthorizedError_other {T} (err : Err) (w : World) :
  isUnauthorized err = false ->
  handleUnauthorizedError (T := T) err w = (Thrown err, w).
Proof.
  intros Hne. unfold handleUnauthorizedError. rewrite Hne. reflexivity.
Qed.

(** C10.  An error that is not an Axios error with a 401 response is
    rethrown by [handleUnauthorizedError] as it is, and the world is left
    exactly as it was: same session, same persisted records, nothing sent
    or logged. *)
Theorem handleUnauthorizedError_rethrows_other_errors :
  forall (T : Type) (err : Err) (w : World),
    isUnauthorized err = false ->
    handleUnauthorizedError (T := T) err w = (Thrown err, w).
Proof.
  intros T err w Hne. unfold handleUnauthorizedError.
  destruct (isUnauthorized err); [discriminate | reflexivity].
Qed.

(** The same through [revalidateAccessTokenIfExpired]: a refresh that is
    rejected with anything but a 401 is propagated, the session and the
    database are untouched and no sign-out is sent. *)
Lemma revalidate_propagates_other_errors (w : World) (e : Err) :
  (UserAuth.expirationTimestamp (userAuth w) <? now w) = true ->
  axios w (calls w) = Rejected e ->
  isUnauthorized e = false ->
  exists w',
    revalidateAccessTokenIfExpired w = (Thrown e, w')
    /\ userAuth w' = userAuth w /\ db w' = db w
    /\ trace w'
       = Requested POST "/auth/refresh"
           (Some (UserAuth.refreshToken (userAuth w))) None :: trace w.
Proof.
  intros Hexp Hax Hne. unfold revalidateAccessTokenIfExpired.
  rewrite Hexp. unfold tryCatch, refreshToken, request. step.
  rewrite Hax. simpl.
  rewrite handleUnauthorizedError_other by exact Hne.
  eexists. split; [reflexivity|]. simpl. auto.
Qed.


(** ** A 401 ends the call *)

Ltac okAt_intro := unfold okAt; split; [|split; [|split]].

Lemma answers401_frame (w w1 : World) (k : nat) :
  axios w1 = axios w -> answers401 w1 k = answers401 w k.
Proof. intros Hax. unfold answers401. rewrite Hax. reflexivity. Qed.

Lemma signedOut_frame {T} (w w1 : World) k (r : Outcome Err T) w' :
  axios w1 = axios w -> mainWindow w1 = mainWindow w ->
  signedOut w1 k r w' -> signedOut w k r w'.
Proof.
  intros Hax Hmw. unfold signedOut. rewrite Hax, Hmw. auto.
Qed.

Lemma signedOut_returned {T U} (w : World) k (a : T) (r : Outcome Err U) w' :
  signedOut w k (Returned a) w' -> signedOut w k r w'.
Proof.
  intros (_ & (e & _ & Heq) & _). discriminate.
Qed.

Lemma signedOut_thrown {T U} (w : World) k (e : Err) w' :
  signedOut (T := T) w k (Thrown e) w' -> signedOut (T := U) w k (Thrown e) w'.
Proof.
  unfold signedOut. intros (Hc & (e' & Hax & Heq) & Hrest).
  split; [exact Hc|]. split; [|exact Hrest].
  exists e'. split; [exact Hax|]. congruence.
Qed.

Lemma signedOut_unauthorized {T} (w : World) k (e : Err) w' :
  answers401 w k = true -> signedOut (T := T) w k (Thrown e) w' ->
  isUnauthorized e = true.
Proof.
  intros H401 (_ & (e' & Hax & Heq) & _). unfold answers401 in H401.
  rewrite Hax in H401. congruence.
Qed.

(** Going on after a step that returned. *)
Lemma okAt_after_return {T U} (w w1 w2 : World) (a : T) (r : Outcome Err U) :
  okAt w (Returned a) w1 -> okAt w1 r w2 -> okAt w r w2.
Proof.
  intros (Hax1 & Hmw1 & Hc1 & H1) (Hax2 & Hmw2 & Hc2 & H2).
  okAt_intro; try congruence; try lia.
  intros k Hk H401. destruct (Nat.lt_ge_cases k (calls w1)) as [Hlt|Hge].
  - exfalso. destruct (H1 k) as (_ & (e & _ & Heq) & _); auto; try lia.
    discriminate.
  - apply (signedOut_frame w w1); auto. apply H2; [lia|].
    rewrite (answers401_frame w w1); auto.
Qed.

(** Going on after a step that threw something other than a 401. *)
Lemma okAt_after_throw {T U} (w w1 w2 : World) (e : Err) (r : Outcome Err U) :
  okAt (T := T) w (Thrown e) w1 -> isUnauthorized e = false ->
  okAt w1 r w2 -> okAt w r w2.
Proof.
  intros (Hax1 & Hmw1 & Hc1 & H1) Hne (Hax2 & Hmw2 & Hc2 & H2).
  okAt_intro; try congruence; try lia.
  intros k Hk H401. destruct (Nat.lt_ge_cases k (calls w1)) as [Hlt|Hge].
  - exfalso. assert (Hs : signedOut (T := T) w k (Thrown e) w1)
      by (apply H1; [lia | exact H401]).
    apply (signedOut_unauthorized _ _ _ _ H401) in Hs. congruence.
  - apply (signedOut_frame w w1); auto. apply H2; [lia|].
    rewrite (answers401_frame w w1); auto.
Qed.

Lemma okAt_retype_thrown {T U} (w w1 : World) (e : Err) :
  okAt (T := T) w (Thrown e) w1 -> okAt (T := U) w (Thrown e) w1.
Proof.
  intros (Hax & Hmw & Hc & H1). okAt_intro; auto.
  intros k Hk H401. apply (signedOut_thrown (T := T)). auto.
Qed.

Lemma okAt_retype_returned {T U} (w w1 : World) (a : T) (b : U) :
  okAt w (Returned a) w1 -> okAt w (Returned b) w1.
Proof.
  intros (Hax & Hmw & Hc & H1). okAt_intro; auto.
  intros k Hk H401. apply (signedOut_returned w k a). auto.
Qed.

(** A step that makes no axios call. *)
Lemma okAt_silent {T} (w w' : World) (r : Outcome Err T) :
  axios w' = axios w -> mainWindow w' = mainWindow w -> calls w' = calls w ->
  okAt w r w'.
Proof.
  intros Hax Hmw Hc. okAt_intro; auto; try lia.
Qed.

Lemma settles_bind {T U} (c : M World Err T) (k : T -> M World Err U) :
  settlesOn401 c -> (forall a, settlesOn401 (k a)) -> settlesOn401 (bind c k).
Proof.
  intros Hc Hk w r w'. unfold bind.
  destruct (c w) as [[a|e] w1] eqn:Hrun; intros Heq.
  - apply (okAt_after_return w w1 w' a); [apply Hc; exact Hrun|].
    apply (Hk a). exact Heq.
  - inversion Heq; subst. apply (okAt_retype_thrown (T := T)).
    apply Hc. exact Hrun.
Qed.

Lemma settles_silent {T} (c : M World Err T) :
  (forall w, axios (c w).2 = axios w /\ mainWindow (c w).2 = mainWindow w
             /\ calls (c w).2 = calls w) ->
  settlesOn401 c.
Proof.
  intros Hs w r w' Heq. destruct (Hs w) as (H1 & H2 & H3).
  rewrite Heq in H1, H2, H3. simpl in *. apply okAt_silent; auto.
Qed.

Lemma settles_ret {T} (a : T) : settlesOn401 (ret a).
Proof. apply settles_silent. intros w. simpl. auto. Qed.

Lemma settles_throw {T} (e : Err) : settlesOn401 (throw (A := T) e).
Proof. apply settles_silent. intros w. simpl. auto. Qed.

Lemma settles_gets {T} (f : World -> T) : settlesOn401 (gets f).
Proof. apply settles_silent. intros w. simpl. auto. Qed.

Lemma settles_logger l text : settlesOn401 (logger l text).
Proof. apply settles_silent. intros w. simpl. auto. Qed.

Lemma settles_delay ms : settlesOn401 (delay ms).
Proof. apply settles_silent. intros w. simpl. auto. Qed.

Create HintDb settles.

#[local] Hint Resolve settles_ret settles_throw settles_gets settles_logger
  settles_delay : settles.

(** The 401 transition itself. *)
Lemma handleUnauthorizedError_signs_out {T} (e : Err) (w : World) :
  isUnauthorized e = true ->
  exists w',
    handleUnauthorizedError (T := T) e w = (Thrown e, w')
    /\ axios w' = axios w /\ mainWindow w' = mainWindow w
    /\ calls w' = calls w /\ now w' = now w
    /\ userAuth w' = emptyUserAuth
    /\ db w' = base.delete levelKeys_user (base.delete levelKeys_auth (db w))
    /\ trace w'
       = (if mainWindow w then [Sent "on-signout"] else [])
         ++ Logged Error "401 - Current credentials:" :: trace w.
Proof.
  intros H401. unfold handleUnauthorizedError. rewrite H401.
  unfold sendSignOutEvent. step.
  destruct (mainWindow w) eqn:Hmw; simpl; eexists;
    (split; [reflexivity|]); simpl; rewrite ?Hmw; auto 10.
Qed.

Lemma deleted_auth (d : gmap string Stored) :
  base.delete levelKeys_user (base.delete levelKeys_auth d) !! levelKeys_auth
  = None.
Proof.
  rewrite lookup_delete_ne by discriminate. apply lookup_delete_eq.
Qed.

Lemma deleted_user (d : gmap string Stored) :
  base.delete levelKeys_user (base.delete levelKeys_auth d) !! levelKeys_user
  = None.
Proof. apply lookup_delete_eq. Qed.

(** An axios call followed by [.catch(handleUnauthorizedError)]. *)
Lemma caught_request {T} (c : M World Err T) (w : World) :
  (forall r w1, c w = (r, w1) ->
     axios w1 = axios w /\ mainWindow w1 = mainWindow w
     /\ calls w1 = S (calls w)
     /\ match r with
        | Returned _ => exists resp, axios w (calls w) = Resolved resp
        | Thrown e => axios w (calls w) = Rejected e
        end) ->
  forall r w', tryCatch c handleUnauthorizedError w = (r, w') -> okAt w r w'.
Proof.
  intros Hc r w'. unfold tryCatch.
  destruct (c w) as [[a|e] w1] eqn:Hrun;
    destruct (Hc _ _ eq_refl) as (Hax & Hmw & Hcalls & Hrej); intros Heq.
  - inversion Heq; subst. okAt_intro; auto; try lia.
    intros k Hk H401. exfalso. assert (k = calls w) by lia. subst k.
    unfold answers401 in H401. destruct Hrej as (resp & Hres).
    rewrite Hres in H401. discriminate.
  - destruct (isUnauthorized e) eqn:H401e.
    + destruct (handleUnauthorizedError_signs_out (T := T) e w1 H401e)
        as (w2 & Hrun2 & Hax2 & Hmw2 & Hcalls2 & _ & Hua & Hdb & Htr).
      rewrite Hrun2 in Heq. inversion Heq; subst.
      okAt_intro; try congruence; try lia.
      intros k Hk _. assert (k = calls w) by lia. subst k.
      unfold signedOut. rewrite Hdb, deleted_auth, deleted_user, Htr, Hmw.
      repeat split; try congruence; eauto.
    + rewrite handleUnauthorizedError_other in Heq by exact H401e.
      inversion Heq; subst. okAt_intro; auto; try lia.
      intros k Hk H401. exfalso. assert (k = calls w) by lia. subst k.
      unfold answers401 in H401. rewrite Hrej in H401. congruence.
Qed.

Lemma settles_guarded m url body bearer :
  settlesOn401 (guarded m url body bearer).
Proof.
  intros w r w'. unfold guarded. apply caught_request.
  intros r1 w1. unfold request. step.
  destruct (axios w (calls w)) as [resp|e] eqn:Hax; simpl;
    intros Heq; inversion Heq; subst; simpl; eauto 6.
Qed.

Lemma settles_revalidate : settlesOn401 revalidateAccessTokenIfExpired.
Proof.
  intros w r w'. unfold revalidateAccessTokenIfExpired.
  destruct (UserAuth.expirationTimestamp (userAuth w) <? now w).
  - apply caught_request.
    intros r1 w1. unfold refreshToken, request. step.
    destruct (axios w (calls w)) as [resp|e] eqn:Hax; simpl;
      intros Heq; inversion Heq; subst; simpl; eauto 6.
  - intros Heq. inversion Heq; subst. apply okAt_silent; reflexivity.
Qed.

#[local] Hint Resolve settles_guarded settles_revalidate : settles.

Lemma settles_validateOptions options : settlesOn401 (validateOptions options).
Proof.
  unfold validateOptions, isLoggedIn, hasActiveSubscription.
  apply settles_bind.
  - destruct (default true (options ≫= needsAuth)); auto with settles.
    apply settles_bind; auto with settles.
    intros loggedIn. destruct (negb loggedIn); auto with settles.
  - intros _.
    destruct (default false (options ≫= needsSubscription));
      auto with settles.
    apply settles_bind; auto with settles.
    intros active. destruct (negb active); auto with settles.
Qed.

Lemma settles_surface {T} (lastError : option Err) :
  settlesOn401 (surface (T := T) lastError).
Proof.
  unfold surface, codeIs.
  destruct lastError as [e|]; [|apply settles_bind; auto with settles].
  destruct e as [| |c [resp|] m| | | | |];
    repeat match goal with
           | |- context [if ?b then _ else _] => destruct b
           end;
    apply settles_bind; auto with settles.
Qed.

(** The retry loop gives up at once on a 401. *)
Lemma settles_retryLoop {T} (requestFn : M World Err T) (n d : Z) :
  settlesOn401 requestFn ->
  forall attempts lastError,
    settlesOn401 (retryLoop requestFn n d attempts lastError).
Proof.
  intros Hf attempts.
  induction attempts as [|attempt later IH]; intros lastError; simpl.
  - auto with settles.
  - intros w r w'.
    destruct (requestFn w) as [[v|error] w1] eqn:Hrun;
      pose proof (Hf _ _ _ Hrun) as Hstep.
    + intros Heq. inversion Heq; subst.
      apply (okAt_retype_returned w w' v). exact Hstep.
    + destruct (isAuthError error);
        [intros Heq; inversion Heq; subst;
         apply (okAt_retype_thrown (T := T)); exact Hstep|].
      destruct (isUnauthorized error) eqn:H401;
        [intros Heq; inversion Heq; subst;
         apply (okAt_retype_thrown (T := T)); exact Hstep|].
      destruct (isRetryableError error && (attempt <? n)); intros Heq.
      * apply (okAt_after_throw (T := T) w w1 w' error); auto.
        revert Heq. apply settles_bind; auto with settles.
        intros _. apply settles_bind; auto with settles.
      * inversion Heq; subst.
        apply (okAt_after_throw (T := T) w w' w' error); auto.
        apply okAt_silent; reflexivity.
Qed.

Lemma settles_retryRequest {T} (requestFn : M World Err T) attempts d :
  settlesOn401 requestFn -> settlesOn401 (retryRequest requestFn attempts d).
Proof.
  intros Hf. unfold retryRequest. apply settles_bind.
  - apply settles_retryLoop. exact Hf.
  - intros [v|lastError]; auto using settles_surface with settles.
Qed.

Lemma settles_perform op options : settlesOn401 (perform op options).
Proof.
  destruct op; simpl;
    unfold get, post, put, patch, delete, getAxiosConfig;
    (apply settles_bind; [apply settles_validateOptions|intros _]).
  - apply settles_bind; auto with settles.
    intros headers. apply settles_retryRequest. auto with settles.
  - apply settles_retryRequest. apply settles_bind; auto with settles.
  - apply settles_bind; auto with settles.
  - apply settles_bind; auto with settles.
  - apply settles_bind; auto with settles.
Qed.

(** X29.  Whichever of the five operations is called: if one of the
    calls it makes on the axios instance is rejected with a 401 error
    (which is what the interceptors pass on when the request body is
    absent or JSON text), that call is its last (no further attempt),
    the 401 error itself is thrown to the caller, the session is the
    empty one, the persisted auth and user records are deleted, and the
    sign-out notification is sent to the main window as the last event
    of the call. *)
Theorem unauthorized_ends_the_call :
  forall (op : Operation) (options : option HydraApiOptions)
         (w w' : World) (r : Outcome Err Data.t) (k : nat),
    perform op options w = (r, w') ->
    (calls w <= k < calls w')%nat ->
    answers401 w k = true ->
    calls w' = S k
    /\ (exists e, axios w k = Rejected e /\ r = Thrown e)
    /\ userAuth w' = emptyUserAuth
    /\ db w' !! levelKeys_auth = None
    /\ db w' !! levelKeys_user = None
    /\ exists earlier,
         trace w'
         = (if mainWindow w then [Sent "on-signout"] else [])
           ++ Logged Error "401 - Current credentials:" :: earlier.
Proof.
  intros op options w w' r k Hrun Hk H401.
  destruct (settles_perform op options w r w' Hrun) as (_ & _ & _ & Hall).
  exact (Hall k Hk H401).
Qed.

(** A failure that carries a response leaves the interceptor as it
    came when the request body is absent or JSON text. *)
Lemma interceptor_passes_responses_on
    (syntaxErrorMessage : string -> string) (error : RawError) (r : Response) :
  raw_response error = Some r ->
  match raw_data error with
  | None => true
  | Some text => isJSONText text
  end = true ->
  throughInterceptors syntaxErrorMessage (Failed error)
  = Rejected (asErr error).
Proof.
  intros Hresp Hdata. unfold throughInterceptors, responseErrorInterceptor,
    parseData.
  rewrite Hresp. destruct (raw_data error) as [text|];
    [rewrite Hdata|]; reflexivity.
Qed.

(** C3, at the failing input: [post('/games', 'not json')], answered
    with a 401.  The response interceptor parses the request body for
    its log before it looks at the response; the body is not JSON
    text, so what reaches [handleUnauthorizedError] is the
    [SyntaxError], not the 401.  The session is kept, both persisted
    records stay, no sign-out notification is sent, and the caller gets
    a [NetworkError]; [put] throws the [SyntaxError] itself. *)
Theorem unauthorized_answer_to_a_text_body_is_not_handled :
  forall syntaxErrorMessage : string -> string,
    let w :=
      signedInWorld
        (fun _ =>
           throughInterceptors syntaxErrorMessage (Failed unauthorizedAnswer))
    in
    (status <$> raw_response unauthorizedAnswer) = Some 401
    /\ raw_data unauthorizedAnswer = Some "not json"
    /\ isJSONText "not json" = false
    /\ (exists w',
          perform (Post "/games" (Some "not json")) None w
          = (Thrown
               (NetworkError
                  ("Request failed: " +:+ syntaxErrorMessage "not json")
                  (SyntaxError (syntaxErrorMessage "not json"))),
             w')
          /\ calls w' = 1%nat
          /\ userAuth w' = userAuth w
          /\ db w' = db w
          /\ sentOf (trace w') = [])
    /\ exists w',
         perform (Put "/games" (Some "not json")) None w
         = (Thrown (SyntaxError (syntaxErrorMessage "not json")), w')
         /\ calls w' = 1%nat
         /\ userAuth w' = userAuth w
         /\ db w' = db w
         /\ sentOf (trace w') = [].
Proof.
  intros syntaxErrorMessage w. subst w.
  split; [reflexivity|]. split; [reflexivity|].
  split; [vm_compute; reflexivity|].
  split.
  - eexists. split; [vm_compute; reflexivity|].
    repeat split.
  - eexists. split; [vm_compute; reflexivity|].
    repeat split.
Qed.


(** ** Session transitions *)

Lemma keeps_bind {T U} (c : M World Err T) (k : T -> M World Err U) :
  keepsSignedOut c -> (forall a, keepsSignedOut (k a)) ->
  keepsSignedOut (bind c k).
Proof.
  intros Hc Hk w r w' Hw. unfold bind.
  destruct (c w) as [[a|e] w1] eqn:Hrun; intros Heq.
  - eapply Hk; [|exact Heq]. eapply Hc; eauto.
  - inversion Heq; subst. eapply Hc; eauto.
Qed.

Lemma keeps_same {T} (c : M World Err T) :
  (forall w, userAuth (c w).2 = userAuth w) -> keepsSignedOut c.
Proof.
  intros Hs w r w' Hw Heq. specialize (Hs w). rewrite Heq in Hs.
  simpl in Hs. congruence.
Qed.

Lemma keeps_guarded m url body bearer :
  keepsSignedOut (guarded m url body bearer).
Proof.
  intros w r w' Hw. unfold guarded, tryCatch, request. step.
  destruct (axios w (calls w)) as [resp|e]; simpl.
  - intros Heq. inversion Heq; subst. exact Hw.
  - unfold handleUnauthorizedError, sendSignOutEvent.
    destruct (isUnauthorized e); step.
    + destruct (mainWindow w); intros Heq; inversion Heq; reflexivity.
    + intros Heq. inversion Heq; subst. exact Hw.
Qed.

Lemma keeps_surface {T} (lastError : option Err) :
  keepsSignedOut (surface (T := T) lastError).
Proof.
  apply keeps_same. intros w. unfold surface, codeIs.
  destruct lastError as [e|]; [|reflexivity].
  destruct e as [| |c [resp|] m| | | | |]; step;
    repeat match goal with
           | |- context [if ?b then _ else _] => destruct b; step
           end; reflexivity.
Qed.

Lemma keeps_retryLoop {T} (requestFn : M World Err T) (n d : Z) :
  keepsSignedOut requestFn ->
  forall attempts lastError,
    keepsSignedOut (retryLoop requestFn n d attempts lastError).
Proof.
  intros Hf attempts.
  induction attempts as [|attempt later IH]; intros lastError w r w' Hw;
    simpl.
  - intros Heq. inversion Heq; subst. exact Hw.
  - destruct (requestFn w) as [[v|error] w1] eqn:Hrun;
      pose proof (Hf _ _ _ Hw Hrun) as Hw1.
    + intros Heq. inversion Heq; subst. exact Hw1.
    + destruct (isAuthError error);
        [intros Heq; inversion Heq; subst; exact Hw1|].
      destruct (isUnauthorized error);
        [intros Heq; inversion Heq; subst; exact Hw1|].
      destruct (isRetryableError error && (attempt <? n)).
      * step. apply IH. exact Hw1.
      * intros Heq. inversion Heq; subst. exact Hw1.
Qed.

Lemma keeps_retryRequest {T} (requestFn : M World Err T) attempts d :
  keepsSignedOut requestFn -> keepsSignedOut (retryRequest requestFn attempts d).
Proof.
  intros Hf. unfold retryRequest. apply keeps_bind.
  - apply keeps_retryLoop. exact Hf.
  - intros [v|lastError];
      [apply keeps_same; intros ?; reflexivity | apply keeps_surface].
Qed.

Lemma handleSignOut_empties (w : World) :
  userAuth (handleSignOut w).2 = emptyUserAuth.
Proof.
  unfold handleSignOut, tryCatch. step.
  set (w1 := with_userAuth emptyUserAuth w).
  assert (Hpost : keepsSignedOut
                    (post "/auth/logout" (Some "{}")
                       (Some {| needsAuth := Some false;
                                needsSubscription := None;
                                ifModifiedSince := None;
                                retryAttempts := None;
                                retryDelay := None |}))).
  { unfold post. apply keeps_bind.
    - unfold validateOptions, hasActiveSubscription. simpl.
      repeat (apply keeps_bind; [|intros ?]);
        apply keeps_same; intros ?; reflexivity.
    - intros _. apply keeps_retryRequest. unfold getAxiosConfig.
      apply keeps_bind; [apply keeps_same; intros ?; reflexivity|].
      intros config. apply keeps_guarded. }
  destruct (post _ _ _ w1) as [[v|e] w2] eqn:Hrun; simpl;
    (eapply Hpost; [|exact Hrun]); reflexivity.
Qed.


(** The claim of C4, that no transition leaves the session in a mixed
    state, fails for the two transitions that copy what they are given:
    a sign-in payload with an empty refresh token, and a refresh answered
    with success while nobody is signed in (the state a sign-out leaves
    behind). *)
Lemma session_can_end_mixed :
  allOrNothing
    (userAuth
       (handleExternalAuth (Payload.mk "access" 3600 "")
          (signedOutWorld (fun _ => ok200 "" 0))).2) = false
  /\ allOrNothing
       (userAuth
          (refreshToken (signedOutWorld (fun _ => ok200 "fresh" 3600))).2)
     = false.
Proof. split; vm_compute; reflexivity. Qed.

(** C4 (amended).  Sign-out and the forced unauthorized reset leave the
    three fields empty.  Sign-in stores the two tokens of the payload and
    [now + expiresIn * 1000 - 300000]; a refresh that succeeds
    overwrites the access token and the expiry and keeps the stored
    refresh token, and one that fails changes nothing.  So these two
    leave the fields jointly populated when the tokens involved are not
    empty and the computed expiry is not zero. *)
Theorem session_after_transitions :
  forall (w : World),
    userAuth (handleSignOut w).2 = emptyUserAuth
    /\ (forall e,
           isUnauthorized e = true ->
           userAuth (handleUnauthorizedError (T := unit) e w).2
           = emptyUserAuth)
    /\ (forall p,
           let u := userAuth (handleExternalAuth p w).2 in
           let expiry :=
             now w + secondsToMilliseconds (Payload.expiresIn p)
             - EXPIRATION_OFFSET_IN_MS in
           UserAuth.authToken u = Payload.accessToken p
           /\ UserAuth.refreshToken u = Payload.refreshToken p
           /\ UserAuth.expirationTimestamp u = expiry
           /\ (Payload.accessToken p <> "" ->
               Payload.refreshToken p <> "" -> expiry <> 0 ->
               jointlyPopulated u = true))
    /\ (forall resp,
           axios w (calls w) = Resolved resp ->
           let u := userAuth (refreshToken w).2 in
           let expiry :=
             now w + secondsToMilliseconds (Data.expiresIn (data resp))
             - EXPIRATION_OFFSET_IN_MS in
           UserAuth.authToken u = Data.accessToken (data resp)
           /\ UserAuth.refreshToken u = UserAuth.refreshToken (userAuth w)
           /\ UserAuth.expirationTimestamp u = expiry
           /\ (Data.accessToken (data resp) <> "" ->
               UserAuth.refreshToken (userAuth w) <> "" -> expiry <> 0 ->
               jointlyPopulated u = true))
    /\ (forall e,
           axios w (calls w) = Rejected e ->
           userAuth (refreshToken w).2 = userAuth w).
Proof.
  intros w.
  assert (Hpop : forall u,
             UserAuth.authToken u <> "" -> UserAuth.refreshToken u <> "" ->
             UserAuth.expirationTimestamp u <> 0 ->
             jointlyPopulated u = true).
  { intros u Ha Hr He. unfold jointlyPopulated.
    apply String.eqb_neq in Ha, Hr. apply Z.eqb_neq in He.
    rewrite Ha, Hr, He. reflexivity. }
  split; [apply handleSignOut_empties|].
  split.
  { intros e H401.
    destruct (handleUnauthorizedError_signs_out (T := unit) e w H401)
      as (w' & -> & _ & _ & _ & _ & Hua & _). exact Hua. }
  split.
  { intros p u expiry.
    assert (Hu : UserAuth.authToken u = Payload.accessToken p
                 /\ UserAuth.refreshToken u = Payload.refreshToken p
                 /\ UserAuth.expirationTimestamp u = expiry).
    { subst u expiry. unfold handleExternalAuth. step.
      destruct (userData w ≫= details_subscription); step;
        destruct (mainWindow w); simpl; auto. }
    destruct Hu as (Ha & Hr & He). repeat split; auto.
    intros. apply Hpop; congruence. }
  split.
  { intros resp Hax u expiry.
    assert (Hu : UserAuth.authToken u = Data.accessToken (data resp)
                 /\ UserAuth.refreshToken u
                    = UserAuth.refreshToken (userAuth w)
                 /\ UserAuth.expirationTimestamp u = expiry).
    { subst u expiry. unfold refreshToken, request. step.
      rewrite Hax. simpl. auto. }
    destruct Hu as (Ha & Hr & He). repeat split; auto.
    intros. apply Hpop; congruence. }
  intros e Hax. unfold refreshToken, request. step. rewrite Hax.
  reflexivity.
Qed.


(** ** Which operations retry *)

Lemma guarded_calls_once m url body bearer (w : World) :
  calls (guarded m url body bearer w).2 = S (calls w)
  /\ delaysOf (trace (guarded m url body bearer w).2) = delaysOf (trace w)
  /\ forall e, axios w (calls w) = Rejected e -> isUnauthorized e = false ->
               (guarded m url body bearer w).1 = Thrown e.
Proof.
  unfold guarded, tryCatch, request. step.
  destruct (axios w (calls w)) as [resp|e] eqn:Hax; simpl.
  - repeat split; auto. intros; discriminate.
  - unfold handleUnauthorizedError, sendSignOutEvent.
    destruct (isUnauthorized e) eqn:H401; step.
    + destruct (mainWindow w); simpl; repeat split; auto;
        intros e' He' Hne; inversion He'; subst; congruence.
    + repeat split; auto. intros e' He' _. congruence.
Qed.

(** [put], [patch] and [delete] make one axios call once the options are
    validated, and hand its rejection to the caller as it is. *)
Lemma unwrapped_operations_call_once (op : Operation)
    (options : option HydraApiOptions) (w w1 : World) :
  match op with Get _ _ | Post _ _ => False | _ => True end ->
  validateOptions options w = (Returned tt, w1) ->
  calls (perform op options w).2 = S (calls w1)
  /\ delaysOf (trace (perform op options w).2) = delaysOf (trace w1)
  /\ forall e, axios w1 (calls w1) = Rejected e -> isUnauthorized e = false ->
               (perform op options w).1 = Thrown e.
Proof.
  intros Hop Hv.
  destruct op as [| |url body|url body|url]; try contradiction.
  - replace (perform (Put url body) options w)
      with (guarded PUT url body (Some (UserAuth.authToken (userAuth w1))) w1)
      by (simpl; unfold put, getAxiosConfig, bind; rewrite Hv; reflexivity).
    apply guarded_calls_once.
  - replace (perform (Patch url body) options w)
      with (guarded PATCH url body (Some (UserAuth.authToken (userAuth w1))) w1)
      by (simpl; unfold patch, getAxiosConfig, bind; rewrite Hv; reflexivity).
    apply guarded_calls_once.
  - replace (perform (Delete url) options w)
      with (guarded DELETE url None (Some (UserAuth.authToken (userAuth w1))) w1)
      by (simpl; unfold delete, getAxiosConfig, bind; rewrite Hv; reflexivity).
    apply guarded_calls_once.
Qed.

(** C2, at the failing input: signed in, the server answers 503 once and
    then 200.  [get] and [post] wait one second and succeed on the second
    call; [put], [patch] and [delete] make one call, wait for nothing and
    reject with the 503. *)
Theorem put_patch_delete_are_not_retried :
  let w := signedInWorld flaky in
  let outcome (c : M World Err Data.t) :=
    ((c w).1, calls (c w).2, delaysOf (trace (c w).2)) in
  outcome (get "/games" None None) = (Returned (Data.mk "" 0 ""), 2%nat, [1000])
  /\ outcome (post "/games" (Some "{}") None)
     = (Returned (Data.mk "" 0 ""), 2%nat, [1000])
  /\ outcome (put "/games" (Some "{}") None) = (Thrown (failed 503), 1%nat, [])
  /\ outcome (patch "/games" (Some "{}") None)
     = (Thrown (failed 503), 1%nat, [])
  /\ outcome (delete "/games" None) = (Thrown (failed 503), 1%nat, []).
Proof. repeat split; vm_compute; reflexivity. Qed.

(** The defaults and the doubling, on [get]: four 503 answers in a row
    with no options use up 1 + 3 attempts after waiting 1 s, 2 s and
    4 s. *)
Lemma get_default_policy :
  let w' := (get "/games" None None (signedInWorld (fun _ => Rejected (failed 503)))).2 in
  calls w' = 4%nat /\ delaysOf (trace w') = [1000; 2000; 4000].
Proof. split; vm_compute; reflexivity. Qed.

(** ** The theorems at concrete inputs *)

Lemma retryRequest_invokes_n_plus_1_witness :
  0 <= 3
  /\ exists thrown w',
       retryRequest (spy (failing (T := Data.t) (failed 503))) (Some 3) None
         (signedInWorld flaky, O)
       = (Thrown thrown, (w', Z.to_nat (3 + 1)))
       /\ ((exists m, thrown = BackendUnavailableError m)
           \/ (exists m last,
                  thrown = NetworkError m last
                  /\ isRetryableError last = true)).
Proof.
  split; [lia|].
  apply (retryRequest_invokes_n_plus_1 World _ Data.t
           (failing (failed 503)) 3 None (signedInWorld flaky)); [lia|].
  intros w. exists (failed 503), w. split; reflexivity.
Defined.

Lemma handleUnauthorizedError_rethrows_other_errors_witness :
  isUnauthorized (failed 503) = false
  /\ handleUnauthorizedError (T := Data.t) (failed 503) (signedInWorld flaky)
     = (Thrown (failed 503), signedInWorld flaky).
Proof.
  split; [reflexivity|].
  apply (handleUnauthorizedError_rethrows_other_errors Data.t (failed 503)
           (signedInWorld flaky)).
  reflexivity.
Defined.

Lemma unauthorized_ends_the_call_witness :
  let w := signedInWorld (fun _ => Rejected (failed 401)) in
  let run := perform (Get "/profile/me" None) None w in
  calls run.2 = 1%nat
  /\ (exists e, axios w O = Rejected e /\ run.1 = Thrown e)
  /\ userAuth run.2 = emptyUserAuth
  /\ db run.2 !! levelKeys_auth = None
  /\ db run.2 !! levelKeys_user = None
  /\ exists earlier,
       trace run.2
       = (if mainWindow w then [Sent "on-signout"] else [])
         ++ Logged Error "401 - Current credentials:" :: earlier.
Proof.
  intros w run.
  apply (unauthorized_ends_the_call (Get "/profile/me" None) None w run.2
           run.1 O).
  - apply surjective_pairing.
  - vm_compute. lia.
  - reflexivity.
Defined.

Lemma session_after_transitions_witness :
  let w := signedInWorld (fun _ => ok200 "fresh" 3600) in
  jointlyPopulated (userAuth (refreshToken w).2) = true
  /\ userAuth (handleUnauthorizedError (T := unit) (failed 401) w).2
     = emptyUserAuth.
Proof.
  intros w.
  destruct (session_after_transitions w) as (_ & Hreset & _ & Hrefresh & _).
  split.
  - destruct (Hrefresh {| status := 200; data := Data.mk "fresh" 3600 "" |}
                eq_refl) as (_ & _ & _ & Hpop).
    apply Hpop; [discriminate | discriminate | vm_compute; discriminate].
  - apply Hreset. reflexivity.
Defined.

(* ---------------------------------------------------------------------- *)
(** ** Further properties of the API client *)

(** *** Validation of the options *)

Lemma validateOptions_signed_out options (w : World) :
  default true (options ≫= needsAuth) = true ->
  UserAuth.authToken (userAuth w) = "" ->
  validateOptions options w = (Thrown UserNotLoggedInError, w).
Proof.
  intros Hauth Hout. unfold validateOptions, isLoggedIn. rewrite Hauth.
  step. rewrite Hout. reflexivity.
Qed.

(** X1.  With [needsAuth] left out or true, each of the five operations,
    called while nobody is signed in, throws [UserNotLoggedInError]
    without making a request or touching anything. *)
Theorem signed_out_calls_are_refused :
  forall (op : Operation) (options : option HydraApiOptions) (w : World),
    default true (options ≫= needsAuth) = true ->
    UserAuth.authToken (userAuth w) = "" ->
    perform op options w = (Thrown UserNotLoggedInError, w).
Proof.
  intros op options w Hauth Hout.
  destruct op; simpl; unfold get, post, put, patch, delete, bind;
    rewrite (validateOptions_signed_out options w Hauth Hout); reflexivity.
Qed.

Lemma signed_out_calls_are_refused_witness :
  perform (Get "/profile/me" None) None (signedOutWorld flaky)
  = (Thrown UserNotLoggedInError, signedOutWorld flaky).
Proof.
  apply (signed_out_calls_are_refused (Get "/profile/me" None) None
           (signedOutWorld flaky)); reflexivity.
Defined.

(** X2.  With [needsSubscription: true], and the authentication check
    passing without a refresh (not needed, or signed in with a token
    that has not run out), each operation throws
    [SubscriptionRequiredError] without making a request when the
    subscription is missing, has [expiresAt: null], or has run out. *)
Theorem subscription_is_required :
  forall (op : Operation) (options : option HydraApiOptions) (w : World),
    options ≫= needsSubscription = Some true ->
    (default true (options ≫= needsAuth) = false
     \/ (UserAuth.authToken (userAuth w) <> ""
         /\ now w <= UserAuth.expirationTimestamp (userAuth w))) ->
    default 0 (UserAuth.subscription (userAuth w) ≫= expiresAt) <= now w ->
    perform op options w = (Thrown SubscriptionRequiredError, w).
Proof.
  intros op options w Hsub Hauth Hexp.
  assert (Hv : validateOptions options w = (Thrown SubscriptionRequiredError, w)).
  { unfold validateOptions, isLoggedIn, hasActiveSubscription,
      revalidateAccessTokenIfExpired.
    rewrite Hsub. simpl default at 2.
    assert (Hinactive :
              (now w <? default 0 (UserAuth.subscription (userAuth w) ≫= expiresAt))
              = false) by lia.
    destruct (default true (options ≫= needsAuth)) eqn:Hna; step.
    - destruct Hauth as [? | [Hin Hfresh]]; [discriminate|].
      apply String.eqb_neq in Hin. rewrite Hin. simpl.
      replace (UserAuth.expirationTimestamp (userAuth w) <? now w)
        with false by (symmetry; lia).
      rewrite Hinactive. reflexivity.
    - rewrite Hinactive. reflexivity. }
  destruct op; simpl; unfold get, post, put, patch, delete, bind;
    rewrite Hv; reflexivity.
Qed.

Lemma subscription_is_required_witness :
  let options :=
    Some {| needsAuth := None; needsSubscription := Some true;
            ifModifiedSince := None; retryAttempts := None;
            retryDelay := None |} in
  perform (Put "/profile/games/1/pin" None) options (signedInWorld flaky)
  = (Thrown SubscriptionRequiredError, signedInWorld flaky).
Proof.
  intros options.
  apply (subscription_is_required (Put "/profile/games/1/pin" None) options
           (signedInWorld flaky)).
  - reflexivity.
  - right. split; [discriminate | vm_compute; discriminate].
  - vm_compute. discriminate.
Defined.

(** *** The retry engine at its edges *)

(** X4.  A negative [retryAttempts] makes [retryRequest] throw a
    [TypeError] without invoking the request function at all and
    without waiting; the one thing done before the throw is the error
    log of line 123, written with [undefined] for the error. *)
Theorem negative_retryAttempts_never_invokes :
  forall (W : Type) (R : Runtime W) (T : Type) (requestFn : M W Err T)
         (n : Z) (retryDelay : option Z) (w : W),
    n < 0 ->
    retryRequest (spy requestFn) (Some n) retryDelay (w, O)
    = (Thrown
         (TypeError "Cannot read properties of undefined (reading 'message')"),
       (rt_log Error "Request failed after all retry attempts: undefined" w,
        O)).
Proof.
  intros W R T requestFn n retryDelay w Hn. unfold retryRequest.
  simpl default. rewrite zrange_nil by lia. reflexivity.
Qed.

Lemma negative_retryAttempts_never_invokes_witness :
  retryRequest (spy (failing (T := Data.t) (failed 503))) (Some (-1)) None
    (signedInWorld flaky, O)
  = (Thrown
       (TypeError "Cannot read properties of undefined (reading 'message')"),
     (rt_log Error "Request failed after all retry attempts: undefined"
        (signedInWorld flaky),
      O)).
Proof.
  apply (negative_retryAttempts_never_invokes World _ Data.t
           (failing (failed 503)) (-1) None (signedInWorld flaky)).
  lia.
Defined.

(** One failure that is not to be retried ends the loop. *)
Lemma retryRequest_gives_up_at_once {W} `{Runtime W} {T}
    (requestFn : M W Err T) (e : Err) (n : Z) (d : option Z) (w w1 : W) :
  0 <= n ->
  requestFn w = (Thrown e, w1) ->
  isRetryableError e = false ->
  retryRequest requestFn (Some n) d w
  = if isAuthError e || isUnauthorized e then (Thrown e, w1)
    else surface (Some e) w1.
Proof.
  intros Hn Hrun Hnr. unfold retryRequest. simpl default.
  rewrite zrange_cons by lia. unfold bind. simpl. rewrite Hrun, Hnr.
  destruct (isAuthError e); [reflexivity|].
  destruct (isUnauthorized e); reflexivity.
Qed.

(** X5.  An operation that fails with an error that is not retryable is
    invoked exactly once, whatever [retryAttempts >= 0] is: the two
    authentication errors and a 401 are thrown as they are, anything
    else is thrown wrapped in a [NetworkError] (or as a
    [BackendUnavailableError]). *)
Theorem non_retryable_failure_is_tried_once :
  forall (W : Type) (R : Runtime W) (T : Type) (requestFn : M W Err T)
         (e : Err) (n : Z) (retryDelay : option Z) (w : W),
    0 <= n ->
    (forall w, exists w', requestFn w = (Thrown e, w')) ->
    isRetryableError e = false ->
    exists thrown w',
      retryRequest (spy requestFn) (Some n) retryDelay (w, O)
      = (Thrown thrown, (w', 1%nat))
      /\ (isAuthError e || isUnauthorized e = true -> thrown = e)
      /\ (isAuthError e || isUnauthorized e = false ->
          (exists m, thrown = NetworkError m e)
          \/ (exists m, thrown = BackendUnavailableError m)).
Proof.
  intros W R T requestFn e n retryDelay w Hn Hf Hnr.
  destruct (Hf w) as (w1 & Hrun).
  rewrite (retryRequest_gives_up_at_once (spy requestFn) e n retryDelay
             (w, O) (w1, 1%nat) Hn)
    by (auto; unfold spy; rewrite Hrun; reflexivity).
  destruct (isAuthError e || isUnauthorized e) eqn:Hkind.
  - exists e, w1. repeat split; auto. discriminate.
  - destruct (surface_throws (T := T) e (w1, 1%nat))
      as (e' & [w2 c2] & Hs & Hshape).
    assert (Hcount : c2 = 1%nat).
    { revert Hs. unfold surface.
      destruct e as [| |c [r|] m| | | | |]; step;
        repeat match goal with
               | |- context [if ?b then _ else _] => destruct b; step
               end; intros Heq; inversion Heq; reflexivity. }
    subst c2. exists e', w2. rewrite Hs. repeat split; auto.
    + discriminate.
    + intros _. destruct Hshape as [Hb | Hn']; auto.
Qed.

Lemma non_retryable_failure_is_tried_once_witness :
  exists thrown w',
    retryRequest (spy (failing (T := Data.t) (failed 404))) (Some 3) None
      (signedInWorld flaky, O)
    = (Thrown thrown, (w', 1%nat))
    /\ (isAuthError (failed 404) || isUnauthorized (failed 404) = true ->
        thrown = failed 404)
    /\ (isAuthError (failed 404) || isUnauthorized (failed 404) = false ->
        (exists m, thrown = NetworkError m (failed 404))
        \/ (exists m, thrown = BackendUnavailableError m)).
Proof.
  apply (non_retryable_failure_is_tried_once World _ Data.t
           (failing (failed 404)) (failed 404) 3 None (signedInWorld flaky)).
  - lia.
  - intros w. exists w. reflexivity.
  - reflexivity.
Defined.

(** *** The response interceptor *)

(** X11.  A failure with a request but no response, which
    [isRetryableError] would retry as it stands, leaves the interceptor
    as a plain [Error] without a code, or, when the request body is not
    JSON text, as the [SyntaxError] of the interceptor's own
    [JSON.parse]; [retryRequest] retries neither: the call is made once
    and a [NetworkError] wrapping that error is thrown. *)
Theorem intercepted_connection_failure_is_not_retried :
  forall (syntaxErrorMessage : string -> string) (error : RawError) (n : Z)
         (retryDelay : option Z) (w : World),
    raw_response error = None ->
    raw_request error = true ->
    0 <= n ->
    let plain :=
      PlainError None
        ("Request failed with " +:+ default "undefined" (raw_code error)
         +:+ " " +:+ raw_message error) in
    let e :=
      match raw_data error with
      | None => plain
      | Some text =>
          if isJSONText text then plain
          else SyntaxError (syntaxErrorMessage text)
      end in
    isRetryableError (asErr error) = true
    /\ (exists w',
          responseErrorInterceptor (T := Data.t) syntaxErrorMessage error w
          = (Thrown e, w'))
    /\ exists w',
         retryRequest
           (spy (responseErrorInterceptor (T := Data.t) syntaxErrorMessage
                   error))
           (Some n) retryDelay (w, O)
         = (Thrown (NetworkError ("Request failed: " +:+ errMessage e) e),
            (w', 1%nat)).
Proof.
  intros syntaxErrorMessage error n retryDelay w Hresp Hreq Hn plain e.
  assert (Hrun : forall w0, exists w',
             responseErrorInterceptor (T := Data.t) syntaxErrorMessage error
               w0
             = (Thrown e, w')).
  { intros w0. subst e plain.
    unfold responseErrorInterceptor, parseData. rewrite Hresp, Hreq.
    destruct (raw_data error) as [text|]; [destruct (isJSONText text)|];
      step; eauto. }
  assert (Hkind : isRetryableError e = false
                  /\ isAuthError e || isUnauthorized e = false
                  /\ forall w1 : World * nat,
                       surface (T := Data.t) (Some e) w1
                       = (Thrown
                            (NetworkError
                               ("Request failed: " +:+ errMessage e) e),
                          rt_log Error
                            ("Request failed after all retry attempts: "
                             +:+ errMessage e) w1)).
  { subst e plain.
    destruct (raw_data error) as [text|]; [destruct (isJSONText text)|];
      repeat split. }
  destruct Hkind as (Hnr & Hna & Hsurface).
  split; [unfold asErr; rewrite Hresp; reflexivity|].
  split; [apply Hrun|].
  destruct (Hrun w) as (w1 & Hw1).
  rewrite (retryRequest_gives_up_at_once
             (spy (responseErrorInterceptor (T := Data.t) syntaxErrorMessage
                     error))
             e n retryDelay (w, O) (w1, 1%nat) Hn)
    by (auto; unfold spy; rewrite Hw1; reflexivity).
  rewrite Hna, Hsurface. simpl. eauto.
Qed.

Lemma intercepted_connection_failure_is_not_retried_witness :
  exists w',
    retryRequest
      (spy (responseErrorInterceptor (T := Data.t) (fun text => text)
              connectionRefused))
      (Some 3) None (signedInWorld flaky, O)
    = (Thrown
         (NetworkError
            "Request failed: Request failed with ECONNREFUSED connect ECONNREFUSED 127.0.0.1:443"
            (PlainError None
               "Request failed with ECONNREFUSED connect ECONNREFUSED 127.0.0.1:443")),
       (w', 1%nat)).
Proof.
  destruct (intercepted_connection_failure_is_not_retried (fun text => text)
              connectionRefused 3 None (signedInWorld flaky) eq_refl eq_refl)
    as (_ & _ & Honce); [lia|].
  exact Honce.
Defined.

(** *** Persisting the session and bringing it back *)

Lemma setupApi_tokens sOf (w : World) :
  tokens (userAuth (setupApi sOf w).2)
  = match db w !! levelKeys_auth with
    | Some (StoredAuth a) =>
        (Auth.accessToken a, default "" (Auth.refreshToken a),
         Auth.tokenExpirationTimestamp a)
    | _ => ("", "", 0)
    end.
Proof.
  unfold setupApi. step.
  destruct (db w !! levelKeys_auth) as [[a|u]|]; reflexivity.
Qed.

Lemma handleExternalAuth_persists p (w : World) :
  db (handleExternalAuth p w).2
  = <[levelKeys_auth :=
        StoredAuth
          (Auth.mk (Payload.accessToken p) (Some (Payload.refreshToken p))
             (now w + secondsToMilliseconds (Payload.expiresIn p)
              - EXPIRATION_OFFSET_IN_MS))]> (db w)
  /\ tokens (userAuth (handleExternalAuth p w).2)
     = (Payload.accessToken p, Payload.refreshToken p,
        now w + secondsToMilliseconds (Payload.expiresIn p)
        - EXPIRATION_OFFSET_IN_MS).
Proof.
  unfold handleExternalAuth. step.
  destruct (userData w ≫= details_subscription); step;
    destruct (mainWindow w); simpl; auto.
Qed.

(** X9.  What [setupApi] reads back at the next start is the session as
    it was left: after a sign-in; after a refresh that succeeded, when
    the stored record carried the refresh token of the session; after
    the reset on a 401, and whenever there is no stored record, the
    empty tokens. *)
Theorem restart_restores_the_session :
  forall (w : World) (subscriptionOf : string -> option Subscription),
    (forall p w2,
        db w2 = db (handleExternalAuth p w).2 ->
        tokens (userAuth (setupApi subscriptionOf w2).2)
        = tokens (userAuth (handleExternalAuth p w).2))
    /\ (forall resp a w2,
           axios w (calls w) = Resolved resp ->
           db w !! levelKeys_auth = Some (StoredAuth a) ->
           Auth.refreshToken a = Some (UserAuth.refreshToken (userAuth w)) ->
           db w2 = db (refreshToken w).2 ->
           tokens (userAuth (setupApi subscriptionOf w2).2)
           = tokens (userAuth (refreshToken w).2))
    /\ (forall e w2,
           isUnauthorized e = true ->
           db w2 = db (handleUnauthorizedError (T := unit) e w).2 ->
           tokens (userAuth (setupApi subscriptionOf w2).2) = ("", "", 0))
    /\ (forall w2,
           db w2 !! levelKeys_auth = None ->
           tokens (userAuth (setupApi subscriptionOf w2).2) = ("", "", 0)).
Proof.
  intros w sOf. repeat split.
  - intros p w2 Hdb. rewrite setupApi_tokens, Hdb.
    destruct (handleExternalAuth_persists p w) as (-> & ->).
    rewrite lookup_insert_eq. reflexivity.
  - intros resp a w2 Hax Hstored Hrt Hdb. rewrite setupApi_tokens, Hdb.
    unfold refreshToken, request. step. rewrite Hax. simpl.
    rewrite lookup_insert_eq, Hstored, Hrt. reflexivity.
  - intros e w2 H401 Hdb. rewrite setupApi_tokens, Hdb.
    destruct (handleUnauthorizedError_signs_out (T := unit) e w H401)
      as (w' & Hrun & _ & _ & _ & _ & _ & Hdel & _).
    rewrite Hrun. simpl. rewrite Hdel, deleted_auth. reflexivity.
  - intros w2 Hnone. rewrite setupApi_tokens, Hnone. reflexivity.
Qed.

Lemma restart_restores_the_session_witness :
  let w := signedOutWorld flaky in
  let p := Payload.mk "access" 3600 "refresh" in
  tokens (userAuth (setupApi (fun _ => None) (handleExternalAuth p w).2).2)
  = tokens (userAuth (handleExternalAuth p w).2).
Proof.
  intros w p.
  destruct (restart_restores_the_session w (fun _ => None)) as (Hsignin & _).
  apply Hsignin. reflexivity.
Defined.

(** *** Invariants carried through the retry loop *)

Lemma preserves_bind {T U} (I : World -> Prop) (c : M World Err T)
    (k : T -> M World Err U) :
  preserves I c -> (forall a, preserves I (k a)) -> preserves I (bind c k).
Proof.
  intros Hc Hk w r w' Hw. unfold bind.
  destruct (c w) as [[a|e] w1] eqn:Hrun; intros Heq.
  - eapply Hk; [|exact Heq]. eapply Hc; eauto.
  - inversion Heq; subst. eapply Hc; eauto.
Qed.

Lemma preserves_modify (I : World -> Prop) (f : World -> World) :
  (forall w, I w -> I (f w)) -> preserves I (modify f).
Proof. intros Hf w r w' Hw Heq. inversion Heq; subst. auto. Qed.

Lemma preserves_pure {T} (I : World -> Prop) (c : M World Err T) :
  (forall w, (c w).2 = w) -> preserves I c.
Proof.
  intros Hc w r w' Hw Heq. specialize (Hc w). rewrite Heq in Hc.
  simpl in Hc. congruence.
Qed.

Section LoopInvariant.
Context {T : Type} (I : World -> Prop).
Hypothesis I_log : forall w l text, I w -> I (rt_log l text w).
Hypothesis I_delay : forall w ms, I w -> I (rt_delay ms w).

Lemma preserves_logger l text : preserves I (logger l text).
Proof. apply preserves_modify. intros w. apply I_log. Qed.

Lemma preserves_surface (lastError : option Err) :
  preserves I (surface (T := T) lastError).
Proof.
  unfold surface, codeIs.
  destruct lastError as [e|];
    [|apply preserves_bind;
      [apply preserves_logger
      |intros _; apply preserves_pure; intros ?; reflexivity]].
  destruct e as [| |c [resp|] m| | | | |];
    repeat match goal with
           | |- context [if ?b then _ else _] => destruct b
           end;
    (apply preserves_bind;
     [apply preserves_logger
     |intros _; apply preserves_pure; intros ?; reflexivity]).
Qed.

Lemma preserves_retryLoop (requestFn : M World Err T) (n d : Z) :
  preserves I requestFn ->
  forall attempts lastError,
    preserves I (retryLoop requestFn n d attempts lastError).
Proof.
  intros Hf attempts.
  induction attempts as [|attempt later IH]; intros lastError w r w' Hw;
    simpl.
  - intros Heq. inversion Heq; subst. exact Hw.
  - destruct (requestFn w) as [[v|error] w1] eqn:Hrun;
      pose proof (Hf _ _ _ Hw Hrun) as Hw1.
    + intros Heq. inversion Heq; subst. exact Hw1.
    + destruct (isAuthError error);
        [intros Heq; inversion Heq; subst; exact Hw1|].
      destruct (isUnauthorized error);
        [intros Heq; inversion Heq; subst; exact Hw1|].
      destruct (isRetryableError error && (attempt <? n)).
      * step. apply IH. apply I_delay, I_log. exact Hw1.
      * intros Heq. inversion Heq; subst. exact Hw1.
Qed.

Lemma preserves_retryRequest (requestFn : M World Err T) attempts d :
  preserves I requestFn -> preserves I (retryRequest requestFn attempts d).
Proof.
  intros Hf. unfold retryRequest. apply preserves_bind.
  - apply preserves_retryLoop. exact Hf.
  - intros [v|lastError];
      [apply preserves_pure; intros ?; reflexivity | apply preserves_surface].
Qed.
End LoopInvariant.

(** *** Sign-out *)

Lemma requestsOf_app (tr1 tr2 : list Event) :
  requestsOf (tr1 ++ tr2) = requestsOf tr2 ++ requestsOf tr1.
Proof.
  induction tr1 as [|e tr1 IH]; simpl; [rewrite app_nil_r; reflexivity|].
  destruct e; rewrite IH; try reflexivity. rewrite app_assoc. reflexivity.
Qed.

(** What holds all through [handleSignOut] once the session is reset:
    nobody is signed in, every request made so far is the logout
    request with an empty bearer token, and the database is as it was,
    or has lost both records to a 401. *)
Lemma logout_invariant (w0 : World) :
  let I (w : World) :=
    userAuth w = emptyUserAuth
    /\ (exists reqs,
           requestsOf (trace w) = requestsOf (trace w0) ++ reqs
           /\ Forall (fun q => q = logoutRequest) reqs)
    /\ axios w = axios w0 /\ (calls w0 <= calls w)%nat
    /\ (db w = db w0
        \/ (db w !! levelKeys_auth = None /\ db w !! levelKeys_user = None
            /\ exists k, (calls w0 <= k < calls w)%nat
                         /\ answers401 w0 k = true)) in
  preserves I
    (post "/auth/logout" (Some "{}")
       (Some {| needsAuth := Some false; needsSubscription := None;
                ifModifiedSince := None; retryAttempts := None;
                retryDelay := None |})).
Proof.
  intros I. unfold post. apply preserves_bind.
  - unfold validateOptions. simpl.
    apply preserves_bind; [|intros ?];
      apply preserves_pure; intros ?; reflexivity.
  - intros _. apply preserves_retryRequest.
    + intros w l text H. exact H.
    + intros w ms H. exact H.
    + intros w r w' (Hout & (reqs & Hreqs & Hall) & Hax & Hcalls & Hdb).
      unfold getAxiosConfig, guarded, tryCatch, request. step.
      rewrite Hout. simpl.
      assert (Hnext : exists reqs',
                 requestsOf (trace w) ++ [logoutRequest]
                 = requestsOf (trace w0) ++ reqs'
                 /\ Forall (fun q => q = logoutRequest) reqs').
      { exists (reqs ++ [logoutRequest]). rewrite Hreqs, app_assoc.
        split; [reflexivity|]. apply Forall_app. split; auto. }
      assert (Hdb' : db w = db w0
                     \/ (db w !! levelKeys_auth = None
                         /\ db w !! levelKeys_user = None
                         /\ exists k, (calls w0 <= k < S (calls w))%nat
                                      /\ answers401 w0 k = true)).
      { destruct Hdb as [? | (Ha & Hu & k & Hk & H401)]; [left; auto|].
        right. repeat split; auto. exists k. split; [lia | exact H401]. }
      destruct (axios w (calls w)) as [resp|e] eqn:Hreply; simpl.
      * intros Heq. inversion Heq; subst. unfold I. simpl.
        repeat split; auto.
      * unfold handleUnauthorizedError, sendSignOutEvent.
        destruct (isUnauthorized e) eqn:H401; step.
        -- assert (Hk : exists k, (calls w0 <= k < S (calls w))%nat
                                  /\ answers401 w0 k = true).
           { exists (calls w). split; [lia|]. unfold answers401.
             rewrite <- Hax, Hreply. exact H401. }
           destruct (mainWindow w); intros Heq; inversion Heq; subst;
             unfold I; simpl;
             (split; [reflexivity|]); (split; [exact Hnext|]);
             (split; [exact Hax|]); (split; [lia|]); right;
             rewrite deleted_auth, deleted_user; auto.
        -- intros Heq. inversion Heq; subst. unfold I. simpl.
           repeat split; auto.
Qed.

Lemma handleSignOut_run (w : World) :
  exists w',
    handleSignOut w = (Returned tt, w')
    /\ (exists reqs,
           requestsOf (trace w') = requestsOf (trace w) ++ reqs
           /\ Forall (fun q => q = logoutRequest) reqs)
    /\ (db w' = db w
        \/ (db w' !! levelKeys_auth = None /\ db w' !! levelKeys_user = None
            /\ exists k, (calls w <= k < calls w')%nat
                         /\ answers401 w k = true)).
Proof.
  unfold handleSignOut, tryCatch. step.
  set (w1 := with_userAuth emptyUserAuth w).
  pose proof (logout_invariant w1) as Hinv. simpl in Hinv.
  assert (Hstart :
            userAuth w1 = emptyUserAuth
            /\ (exists reqs,
                   requestsOf (trace w1) = requestsOf (trace w1) ++ reqs
                   /\ Forall (fun q => q = logoutRequest) reqs)
            /\ axios w1 = axios w1 /\ (calls w1 <= calls w1)%nat
            /\ (db w1 = db w1
                \/ (db w1 !! levelKeys_auth = None
                    /\ db w1 !! levelKeys_user = None
                    /\ exists k, (calls w1 <= k < calls w1)%nat
                                 /\ answers401 w1 k = true))).
  { split; [reflexivity|]. split; [|auto].
    exists []. rewrite app_nil_r. split; [reflexivity | constructor]. }
  destruct (post _ _ _ w1) as [[v|e] w2] eqn:Hrun; simpl;
    destruct (Hinv _ _ _ Hstart Hrun) as (_ & Hreqs & _ & _ & Hdb); eauto.
Qed.

(** X8.  [handleSignOut] never rejects, whatever the server answers, and
    every request it makes is [POST /auth/logout] with an empty bearer
    token: the session is emptied before the request is built. *)
Theorem logout_is_sent_without_the_token :
  forall (w : World),
    exists w' reqs,
      handleSignOut w = (Returned tt, w')
      /\ requestsOf (trace w') = requestsOf (trace w) ++ reqs
      /\ Forall (fun q => q = (POST, "/auth/logout", Some "{}", Some "")) reqs.
Proof.
  intros w. destruct (handleSignOut_run w) as (w' & Hrun & (reqs & H1 & H2) & _).
  exists w', reqs. auto.
Qed.

(** X10.  [handleSignOut] does not delete the persisted records: when no
    logout request is answered with a 401, the database is left as it
    was (and the next [setupApi] reads the old tokens back); when one
    is, both records are gone. *)
Theorem sign_out_keeps_the_persisted_records :
  forall (w : World),
    (db (handleSignOut w).2 = db w
     \/ (db (handleSignOut w).2 !! levelKeys_auth = None
         /\ db (handleSignOut w).2 !! levelKeys_user = None))
    /\ ((forall k, (calls w <= k)%nat -> answers401 w k = false) ->
        db (handleSignOut w).2 = db w
        /\ forall subscriptionOf,
             tokens (userAuth (setupApi subscriptionOf (handleSignOut w).2).2)
             = tokens (userAuth (setupApi subscriptionOf w).2)).
Proof.
  intros w. destruct (handleSignOut_run w) as (w' & Hrun & _ & Hdb).
  rewrite Hrun. cbn [snd]. split.
  - destruct Hdb as [? | (Ha & Hu & _)]; auto.
  - intros Hno.
    assert (Hsame : db w' = db w).
    { destruct Hdb as [? | (_ & _ & k & Hk & H401)]; [assumption|].
      rewrite Hno in H401 by lia. discriminate. }
    split; [exact Hsame|]. intros sOf.
    rewrite !setupApi_tokens, Hsame. reflexivity.
Qed.

Lemma sign_out_keeps_the_persisted_records_witness :
  let w := signedInWorld flaky in
  db (handleSignOut w).2 = db w
  /\ forall subscriptionOf,
       tokens (userAuth (setupApi subscriptionOf (handleSignOut w).2).2)
       = tokens (userAuth (setupApi subscriptionOf w).2).
Proof.
  intros w.
  destruct (sign_out_keeps_the_persisted_records w) as (_ & Hkept).
  apply Hkept. intros k _. destruct k; reflexivity.
Defined.

(** *** The retry loop against a scripted server *)

Lemma backoff_S d a k : backoff d a (S k) = d * 2 ^ a :: backoff d (a + 1) k.
Proof.
  unfold backoff. simpl. rewrite Z.add_0_r. f_equal.
  rewrite <- seq_shift, map_map. apply map_ext. intros i.
  replace (a + Z.of_nat (S i)) with (a + 1 + Z.of_nat i) by lia.
  reflexivity.
Qed.

(** [d + 2d + ... + 2^(k-1) d = d (2^k - 1)] *)
Lemma backoff_sum d k :
  foldr Z.add 0 (backoff d 0 k) = d * (2 ^ Z.of_nat k - 1).
Proof.
  assert (Hgen : forall k a, 0 <= a ->
             foldr Z.add 0 (backoff d a k)
             = d * 2 ^ a * (2 ^ Z.of_nat k - 1)).
  { clear k. induction k as [|k IH]; intros a Ha.
    - simpl. lia.
    - rewrite backoff_S. simpl foldr. rewrite IH by lia.
      replace (a + 1) with (Z.succ a) by lia.
      rewrite Nat2Z.inj_succ, !Z.pow_succ_r by lia. ring. }
  rewrite Hgen by lia. rewrite Z.pow_0_r. ring.
Qed.

Lemma attemptsLike_guarded (op : Operation) (u : UserAuth.t) :
  attemptsLike op u
    (guarded (requestOf op).1.1 (requestOf op).1.2 (requestOf op).2
       (Some (UserAuth.authToken u))).
Proof.
  intros w Hu. unfold guarded, tryCatch, request. step.
  destruct (axios w (calls w)) as [r|e]; simpl; [reflexivity|].
  intros Hne. rewrite handleUnauthorizedError_other by exact Hne.
  reflexivity.
Qed.

Lemma attemptsLike_fresh_config (op : Operation) (u : UserAuth.t) :
  attemptsLike op u
    (config <- getAxiosConfig ;;
     guarded (requestOf op).1.1 (requestOf op).1.2 (requestOf op).2 config).
Proof.
  intros w Hu. pose proof (attemptsLike_guarded op u w Hu) as Hg.
  unfold getAxiosConfig. step. rewrite Hu. exact Hg.
Qed.

Section Scripted.
Variable op : Operation.
Variable u : UserAuth.t.
Variable requestFn : M World Err Data.t.
Hypothesis like : attemptsLike op u requestFn.
Variables n d : Z.

Lemma nextFail_shift (w w1 : World) (k : nat) :
  axios w1 = axios w -> calls w1 = S (calls w) ->
  nextFail w (S k) -> nextFail w1 k.
Proof.
  intros Hax Hc Hfail i Hi. destruct (Hfail (S i)) as (e & He & Hre); [lia|].
  exists e. split; [|exact Hre]. rewrite Hax, Hc.
  replace (S (calls w) + i)%nat with (calls w + S i)%nat by lia. exact He.
Qed.

(** After [k] retryable failures the first response is returned. *)
Lemma retryLoop_first_success :
  forall (k : nat) (a : Z) (last : option Err) (w : World) (r : Response),
    userAuth w = u -> a + Z.of_nat k <= n ->
    nextFail w k ->
    axios w (calls w + k) = Resolved r ->
    exists w',
      retryLoop requestFn n d (zrange a n) last w
      = (Returned (inl (data r)), w')
      /\ calls w' = (calls w + S k)%nat
      /\ delaysOf (trace w') = delaysOf (trace w) ++ backoff d a k
      /\ userAuth w' = userAuth w /\ db w' = db w /\ axios w' = axios w.
Proof.
  induction k as [|k IH]; intros a last w r Hu Han Hfail Hok;
    rewrite zrange_cons by lia; simpl; pose proof (like w Hu) as Hstep.
  - rewrite Nat.add_0_r in Hok. rewrite Hok in Hstep. rewrite Hstep.
    eexists. split; [reflexivity|]. simpl.
    rewrite app_nil_r. repeat split; auto. lia.
  - destruct (Hfail O) as (e & He & Hre); [lia|].
    rewrite Nat.add_0_r in He. rewrite He in Hstep.
    rewrite (Hstep (retryable_not_unauthorized e Hre)),
      (retryable_not_auth e Hre), (retryable_not_unauthorized e Hre), Hre.
    replace (a <? n) with true by (symmetry; lia). simpl. step.
    match goal with
    | |- context [retryLoop _ _ _ _ _ ?w2] =>
        destruct (IH (a + 1) (Some e) w2 r) as (w' & Hrun & Hc & Hd & Hua & Hdb & Hax)
    end; simpl; auto; try lia.
    + apply (nextFail_shift w); auto.
    + rewrite Nat.add_succ_r in Hok. exact Hok.
    + exists w'. rewrite Hrun. split; [reflexivity|].
      simpl in Hc, Hd, Hua, Hdb, Hax. rewrite Hc, Hd, Hua, Hdb, Hax.
      rewrite backoff_S, <- app_assoc. repeat split; auto; lia.
Qed.

(** When every attempt fails with a retryable error the loop is left
    after [n - a + 1] of them, with the last rejection. *)
Lemma retryLoop_all_rejected :
  forall (k : nat) (a : Z) (last : option Err) (w : World),
    userAuth w = u -> a + Z.of_nat k = n ->
    nextFail w (S k) ->
    exists e w',
      retryLoop requestFn n d (zrange a n) last w
      = (Returned (inr (Some e)), w')
      /\ axios w (calls w + k) = Rejected e
      /\ isRetryableError e = true
      /\ calls w' = (calls w + S k)%nat
      /\ delaysOf (trace w') = delaysOf (trace w) ++ backoff d a k
      /\ userAuth w' = userAuth w /\ db w' = db w /\ axios w' = axios w.
Proof.
  induction k as [|k IH]; intros a last w Hu Han Hfail;
    rewrite zrange_cons by lia; simpl; pose proof (like w Hu) as Hstep;
    destruct (Hfail O) as (e & He & Hre); try lia;
    rewrite Nat.add_0_r in He; rewrite He in Hstep;
    rewrite (Hstep (retryable_not_unauthorized e Hre)),
      (retryable_not_auth e Hre), (retryable_not_unauthorized e Hre), Hre.
  - replace (a <? n) with false by (symmetry; lia). simpl.
    exists e. eexists. split; [reflexivity|]. simpl.
    rewrite Nat.add_0_r, app_nil_r. repeat split; auto. lia.
  - replace (a <? n) with true by (symmetry; lia). simpl. step.
    match goal with
    | |- context [retryLoop _ _ _ _ _ ?w2] =>
        destruct (IH (a + 1) (Some e) w2)
          as (e' & w' & Hrun & Hlast & Hre' & Hc & Hd & Hua & Hdb & Hax)
    end; simpl; auto; try lia.
    + apply (nextFail_shift w); auto.
    + exists e', w'. rewrite Hrun. split; [reflexivity|].
      simpl in Hlast, Hc, Hd, Hua, Hdb, Hax.
      rewrite Hc, Hd, Hua, Hdb, Hax.
      replace (calls w + S k)%nat with (S (calls w) + k)%nat by lia.
      rewrite backoff_S, <- app_assoc. repeat split; auto; lia.
Qed.
End Scripted.

Lemma perform_retried (op : Operation) (options : option HydraApiOptions)
    (w : World) :
  retried op = true ->
  validateOptions options w = (Returned tt, w) ->
  exists requestFn,
    attemptsLike op (userAuth w) requestFn
    /\ perform op options w
       = retryRequest requestFn (options ≫= retryAttempts)
           (options ≫= retryDelay) w.
Proof.
  intros Hop Hv. destruct op as [url params|url body| | |]; try discriminate.
  - exists (guarded GET url params (Some (UserAuth.authToken (userAuth w)))).
    split; [apply (attemptsLike_guarded (Get url params))|].
    simpl. unfold get, getAxiosConfig, bind at 1. rewrite Hv. reflexivity.
  - exists (config <- getAxiosConfig ;; guarded POST url body config).
    split; [apply (attemptsLike_fresh_config (Post url body))|].
    simpl. unfold post, bind at 1. rewrite Hv. reflexivity.
Qed.

Lemma surface_logs {T} (e : Err) (w : World) :
  exists thrown text,
    surface (T := T) (Some e) w = (Thrown thrown, record (Logged Error text) w)
    /\ ((exists m, thrown = BackendUnavailableError m)
        \/ (exists m, thrown = NetworkError m e)).
Proof.
  unfold surface.
  destruct e as [| |c [r|] m| | | | |]; step;
    repeat match goal with
           | |- context [if ?b then _ else _] => destruct b; step
           end;
    eexists; eexists; (split; [reflexivity|]); eauto.
Qed.

(** X6.  [get] and [post], with the options validated: when the server
    rejects [k <= retryAttempts] calls with retryable errors and then
    answers, the body of that answer is returned after exactly [k + 1]
    calls, and the waits in between are [retryDelay * 2^i] for
    [i = 0 .. k-1]; the session is not touched. *)
Theorem retries_until_the_first_answer :
  forall (op : Operation) (options : option HydraApiOptions) (w : World)
         (k : nat) (r : Response),
    retried op = true ->
    validateOptions options w = (Returned tt, w) ->
    Z.of_nat k <= default DEFAULT_RETRY_ATTEMPTS (options ≫= retryAttempts) ->
    nextFail w k ->
    axios w (calls w + k) = Resolved r ->
    exists w',
      perform op options w = (Returned (data r), w')
      /\ calls w' = (calls w + S k)%nat
      /\ delaysOf (trace w')
         = delaysOf (trace w)
           ++ backoff (default DEFAULT_RETRY_DELAY (options ≫= retryDelay))
                0 k
      /\ userAuth w' = userAuth w /\ db w' = db w.
Proof.
  intros op options w k r Hop Hv Hk Hfail Hok.
  destruct (perform_retried op options w Hop Hv) as (f & Hlike & ->).
  unfold retryRequest, bind.
  destruct (retryLoop_first_success op (userAuth w) f Hlike
              (default DEFAULT_RETRY_ATTEMPTS (options ≫= retryAttempts))
              (default DEFAULT_RETRY_DELAY (options ≫= retryDelay))
              k 0 None w r eq_refl)
    as (w' & Hrun & Hc & Hd & Hua & Hdb & _); auto; try lia.
  rewrite Hrun. exists w'. auto.
Qed.

Lemma retries_until_the_first_answer_witness :
  exists w',
    perform (Get "/games" None) None (signedInWorld flaky)
    = (Returned (Data.mk "" 0 ""), w')
    /\ calls w' = (calls (signedInWorld flaky) + 2)%nat
    /\ delaysOf (trace w')
       = delaysOf (trace (signedInWorld flaky)) ++ backoff 1000 0 1
    /\ userAuth w' = userAuth (signedInWorld flaky)
    /\ db w' = db (signedInWorld flaky).
Proof.
  apply (retries_until_the_first_answer (Get "/games" None) None
           (signedInWorld flaky) 1
           {| status := 200; data := Data.mk "" 0 "" |}).
  - reflexivity.
  - reflexivity.
  - vm_compute. discriminate.
  - intros i Hi. assert (i = O) by lia. subst i.
    exists (failed 503). split; reflexivity.
  - reflexivity.
Defined.

(** X7.  [get] and [post], with the options validated: when the server
    rejects call after call with retryable errors, exactly
    [retryAttempts + 1] calls are made, the waits are
    [retryDelay * 2^i] for [i = 0 .. retryAttempts - 1], which add up to
    [retryDelay * (2^retryAttempts - 1)], and the last rejection is
    thrown wrapped in a [NetworkError] (or as a
    [BackendUnavailableError]). *)
Theorem backoff_until_the_attempts_run_out :
  forall (op : Operation) (options : option HydraApiOptions) (w : World),
    let n := default DEFAULT_RETRY_ATTEMPTS (options ≫= retryAttempts) in
    let d := default DEFAULT_RETRY_DELAY (options ≫= retryDelay) in
    retried op = true ->
    validateOptions options w = (Returned tt, w) ->
    0 <= n ->
    nextFail w (S (Z.to_nat n)) ->
    exists thrown last w',
      perform op options w = (Thrown thrown, w')
      /\ axios w (calls w + Z.to_nat n) = Rejected last
      /\ ((exists m, thrown = BackendUnavailableError m)
          \/ (exists m, thrown = NetworkError m last))
      /\ calls w' = (calls w + Z.to_nat n + 1)%nat
      /\ delaysOf (trace w') = delaysOf (trace w) ++ backoff d 0 (Z.to_nat n)
      /\ foldr Z.add 0 (backoff d 0 (Z.to_nat n)) = d * (2 ^ n - 1).
Proof.
  intros op options w n d Hop Hv Hn Hfail.
  destruct (perform_retried op options w Hop Hv) as (f & Hlike & ->).
  unfold retryRequest, bind. fold n d.
  destruct (retryLoop_all_rejected op (userAuth w) f Hlike n d
              (Z.to_nat n) 0 None w eq_refl)
    as (e & w1 & Hrun & Hlast & Hre & Hc & Hd & _); auto; try lia.
  rewrite Hrun.
  destruct (surface_logs (T := Data.t) e w1) as (thrown & text & Hs & Hshape).
  rewrite Hs. exists thrown, e. eexists. split; [reflexivity|]. simpl.
  rewrite backoff_sum, Z2Nat.id by lia. repeat split; auto; lia.
Qed.

Lemma backoff_until_the_attempts_run_out_witness :
  exists thrown last w',
    perform (Get "/games" None) None (signedInWorld down) = (Thrown thrown, w')
    /\ axios (signedInWorld down) (calls (signedInWorld down) + Z.to_nat 3)
       = Rejected last
    /\ ((exists m, thrown = BackendUnavailableError m)
        \/ (exists m, thrown = NetworkError m last))
    /\ calls w' = (calls (signedInWorld down) + Z.to_nat 3 + 1)%nat
    /\ delaysOf (trace w')
       = delaysOf (trace (signedInWorld down))
         ++ backoff 1000 0 (Z.to_nat 3)
    /\ foldr Z.add 0 (backoff 1000 0 (Z.to_nat 3)) = 1000 * (2 ^ 3 - 1).
Proof.
  apply (backoff_until_the_attempts_run_out (Get "/games" None) None
           (signedInWorld down)).
  - reflexivity.
  - reflexivity.
  - vm_compute. discriminate.
  - intros i Hi. exists (failed 503). split; reflexivity.
Defined.

(** *** How many calls an operation makes, and with which token *)

Lemma guarded_effect m url body bearer (w : World) :
  calls (guarded m url body bearer w).2 = S (calls w)
  /\ requestsOf (trace (guarded m url body bearer w).2)
     = requestsOf (trace w) ++ [(m, url, body, bearer)]
  /\ axios (guarded m url body bearer w).2 = axios w.
Proof.
  unfold guarded, tryCatch, request. step.
  destruct (axios w (calls w)) as [resp|e]; simpl; auto.
  unfold handleUnauthorizedError, sendSignOutEvent.
  destruct (isUnauthorized e); step; auto.
  destruct (mainWindow w); simpl; auto.
Qed.

(** A loop over [attempts] makes at least one call, when there is an
    attempt to make, and at most one per attempt. *)
Lemma retryLoop_calls {T} (requestFn : M World Err T) (n d : Z) :
  (forall w, calls (requestFn w).2 = S (calls w)) ->
  forall attempts lastError w,
    (calls w + match attempts with [] => 0 | _ => 1 end
     <= calls (retryLoop requestFn n d attempts lastError w).2
     <= calls w + length attempts)%nat.
Proof.
  intros Hf attempts.
  induction attempts as [|attempt later IH]; intros lastError w; simpl;
    [lia|].
  specialize (Hf w). destruct (requestFn w) as [[v|error] w1]; simpl in Hf;
    [simpl; lia|].
  destruct (isAuthError error); [simpl; lia|].
  destruct (isUnauthorized error); [simpl; lia|].
  destruct (isRetryableError error && (attempt <? n)); [|simpl; lia].
  step.
  match goal with
  | |- context [retryLoop _ _ _ _ ?l ?w2] =>
      specialize (IH l w2); simpl in IH
  end.
  destruct later; simpl in *; lia.
Qed.

Lemma surface_calls {T} (lastError : option Err) (w : World) :
  calls (surface (T := T) lastError w).2 = calls w.
Proof.
  unfold surface, codeIs. destruct lastError as [e|]; [|reflexivity].
  destruct e as [| |c [resp|] m| | | | |]; step;
    repeat match goal with
           | |- context [if ?b then _ else _] => destruct b; step
           end; reflexivity.
Qed.

Lemma retryRequest_calls {T} (requestFn : M World Err T) attempts d
    (w : World) :
  (forall w, calls (requestFn w).2 = S (calls w)) ->
  let n := default DEFAULT_RETRY_ATTEMPTS attempts in
  (calls w + (if (0 <=? n)%Z then 1 else 0)
   <= calls (retryRequest requestFn attempts d w).2
   <= calls w + Z.to_nat (n + 1)%Z)%nat.
Proof.
  intros Hf n. unfold retryRequest, bind. fold n.
  pose proof (retryLoop_calls requestFn n (default DEFAULT_RETRY_DELAY d) Hf
                (zrange 0 n) None w) as Hloop.
  assert (Hlen : length (zrange 0 n) = Z.to_nat (n + 1)).
  { unfold zrange. rewrite length_map, length_seq. f_equal. lia. }
  assert (Hne : match zrange 0 n with [] => 0 | _ => 1 end%nat
                = (if (0 <=? n)%Z then 1 else 0)%nat).
  { destruct (0 <=? n) eqn:Hn.
    - rewrite zrange_cons by lia. reflexivity.
    - rewrite zrange_nil by lia. reflexivity. }
  rewrite Hlen, Hne in Hloop.
  destruct (retryLoop _ _ _ _ _ w) as [[[v|lastError]|e] w1]; simpl in *;
    rewrite ?surface_calls; lia.
Qed.

Lemma validateOptions_calls options (w : World) :
  (calls w <= calls (validateOptions options w).2 <= S (calls w))%nat.
Proof.
  unfold validateOptions, isLoggedIn, hasActiveSubscription,
    revalidateAccessTokenIfExpired, tryCatch, refreshToken, request.
  destruct (default true (options ≫= needsAuth)); step.
  - destruct (negb (negb (UserAuth.authToken (userAuth w) =? "")%string));
      simpl; [lia|].
    destruct (UserAuth.expirationTimestamp (userAuth w) <? now w); simpl.
    + destruct (axios w (calls w)) as [resp|e]; simpl.
      * destruct (default false (options ≫= needsSubscription)); simpl;
          [|lia].
        match goal with
        | |- context [if ?b then _ else _] => destruct b; simpl; lia
        end.
      * unfold handleUnauthorizedError, sendSignOutEvent.
        destruct (isUnauthorized e); step; [|lia].
        destruct (mainWindow w); simpl; lia.
    + destruct (default false (options ≫= needsSubscription)); simpl; [|lia].
      match goal with
      | |- context [if ?b then _ else _] => destruct b; simpl; lia
      end.
  - destruct (default false (options ≫= needsSubscription)); simpl; [|lia].
    match goal with
    | |- context [if ?b then _ else _] => destruct b; simpl; lia
    end.
Qed.

(** X12.  Whatever the server does, an operation makes at most one
    refresh call and then, for [get] and [post], at most
    [retryAttempts + 1] calls (none when [retryAttempts] is negative),
    and for [put], [patch] and [delete] at most one. *)
Theorem calls_are_bounded :
  forall (op : Operation) (options : option HydraApiOptions) (w : World),
    let n := default DEFAULT_RETRY_ATTEMPTS (options ≫= retryAttempts) in
    (calls (perform op options w).2
     <= calls w + 1 + (if retried op then Z.to_nat (n + 1)%Z else 1))%nat.
Proof.
  intros op options w n.
  pose proof (validateOptions_calls options w) as Hv.
  assert (Hpost : forall url body w0,
             calls ((config <- getAxiosConfig ;;
                     guarded POST url body config) w0).2 = S (calls w0)).
  { intros url body w0. unfold getAxiosConfig. step.
    apply (proj1 (guarded_effect _ _ _ _ w0)). }
  destruct op as [url params|url body|url body|url body|url];
    cbn [perform retried];
    unfold get, post, put, patch, delete; unfold bind at 1;
    destruct (validateOptions options w) as [[[]|e] w1]; cbn [snd] in *;
    try lia.
  - change ((headers <- getAxiosConfig ;;
             retryRequest (guarded GET url params headers)
               (options ≫= retryAttempts) (options ≫= retryDelay)) w1)
      with (retryRequest
              (guarded GET url params
                 (Some (UserAuth.authToken (userAuth w1))))
              (options ≫= retryAttempts) (options ≫= retryDelay) w1).
    pose proof (retryRequest_calls
                  (guarded GET url params
                     (Some (UserAuth.authToken (userAuth w1))))
                  (options ≫= retryAttempts) (options ≫= retryDelay) w1
                  (fun w0 => proj1 (guarded_effect _ _ _ _ w0))) as Hr.
    cbv zeta in Hr. fold n in Hr. lia.
  - pose proof (retryRequest_calls
                  (config <- getAxiosConfig ;; guarded POST url body config)
                  (options ≫= retryAttempts) (options ≫= retryDelay) w1
                  (Hpost url body)) as Hr.
    cbv zeta in Hr. fold n in Hr. lia.
  - change ((config <- getAxiosConfig ;; guarded PUT url body config) w1)
      with (guarded PUT url body
              (Some (UserAuth.authToken (userAuth w1))) w1).
    pose proof (proj1 (guarded_effect PUT url body
                         (Some (UserAuth.authToken (userAuth w1))) w1)). lia.
  - change ((config <- getAxiosConfig ;; guarded PATCH url body config) w1)
      with (guarded PATCH url body
              (Some (UserAuth.authToken (userAuth w1))) w1).
    pose proof (proj1 (guarded_effect PATCH url body
                         (Some (UserAuth.authToken (userAuth w1))) w1)). lia.
  - change ((config <- getAxiosConfig ;; guarded DELETE url None config) w1)
      with (guarded DELETE url None
              (Some (UserAuth.authToken (userAuth w1))) w1).
    pose proof (proj1 (guarded_effect DELETE url None
                         (Some (UserAuth.authToken (userAuth w1))) w1)). lia.
Qed.

Lemma validateOptions_refreshes options (w : World) (resp : Response) :
  default true (options ≫= needsAuth) = true ->
  default false (options ≫= needsSubscription) = false ->
  UserAuth.authToken (userAuth w) <> "" ->
  UserAuth.expirationTimestamp (userAuth w) < now w ->
  axios w (calls w) = Resolved resp ->
  exists w1,
    validateOptions options w = (Returned tt, w1)
    /\ tokens (userAuth w1)
       = (Data.accessToken (data resp), UserAuth.refreshToken (userAuth w),
          now w + secondsToMilliseconds (Data.expiresIn (data resp))
          - EXPIRATION_OFFSET_IN_MS)
    /\ requestsOf (trace w1)
       = requestsOf (trace w)
         ++ [(POST, "/auth/refresh",
              Some (UserAuth.refreshToken (userAuth w)), None)]
    /\ calls w1 = S (calls w).
Proof.
  intros Hauth Hsub Hin Hexp Hax.
  unfold validateOptions, isLoggedIn, revalidateAccessTokenIfExpired,
    tryCatch, refreshToken, request.
  rewrite Hauth, Hsub. step.
  apply String.eqb_neq in Hin. rewrite Hin. simpl.
  replace (UserAuth.expirationTimestamp (userAuth w) <? now w) with true
    by (symmetry; lia).
  rewrite Hax. simpl. eexists. split; [reflexivity|]. simpl. auto.
Qed.

(** X3.  An operation called with an access token that has run out first
    posts the stored refresh token to [/auth/refresh], without an
    [Authorization] header; when that is answered, the next call is the
    operation's own and carries the new access token. *)
Theorem expired_token_is_refreshed_first :
  forall (op : Operation) (options : option HydraApiOptions) (w : World)
         (resp : Response),
    default true (options ≫= needsAuth) = true ->
    default false (options ≫= needsSubscription) = false ->
    UserAuth.authToken (userAuth w) <> "" ->
    UserAuth.expirationTimestamp (userAuth w) < now w ->
    axios w (calls w) = Resolved resp ->
    0 <= default DEFAULT_RETRY_ATTEMPTS (options ≫= retryAttempts) ->
    exists later,
      requestsOf (trace (perform op options w).2)
      = requestsOf (trace w)
        ++ (POST, "/auth/refresh",
            Some (UserAuth.refreshToken (userAuth w)), None)
        :: (requestOf op, Some (Data.accessToken (data resp)))
        :: later.
Proof.
  intros op options w resp Hauth Hsub Hin Hexp Hax Hn.
  destruct (validateOptions_refreshes options w resp Hauth Hsub Hin Hexp Hax)
    as (w1 & Hv & Htok & Hreqs & Hcalls).
  assert (Hnew : UserAuth.authToken (userAuth w1)
                 = Data.accessToken (data resp))
    by (unfold tokens in Htok; congruence).
  set (first := (requestOf op, Some (Data.accessToken (data resp)))).
  (* the invariant of everything that follows the refresh *)
  set (J := fun w0 : World =>
              (calls w0 = calls w1
               /\ userAuth w0 = userAuth w1
               /\ requestsOf (trace w0) = requestsOf (trace w1))
              \/ (calls w1 < calls w0
                  /\ exists later,
                       requestsOf (trace w0)
                       = requestsOf (trace w1) ++ first :: later)%nat).
  assert (Hguard : forall bearer,
             (bearer = Some (Data.accessToken (data resp))) ->
             preserves J
               (guarded (requestOf op).1.1 (requestOf op).1.2
                  (requestOf op).2 bearer)).
  { intros bearer -> w0 r w' HJ Hrun.
    pose proof (guarded_effect (requestOf op).1.1 (requestOf op).1.2
                  (requestOf op).2 (Some (Data.accessToken (data resp))) w0)
      as (Hc & Hr & _).
    rewrite Hrun in Hc, Hr. simpl in Hc, Hr. right.
    destruct HJ as [(Hc0 & _ & Hr0) | (Hc0 & later & Hr0)].
    - split; [lia|]. exists []. rewrite Hr, Hr0.
      subst first. destruct (requestOf op) as [[m url] body]. reflexivity.
    - split; [lia|]. eexists. rewrite Hr, Hr0, <- app_assoc. simpl.
      reflexivity. }
  assert (Hfresh : preserves J
             (config <- getAxiosConfig ;;
              guarded (requestOf op).1.1 (requestOf op).1.2
                (requestOf op).2 config)).
  { intros w0 r w' HJ. unfold getAxiosConfig. step.
    destruct HJ as [(Hc0 & Hu0 & Hr0) | HJ].
    - apply (Hguard (Some (UserAuth.authToken (userAuth w0)))).
      + rewrite Hu0, Hnew. reflexivity.
      + left. auto.
    - intros Hrun.
      pose proof (guarded_effect (requestOf op).1.1 (requestOf op).1.2
                    (requestOf op).2
                    (Some (UserAuth.authToken (userAuth w0))) w0)
        as (Hc & Hr & _).
      rewrite Hrun in Hc, Hr. simpl in Hc, Hr. right.
      destruct HJ as (Hc0 & later & Hr0).
      split; [lia|]. eexists. rewrite Hr, Hr0, <- app_assoc. simpl.
      reflexivity. }
  assert (Hstart : J w1) by (left; auto).
  assert (Hpost : forall url body w0,
             calls ((config <- getAxiosConfig ;;
                     guarded POST url body config) w0).2 = S (calls w0)).
  { intros url body w0. unfold getAxiosConfig. step.
    apply (proj1 (guarded_effect _ _ _ _ w0)). }
  assert (Hbody : exists body : M World Err Data.t,
             perform op options w = body w1
             /\ preserves J body
             /\ (calls w1 < calls (body w1).2)%nat).
  { destruct op as [url params|url body|url body|url body|url].
    - exists (retryRequest
                (guarded GET url params
                   (Some (UserAuth.authToken (userAuth w1))))
                (options ≫= retryAttempts) (options ≫= retryDelay)).
      split; [cbn [perform]; unfold get, bind at 1; rewrite Hv; reflexivity|].
      split.
      + apply (preserves_retryRequest J); auto.
        apply (Hguard (Some (UserAuth.authToken (userAuth w1)))).
        rewrite Hnew. reflexivity.
      + pose proof (retryRequest_calls
                      (guarded GET url params
                         (Some (UserAuth.authToken (userAuth w1))))
                      (options ≫= retryAttempts) (options ≫= retryDelay) w1
                      (fun w0 => proj1 (guarded_effect _ _ _ _ w0))) as Hr.
        cbv zeta in Hr.
        replace (0 <=? default DEFAULT_RETRY_ATTEMPTS
                         (options ≫= retryAttempts)) with true in Hr
          by (symmetry; lia).
        cbv iota in Hr. lia.
    - exists (retryRequest
                (config <- getAxiosConfig ;; guarded POST url body config)
                (options ≫= retryAttempts) (options ≫= retryDelay)).
      split; [cbn [perform]; unfold post, bind at 1; rewrite Hv; reflexivity|].
      split.
      + apply (preserves_retryRequest J); auto.
      + pose proof (retryRequest_calls
                      (config <- getAxiosConfig ;;
                       guarded POST url body config)
                      (options ≫= retryAttempts) (options ≫= retryDelay) w1
                      (Hpost url body)) as Hr.
        cbv zeta in Hr.
        replace (0 <=? default DEFAULT_RETRY_ATTEMPTS
                         (options ≫= retryAttempts)) with true in Hr
          by (symmetry; lia).
        cbv iota in Hr. lia.
    - exists (config <- getAxiosConfig ;; guarded PUT url body config).
      split; [cbn [perform]; unfold put, bind at 1; rewrite Hv; reflexivity|].
      split; [exact Hfresh|].
      change ((config <- getAxiosConfig ;; guarded PUT url body config) w1)
        with (guarded PUT url body
                (Some (UserAuth.authToken (userAuth w1))) w1).
      rewrite (proj1 (guarded_effect _ _ _ _ w1)). lia.
    - exists (config <- getAxiosConfig ;; guarded PATCH url body config).
      split; [cbn [perform]; unfold patch, bind at 1; rewrite Hv; reflexivity|].
      split; [exact Hfresh|].
      change ((config <- getAxiosConfig ;; guarded PATCH url body config) w1)
        with (guarded PATCH url body
                (Some (UserAuth.authToken (userAuth w1))) w1).
      rewrite (proj1 (guarded_effect _ _ _ _ w1)). lia.
    - exists (config <- getAxiosConfig ;; guarded DELETE url None config).
      split; [cbn [perform]; unfold delete, bind at 1; rewrite Hv;
              reflexivity|].
      split; [exact Hfresh|].
      change ((config <- getAxiosConfig ;; guarded DELETE url None config) w1)
        with (guarded DELETE url None
                (Some (UserAuth.authToken (userAuth w1))) w1).
      rewrite (proj1 (guarded_effect _ _ _ _ w1)). lia. }
  destruct Hbody as (body & -> & Hpres & Hmore).
  assert (Hend : J (body w1).2)
    by (eapply Hpres; [exact Hstart | apply surjective_pairing]).
  destruct Hend as [(Hc & _) | (_ & later & Hlater)]; [lia|].
  exists later. rewrite Hlater, Hreqs, <- app_assoc. reflexivity.
Qed.

Lemma expired_token_is_refreshed_first_witness :
  let w := expiredWorld (fun _ => ok200 "fresh" 3600) in
  exists later,
    requestsOf (trace (perform (Put "/profile" (Some "{}")) None w).2)
    = requestsOf (trace w)
      ++ (POST, "/auth/refresh", Some (UserAuth.refreshToken (userAuth w)),
          None)
      :: (requestOf (Put "/profile" (Some "{}")),
          Some (Data.accessToken
                  (data {| status := 200; data := Data.mk "fresh" 3600 "" |})))
      :: later.
Proof.
  intros w.
  apply (expired_token_is_refreshed_first (Put "/profile" (Some "{}")) None w
           {| status := 200; data := Data.mk "fresh" 3600 "" |}).
  - reflexivity.
  - reflexivity.
  - discriminate.
  - vm_compute. reflexivity.
  - reflexivity.
  - vm_compute. discriminate.
Defined.

End HydraApiFacts.




(* ====================================================================== *)
(** * Properties of the startup and shutdown handler *)
(* ====================================================================== *)

Module CriticalErrorHandlerFacts.
Import CriticalErrorHandler.

Ltac run :=
  unfold bind, tryCatch, logger, delay, modify, ret, throw, gets, call, next,
    readProperty;
  simpl.

Lemma attempts_1_to_3 : zrange 1 MAX_RETRY_ATTEMPTS = [1; 2; 3].
Proof. reflexivity. Qed.

(** C6, as stated, fails: the third failure is followed by the throw,
    not by a wait of 6 s. *)
Lemma third_failure_is_not_waited_for :
  (exists e, (handleLockAcquisition lockedOut).1 = Thrown (Critical e)
             /\ component e = "Lock" /\ recoverable e = false)
  /\ delaysOf (trace (handleLockAcquisition lockedOut).2) = [2000; 4000]
  /\ delaysOf (trace (handleLockAcquisition lockedOut).2)
     <> [2000; 4000; 6000].
Proof.
  split; [eexists; vm_compute; repeat split; reflexivity|].
  split; [vm_compute; reflexivity | vm_compute; discriminate].
Qed.

(** C6 (amended).  The lock is tried at most three times.  When all three
    tries fail, [RETRY_DELAY * 1 = 2 s] and [RETRY_DELAY * 2 = 4 s] are
    waited after the first and the second failure, nothing is waited
    after the third, no fourth try is made, and a
    [CriticalStartupError] with component "Lock" that is not recoverable
    is thrown. *)
Theorem lock_acquisition_gives_up_after_three :
  forall (w : World),
    let tried (w' : World) := occurrences AcquireLock (trace w') in
    (tried (handleLockAcquisition w).2 <= tried w + 3)%nat
    /\ forall e1 e2 e3,
         settles w AcquireLock (tried w) = Some e1 ->
         settles w AcquireLock (S (tried w)) = Some e2 ->
         settles w AcquireLock (S (S (tried w))) = Some e3 ->
         exists w',
           handleLockAcquisition w
           = (Thrown
                (Critical
                   {| message :=
                        "Failed to acquire application lock after multiple attempts. Another instance may be running.";
                      component := "Lock";
                      recoverable := false |}), w')
           /\ tried w' = (tried w + 3)%nat
           /\ delaysOf (trace w')
              = delaysOf (trace w) ++ [RETRY_DELAY * 1; RETRY_DELAY * 2].
Proof.
  intros w tried. subst tried. simpl. split.
  - unfold handleLockAcquisition. rewrite attempts_1_to_3.
    unfold lockAttempts. run.
    destruct (settles w AcquireLock (occurrences AcquireLock (trace w)));
      run; [|lia].
    destruct (settles w AcquireLock (S (occurrences AcquireLock (trace w))));
      run; [|lia].
    destruct (settles w AcquireLock
                (S (S (occurrences AcquireLock (trace w))))); run; lia.
  - intros e1 e2 e3 H1 H2 H3.
    unfold handleLockAcquisition. rewrite attempts_1_to_3.
    unfold lockAttempts. run. rewrite H1. run. rewrite H2. run.
    rewrite H3. run. eexists. split; [reflexivity|]. simpl.
    split; [lia|]. rewrite <- app_assoc. reflexivity.
Qed.


Ltac settle c :=
  let o := fresh "o" in
  let E := fresh "E" in
  destruct c as [o|] eqn:E; run.

Ltac settleServices :=
  repeat match goal with
         | |- context [settles ?w ?c ?k] =>
             let o := fresh "o" in
             destruct (settles w c k) as [o|] eqn:?;
             [run; destruct (nullish o) eqn:?; run | run]
         end.

(** The service step on its own: the [init]s are called in the declared
    order, whatever the earlier ones did, up to the first that is
    rejected without a reason; the failures that have a reason are
    appended in that order; and the step returns when every rejection
    had a reason and throws the [TypeError] of its [catch] otherwise. *)
Lemma handleEssentialServices_run (w : World) :
  exists o w',
    handleEssentialServices w = (o, w')
    /\ ((existsb (unexplained w) services = false /\ o = Returned tt)
        \/ (existsb (unexplained w) services = true
            /\ exists v, o = Thrown (noMessage v)))
    /\ startupErrors w'
       = startupErrors w ++ flat_map (entryFor w) (reached w services)
    /\ callsOf (trace w')
       = callsOf (trace w)
         ++ firstn (length (reached w services)) serviceCalls
    /\ settles w' = settles w /\ response w' = response w
    /\ dialogs (trace w') = dialogs (trace w)
    /\ hasQuit (trace w') = hasQuit (trace w).
Proof.
  unfold handleEssentialServices, services, initializeEach, entryFor,
    reached, unexplained, serviceCalls, noMessage.
  run. settleServices;
    eexists; eexists; (split; [reflexivity|]); simpl;
    (split; [first [left; split; reflexivity
                   |right; split; [reflexivity | eexists; reflexivity]]|]);
    rewrite <- ?app_assoc; simpl; rewrite ?app_nil_r; auto 10.
Qed.

Lemma reached_all (w : World) (svcs : list ServiceDescriptor) :
  existsb (unexplained w) svcs = false -> reached w svcs = svcs.
Proof.
  induction svcs as [|service later IH]; [reflexivity|].
  simpl. intros H. apply orb_false_elim in H as [Hs Hl].
  rewrite Hs, IH by exact Hl. reflexivity.
Qed.

(** When every rejection has a reason: every [init] is called once, the
    step returns, and each failure leaves its entry. *)
Lemma handleEssentialServices_accumulates (w : World) :
  existsb (unexplained w) services = false ->
  exists w',
    handleEssentialServices w = (Returned tt, w')
    /\ startupErrors w' = startupErrors w ++ flat_map (entryFor w) services
    /\ callsOf (trace w')
       = callsOf (trace w)
         ++ [PythonInitialize; SetupApi; DownloadManagerInitialize;
             DownloadCommonRedist; CopyBinaryToUserData]
    /\ settles w' = settles w /\ response w' = response w
    /\ dialogs (trace w') = dialogs (trace w)
    /\ hasQuit (trace w') = hasQuit (trace w).
Proof.
  intros Hall.
  destruct (handleEssentialServices_run w)
    as (o & w' & Hrun & [(_ & ->) | (Hsome & _)] & Herr & Hcalls & Hrest);
    [|congruence].
  rewrite (reached_all w services Hall) in Herr, Hcalls.
  exists w'. auto.
Qed.

Lemma one_entry_per_failure (w : World) (svcs : list ServiceDescriptor) :
  existsb (unexplained w) svcs = false ->
  length (flat_map (entryFor w) svcs) = length (List.filter (fails w) svcs).
Proof.
  induction svcs as [|service later IH]; [reflexivity|].
  simpl. intros H. apply orb_false_elim in H as [Hs Hl].
  rewrite length_app, IH by exact Hl. revert Hs.
  unfold entryFor, fails, unexplained.
  destruct (init service w).1 as [|error]; [reflexivity|].
  destruct (nullish error); [discriminate | reflexivity].
Qed.

(** X30.  In the service step a failing [init] whose rejection carries
    an error does not end the sequence: when every rejection does, all
    five are called, in the declared order; each failure is appended to
    [startupErrors], in that order, as a recoverable
    [CriticalStartupError] carrying the service name and the original
    message; and the step returns.  When exactly two services fail,
    exactly two entries are added, and a startup whose lock, database
    and path steps went through runs to its end: it returns after
    logging completion, with no failure dialog shown and no exit
    requested. *)
Theorem failed_services_are_accumulated :
  forall (w : World),
    existsb (unexplained w) services = false ->
    (exists w',
        handleEssentialServices w = (Returned tt, w')
        /\ startupErrors w'
           = startupErrors w ++ flat_map (entryFor w) services
        /\ callsOf (trace w')
           = callsOf (trace w)
             ++ [PythonInitialize; SetupApi; DownloadManagerInitialize;
                 DownloadCommonRedist; CopyBinaryToUserData])
    /\ (length (List.filter (fails w) services) = 2%nat ->
        length (flat_map (entryFor w) services) = 2%nat)
    /\ (forall fuel,
           next w AcquireLock = None ->
           next w DbGetUserPreferences = None ->
           next w CheckIfPathsAreAvailable = None ->
           exists w' earlier,
             handleCriticalStartup (S fuel) w = Some (Returned tt, w')
             /\ startupErrors w'
                = startupErrors w ++ flat_map (entryFor w) services
             /\ trace w'
                = Logged Info "Critical startup sequence completed successfully"
                  :: earlier
             /\ dialogs (trace w') = dialogs (trace w)
             /\ hasQuit (trace w') = hasQuit (trace w)).
Proof.
  intros w Hall. split; [|split].
  - destruct (handleEssentialServices_accumulates w Hall)
      as (w' & Hrun & Herr & Hcalls & _). eauto.
  - intros Htwo. rewrite one_entry_per_failure by exact Hall. exact Htwo.
  - intros fuel Hlock Hdb Hpaths. unfold next in Hlock, Hdb, Hpaths.
    revert Hall.
    unfold handleCriticalStartup, startupSequence, handleLockAcquisition,
      handleDatabaseInitialization, handleSystemPathValidation,
      handleEssentialServices, services, initializeEach, entryFor,
      unexplained.
    rewrite attempts_1_to_3. unfold lockAttempts. run.
    rewrite Hlock. run. rewrite Hdb. run. rewrite Hpaths. run.
    settleServices; intros Hall; try discriminate Hall;
      eexists; eexists; (split; [reflexivity|]); simpl;
      rewrite <- ?app_assoc; simpl; rewrite ?app_nil_r; auto 10.
Qed.

Lemma failed_services_are_accumulated_witness :
  exists w' earlier,
    handleCriticalStartup 1 twoServicesDown = Some (Returned tt, w')
    /\ startupErrors w'
       = startupErrors twoServicesDown
         ++ flat_map (entryFor twoServicesDown) services
    /\ trace w'
       = Logged Info "Critical startup sequence completed successfully"
         :: earlier
    /\ dialogs (trace w') = dialogs (trace twoServicesDown)
    /\ hasQuit (trace w') = hasQuit (trace twoServicesDown).
Proof.
  destruct (failed_services_are_accumulated twoServicesDown eq_refl)
    as (_ & _ & Hready).
  apply (Hready O); reflexivity.
Defined.

(** What the two entries of that run are. *)
Lemma two_services_down_entries :
  length (List.filter (fails twoServicesDown) services) = 2%nat
  /\ flat_map (entryFor twoServicesDown) services
     = [ {| message := "HydraApi failed to initialize: connect ECONNREFUSED";
            component := "HydraApi"; recoverable := true |};
         {| message := "Ludusavi failed to initialize: EACCES";
            component := "Ludusavi"; recoverable := true |} ].
Proof. split; vm_compute; reflexivity. Qed.

(** C7, at the failing input: [HydraApi.setupApi()], the second of the
    five services, is rejected without a reason.  The [catch] of the
    loop reads [error.message] of [undefined] and throws; the loop
    ends there, the three services after it are never started, no
    entry is added to the startup errors, and the startup goes to the
    failure dialog, with the [TypeError], instead of completing. *)
Theorem rejection_without_a_reason_ends_the_services :
  exists w' earlier,
    next silentRejection SetupApi = Some (NoError JsUndefined)
    /\ handleCriticalStartup 1 silentRejection = Some (Returned tt, w')
    /\ callsOf (trace w')
       = [AcquireLock; DbGetUserPreferences; CheckIfPathsAreAvailable;
          PythonInitialize; SetupApi]
    /\ startupErrors w' = []
    /\ trace w'
       = Quit
         :: Logged Info "User chose to exit due to unrecoverable error"
         :: Dialog (failureBox (noMessage JsUndefined))
         :: earlier
    /\ detail (failureBox (noMessage JsUndefined))
       = "Cannot read properties of undefined (reading 'message')".
Proof.
  eexists. eexists. split; [reflexivity|].
  split; [vm_compute; reflexivity|].
  repeat split.
Qed.


(** ** Reporting *)

(** The branch [case 2] of [handleStartupFailure] does what the Report
    path is meant to do: it logs a report made of the triggering error,
    the accumulated startup errors and the platform data, and then asks
    the application to quit. *)
Lemma third_button_reports_and_quits (retry : Run) (error : Exn) (w : World) :
  nullish error = None ->
  response w (dialogs (trace w)) = 2 ->
  exists w' earlier,
    handleStartupFailure retry error w = Some (Returned tt, w')
    /\ trace w'
       = Quit
         :: Reported
              {| timestamp := now w;
                 error_name := exnName error;
                 error_message := exnMessage error;
                 error_stack := stack w error;
                 report_startupErrors :=
                   map (fun e =>
                          {| entry_component := component e;
                             entry_message := message e;
                             entry_recoverable := recoverable e |})
                     (startupErrors w);
                 info_platform := platform w;
                 info_arch := arch w;
                 info_version := version w;
                 info_electronVersion := electronVersion w |}
         :: earlier.
Proof.
  intros Herror Hresp.
  unfold handleStartupFailure, showMessageBox, reportIssue.
  run. rewrite Herror. run. rewrite Hresp. simpl. eauto.
Qed.

(** But the button labelled "Report Issue" is the second of the two
    buttons of the dialog for an error that is not recoverable, and the
    only errors [handleCriticalStartup] can catch are of that kind. *)
Lemma report_issue_is_the_second_button (error : Exn) :
  isRecoverable error = false ->
  buttons (failureBox error) = ["Exit"; "Report Issue"].
Proof. intros Hnr. unfold failureBox. rewrite Hnr. reflexivity. Qed.

(** C8, at the failing input: the lock cannot be had, the failure dialog
    comes up with the buttons Exit and Report Issue, and the user presses
    Report Issue (index 1).  No report is written and the application is
    not asked to quit. *)
Theorem report_issue_button_does_nothing :
  exists w' earlier,
    handleCriticalStartup 1 lockedOut = Some (Returned tt, w')
    /\ trace w' = Dialog (failureBox lockFailure) :: earlier
    /\ buttons (failureBox lockFailure) !! 1%nat = Some "Report Issue"
    /\ response lockedOut (dialogs (trace lockedOut)) = 1
    /\ reportsOf (trace w') = []
    /\ hasQuit (trace w') = false.
Proof.
  eexists. eexists. split; [vm_compute; reflexivity|].
  repeat split.
Qed.

(** ** Shutdown *)

(** C9.  When the downloads are stopped, the socket is disconnected and
    [PythonRPC.kill] then fails, the forced kill is run ([taskkill] by
    process name on win32, [pkill] elsewhere) and [Lock.releaseLock] is
    called after it, whether or not the forced kill worked. *)
Theorem failed_kill_falls_back_and_releases_lock :
  forall (w : World) (e : Exn),
    next w StopAllDownloads = None ->
    next w WsDisconnect = None ->
    next w PythonKill = Some e ->
    callsOf (trace (handleGracefulShutdown w).2)
    = callsOf (trace w)
      ++ [StopAllDownloads; WsDisconnect; PythonKill;
          Exec (if String.eqb (platform w) "win32"
                then "taskkill /f /im python.exe"
                else "pkill -f python");
          ReleaseLock].
Proof.
  intros w e Hstop Hws Hkill. unfold next in Hstop, Hws, Hkill.
  unfold handleGracefulShutdown, killPythonProcesses,
    forceKillPythonProcesses.
  run. rewrite Hstop. run. rewrite Hws. run. rewrite Hkill. run.
  destruct (String.eqb (platform w) "win32"); run.
  - settle (settles w (Exec "taskkill /f /im python.exe")
              (occurrences (Exec "taskkill /f /im python.exe") (trace w)));
    settle (settles w ReleaseLock (occurrences ReleaseLock (trace w)));
    rewrite <- ?app_assoc; reflexivity.
  - settle (settles w (Exec "pkill -f python")
              (occurrences (Exec "pkill -f python") (trace w)));
    settle (settles w ReleaseLock (occurrences ReleaseLock (trace w)));
    rewrite <- ?app_assoc; reflexivity.
Qed.

Lemma failed_kill_falls_back_and_releases_lock_witness :
  callsOf (trace (handleGracefulShutdown (stubbornHelper "win32")).2)
  = callsOf (trace (stubbornHelper "win32"))
    ++ [StopAllDownloads; WsDisconnect; PythonKill;
        Exec (if String.eqb (platform (stubbornHelper "win32")) "win32"
              then "taskkill /f /im python.exe"
              else "pkill -f python");
        ReleaseLock].
Proof.
  apply (failed_kill_falls_back_and_releases_lock (stubbornHelper "win32")
           (Foreign "Error" "kill ESRCH")); reflexivity.
Defined.

Lemma lock_acquisition_gives_up_after_three_witness :
  exists w',
    handleLockAcquisition lockedOut = (Thrown lockFailure, w')
    /\ occurrences AcquireLock (trace w') = 3%nat
    /\ delaysOf (trace w') = [2000; 4000].
Proof.
  destruct (lock_acquisition_gives_up_after_three lockedOut) as (_ & Hfail).
  destruct (Hfail (Foreign "Error" "EEXIST: file already exists")
              (Foreign "Error" "EEXIST: file already exists")
              (Foreign "Error" "EEXIST: file already exists")
              eq_refl eq_refl eq_refl)
    as (w' & Hrun & Htried & Hdelays).
  exists w'. repeat split; assumption.
Defined.

(* ---------------------------------------------------------------------- *)
(** ** Further properties of the handler *)

#[local] Arguments handleEssentialServices : simpl never.

(** *** The database and the path step *)

(** X13.  The database step reads the preferences once.  When the read
    works nothing is written; when it fails the defaults are written
    and the step returns if that works, and throws
    [DatabaseCorruptionError] if it does not. *)
Theorem database_step_recovers_or_gives_up :
  forall (w : World),
    let made := callsOf (trace (handleDatabaseInitialization w).2) in
    match next w DbGetUserPreferences, next w DbPutUserPreferences with
    | None, _ =>
        (handleDatabaseInitialization w).1 = Returned tt
        /\ made = callsOf (trace w) ++ [DbGetUserPreferences]
    | Some _, None =>
        (handleDatabaseInitialization w).1 = Returned tt
        /\ made
           = callsOf (trace w) ++ [DbGetUserPreferences; DbPutUserPreferences]
    | Some _, Some _ =>
        (handleDatabaseInitialization w).1
        = Thrown
            (DatabaseCorruptionError
               "Database is corrupted and cannot be recovered. Please reinstall the application.")
        /\ made
           = callsOf (trace w) ++ [DbGetUserPreferences; DbPutUserPreferences]
    end.
Proof.
  intros w made. subst made.
  unfold handleDatabaseInitialization, attemptDatabaseRecovery,
    resetCriticalDatabaseEntries, createDatabaseBackup, next.
  run.
  destruct (settles w DbGetUserPreferences
              (occurrences DbGetUserPreferences (trace w))); run;
    destruct (settles w DbPutUserPreferences
                (occurrences DbPutUserPreferences (trace w))); run;
    rewrite <- ?app_assoc; auto.
Qed.

(** X14.  The path step never throws: when the check fails the recovery
    reports success without doing anything, so [SystemPathError] is
    never raised and the startup goes on. *)
Theorem path_step_never_throws :
  forall (w : World),
    (handleSystemPathValidation w).1 = Returned tt
    /\ callsOf (trace (handleSystemPathValidation w).2)
       = callsOf (trace w) ++ [CheckIfPathsAreAvailable]
    /\ startupErrors (handleSystemPathValidation w).2 = startupErrors w.
Proof.
  intros w. unfold handleSystemPathValidation, attemptPathRecovery. run.
  destruct (settles w CheckIfPathsAreAvailable
              (occurrences CheckIfPathsAreAvailable (trace w))); run; auto.
Qed.

(** *** The lock *)

(** X17.  When the lock is refused twice and then granted, the step
    returns after exactly three tries, having waited [RETRY_DELAY * 1]
    and [RETRY_DELAY * 2]. *)
Theorem lock_granted_on_the_third_try :
  forall (w : World) (e1 e2 : Exn),
    let tried (w' : World) := occurrences AcquireLock (trace w') in
    settles w AcquireLock (tried w) = Some e1 ->
    settles w AcquireLock (S (tried w)) = Some e2 ->
    settles w AcquireLock (S (S (tried w))) = None ->
    exists w',
      handleLockAcquisition w = (Returned tt, w')
      /\ tried w' = (tried w + 3)%nat
      /\ delaysOf (trace w')
         = delaysOf (trace w) ++ [RETRY_DELAY * 1; RETRY_DELAY * 2]
      /\ startupErrors w' = startupErrors w.
Proof.
  intros w e1 e2 tried H1 H2 H3. subst tried. simpl in *.
  unfold handleLockAcquisition. rewrite attempts_1_to_3.
  unfold lockAttempts. run. rewrite H1. run. rewrite H2. run.
  rewrite H3. run. eexists. split; [reflexivity|]. simpl.
  split; [lia|]. rewrite <- app_assoc. auto.
Qed.

Lemma lock_granted_on_the_third_try_witness :
  exists w',
    handleLockAcquisition busyLock = (Returned tt, w')
    /\ occurrences AcquireLock (trace w') = 3%nat
    /\ delaysOf (trace w') = [2000; 4000]
    /\ startupErrors w' = startupErrors busyLock.
Proof.
  destruct (lock_granted_on_the_third_try busyLock
              (Foreign "Error" "EEXIST: file already exists")
              (Foreign "Error" "EEXIST: file already exists")
              eq_refl eq_refl eq_refl)
    as (w' & Hrun & Htried & Hdelays & Herr).
  exists w'. repeat split; assumption.
Defined.

(** *** The whole startup *)

Lemma handleStartupFailure_fatal (retry : Run) (error : Exn) (w : World) :
  isRecoverable error = false ->
  nullish error = None ->
  exists w',
    handleStartupFailure retry error w = Some (Returned tt, w')
    /\ startupErrors w' = startupErrors w
    /\ callsOf (trace w') = callsOf (trace w)
    /\ dialogs (trace w') = S (dialogs (trace w))
    /\ exists later earlier,
         trace w'
         = later
           ++ Dialog
                {| box_type := "error";
                   title := "Neo Launcher Startup Error";
                   box_message :=
                     "The application encountered a critical error during startup.";
                   detail := exnMessage error;
                   buttons := ["Exit"; "Report Issue"];
                   defaultId := 0;
                   cancelId := Some 0 |}
           :: earlier
         /\ dialogs later = O.
Proof.
  intros Hfatal Herror.
  unfold handleStartupFailure, showMessageBox, reportIssue, failureBox.
  rewrite Hfatal. run. rewrite Herror. run.
  destruct (response w (dialogs (trace w)) =? 0); run;
    [eexists; repeat split; try reflexivity;
     eexists (_ :: _ :: []); eexists; simpl; split; reflexivity|].
  destruct (response w (dialogs (trace w)) =? 1); run;
    [eexists; repeat split; try reflexivity;
     exists []; eexists; simpl; split; reflexivity|].
  destruct (response w (dialogs (trace w)) =? 2); run;
    [eexists; repeat split; try reflexivity;
     eexists (_ :: _ :: _ :: _ :: []); eexists; simpl; split; reflexivity|].
  eexists; repeat split; try reflexivity.
  exists []; eexists; simpl; split; reflexivity.
Qed.

Lemma early_refl (w : World) : early w w.
Proof. exists []. rewrite app_nil_r. auto 10. Qed.

Lemma early_trans (w w1 w2 : World) : early w w1 -> early w1 w2 -> early w w2.
Proof.
  intros (p1 & Hp1 & Hc1 & Hd1 & Hq1 & He1 & Hs1)
         (p2 & Hp2 & Hc2 & Hd2 & Hq2 & He2 & Hs2).
  exists (p1 ++ p2). rewrite forallb_app, Hp1, Hp2, Hc2, Hc1, <- app_assoc.
  repeat split; congruence.
Qed.

Ltac early_by pre :=
  exists pre; simpl; rewrite <- ?app_assoc, ?app_nil_r; auto 10.

(** The steps before the services leave the services as they were. *)
Lemma occurrences_callsOf (c : Call) (tr : list Event) :
  occurrences c tr = length (List.filter (call_eqb c) (callsOf tr)).
Proof.
  induction tr as [|e tr IH]; [reflexivity|].
  destruct e; simpl; auto.
  rewrite List.filter_app, length_app, <- IH. simpl.
  destruct (call_eqb c c0); simpl; lia.
Qed.

Lemma call_eqb_early (c c' : Call) :
  call_eqb c c' = true -> isEarlyCall c' = isEarlyCall c.
Proof. destruct c, c'; simpl; intros H; try discriminate H; reflexivity. Qed.

Lemma no_early_occurrence (c : Call) (pre : list Call) :
  isEarlyCall c = false -> forallb isEarlyCall pre = true ->
  List.filter (call_eqb c) pre = [].
Proof.
  intros Hc. induction pre as [|c' pre IH]; [reflexivity|].
  simpl. intros H. apply andb_prop in H as [Hc' Hpre].
  destruct (call_eqb c c') eqn:Heq; [|auto].
  apply call_eqb_early in Heq. congruence.
Qed.

Lemma next_after_early (w w1 : World) (c : Call) :
  early w w1 -> isEarlyCall c = false -> next w1 c = next w c.
Proof.
  intros (pre & Hpre & Hc & _ & _ & _ & Hs) Hlate. unfold next.
  rewrite Hs, !occurrences_callsOf, Hc, List.filter_app,
    (no_early_occurrence c pre Hlate Hpre), app_nil_r.
  reflexivity.
Qed.

Lemma init_after_early (w w1 : World) (service : ServiceDescriptor) :
  early w w1 -> In service services ->
  (init service w1).1 = (init service w).1.
Proof.
  intros Hearly [<-|[<-|[<-|[<-|[<-|[]]]]]]; cbn [init]; unfold call;
    match goal with
    | |- context [next w1 ?c] =>
        rewrite (next_after_early w w1 c Hearly eq_refl);
        destruct (next w c); reflexivity
    end.
Qed.

Lemma services_agree (w w1 : World) (svcs : list ServiceDescriptor) :
  (forall service, In service svcs ->
     (init service w1).1 = (init service w).1) ->
  existsb (unexplained w1) svcs = existsb (unexplained w) svcs
  /\ reached w1 svcs = reached w svcs
  /\ flat_map (entryFor w1) svcs = flat_map (entryFor w) svcs
  /\ flat_map (entryFor w1) (reached w1 svcs)
     = flat_map (entryFor w) (reached w svcs).
Proof.
  induction svcs as [|service later IH]; intros Hsame; [auto|].
  destruct IH as (Hany & Hreached & Hall & Hsome);
    [intros s Hs; apply Hsame; right; exact Hs|].
  assert (Hu : unexplained w1 service = unexplained w service)
    by (unfold unexplained; rewrite Hsame by (left; reflexivity);
        reflexivity).
  assert (He : entryFor w1 service = entryFor w service)
    by (unfold entryFor; rewrite Hsame by (left; reflexivity);
        reflexivity).
  cbn [existsb reached flat_map]. rewrite Hu, He, Hany, Hall.
  repeat split.
  - rewrite Hreached. reflexivity.
  - destruct (unexplained w service); [reflexivity|].
    rewrite Hsome. reflexivity.
Qed.

Lemma services_after_early (w w1 : World) :
  early w w1 ->
  existsb (unexplained w1) services = existsb (unexplained w) services
  /\ reached w1 services = reached w services
  /\ flat_map (entryFor w1) services = flat_map (entryFor w) services
  /\ flat_map (entryFor w1) (reached w1 services)
     = flat_map (entryFor w) (reached w services).
Proof.
  intros Hearly. apply services_agree.
  intros service Hin. apply init_after_early; assumption.
Qed.

Lemma lock_step (w : World) :
  exists w1,
    (handleLockAcquisition w = (Returned tt, w1)
     \/ handleLockAcquisition w = (Thrown lockFailure, w1))
    /\ early w w1.
Proof.
  unfold handleLockAcquisition. rewrite attempts_1_to_3.
  unfold lockAttempts, lockFailure. run.
  destruct (settles w AcquireLock (occurrences AcquireLock (trace w))); run;
    [|eexists; split; [auto | early_by [AcquireLock]]].
  destruct (settles w AcquireLock (S (occurrences AcquireLock (trace w))));
    run; [|eexists; split; [auto | early_by [AcquireLock; AcquireLock]]].
  destruct (settles w AcquireLock
              (S (S (occurrences AcquireLock (trace w))))); run;
    eexists;
    (split; [auto | early_by [AcquireLock; AcquireLock; AcquireLock]]).
Qed.

Lemma database_step (w : World) :
  exists w1,
    (handleDatabaseInitialization w = (Returned tt, w1)
     \/ exists m,
          handleDatabaseInitialization w
          = (Thrown (DatabaseCorruptionError m), w1))
    /\ early w w1.
Proof.
  unfold handleDatabaseInitialization, attemptDatabaseRecovery,
    resetCriticalDatabaseEntries, createDatabaseBackup.
  run.
  destruct (settles w DbGetUserPreferences
              (occurrences DbGetUserPreferences (trace w))); run;
    [|eexists; split; [auto | early_by [DbGetUserPreferences]]].
  destruct (settles w DbPutUserPreferences
              (occurrences DbPutUserPreferences (trace w))); run;
    eexists;
    (split; [eauto
            | early_by [DbGetUserPreferences; DbPutUserPreferences]]).
Qed.

Lemma path_step (w : World) :
  exists w1,
    handleSystemPathValidation w = (Returned tt, w1) /\ early w w1.
Proof.
  unfold handleSystemPathValidation, attemptPathRecovery. run.
  destruct (settles w CheckIfPathsAreAvailable
              (occurrences CheckIfPathsAreAvailable (trace w))); run;
    eexists; (split; [auto | early_by [CheckIfPathsAreAvailable]]).
Qed.

Lemma startupSequence_steps (w : World) :
  startupSequence w
  = match
      handleLockAcquisition
        (record (Logged Info "Starting critical startup sequence...") w)
    with
    | (Thrown e, w1) => (Thrown e, w1)
    | (Returned _, w1) =>
        match handleDatabaseInitialization w1 with
        | (Thrown e, w2) => (Thrown e, w2)
        | (Returned _, w2) =>
            match handleSystemPathValidation w2 with
            | (Thrown e, w3) => (Thrown e, w3)
            | (Returned _, w3) =>
                match handleEssentialServices w3 with
                | (Thrown e, w4) => (Thrown e, w4)
                | (Returned _, w4) =>
                    (Returned tt,
                     record
                       (Logged Info
                          "Critical startup sequence completed successfully")
                       w4)
                end
            end
        end
    end.
Proof.
  unfold startupSequence, bind, logger, modify. cbn [rt_log world_runtime].
  destruct (handleLockAcquisition _) as [[[]|e1] w1]; [|reflexivity].
  destruct (handleDatabaseInitialization w1) as [[[]|e2] w2]; [|reflexivity].
  destruct (handleSystemPathValidation w2) as [[[]|e3] w3]; [|reflexivity].
  destruct (handleEssentialServices w3) as [[[]|e4] w4]; reflexivity.
Qed.

(** What [startupSequence] comes to: a fatal error before any service
    was started, or the service step, whose end is its own. *)
Lemma startupSequence_run (w : World) :
  (exists e w',
      startupSequence w = (Thrown e, w')
      /\ early w w'
      /\ isRecoverable e = false /\ nullish e = None)
  \/ exists w3 o w4,
       early w w3
       /\ handleEssentialServices w3 = (o, w4)
       /\ startupSequence w
          = match o with
            | Returned _ =>
                (Returned tt,
                 record
                   (Logged Info
                      "Critical startup sequence completed successfully")
                   w4)
            | Thrown e => (Thrown e, w4)
            end.
Proof.
  rewrite startupSequence_steps.
  set (w0 := record (Logged Info "Starting critical startup sequence...") w).
  assert (H0 : early w w0) by (early_by (@nil Call)).
  destruct (lock_step w0) as (w1 & [Hl | Hl] & H1); rewrite Hl;
    pose proof (early_trans w w0 w1 H0 H1) as E1;
    [|left; eexists; eexists; split; [reflexivity|]; auto].
  destruct (database_step w1) as (w2 & [Hd | (m & Hd)] & H2); rewrite Hd;
    pose proof (early_trans w w1 w2 E1 H2) as E2;
    [|left; eexists; eexists; split; [reflexivity|]; auto].
  destruct (path_step w2) as (w3 & Hp & H3). rewrite Hp.
  pose proof (early_trans w w2 w3 E2 H3) as E3.
  right. destruct (handleEssentialServices w3) as [o w4] eqn:Hs.
  exists w3, o, w4. split; [exact E3|]. split; [exact Hs|].
  destruct o as [[]|e]; reflexivity.
Qed.

(** One run of the startup, with no restart allowed. *)
Lemma startup_run (fuel : nat) (w : World) :
  exists w' pre,
    handleCriticalStartup (S fuel) w = Some (Returned tt, w')
    /\ forallb isEarlyCall pre = true
    /\ ((existsb (unexplained w) services = false
         /\ callsOf (trace w') = callsOf (trace w) ++ pre ++ serviceCalls
         /\ startupErrors w'
            = startupErrors w ++ flat_map (entryFor w) services
         /\ dialogs (trace w') = dialogs (trace w)
         /\ hasQuit (trace w') = hasQuit (trace w)
         /\ exists earlier,
              trace w'
              = Logged Info "Critical startup sequence completed successfully"
                :: earlier)
        \/ (callsOf (trace w') = callsOf (trace w) ++ pre
            /\ startupErrors w' = startupErrors w
            /\ dialogs (trace w') = S (dialogs (trace w))
            /\ exists error later earlier,
                 trace w' = later ++ Dialog (failureBox error) :: earlier
                 /\ buttons (failureBox error) = ["Exit"; "Report Issue"])
        \/ (existsb (unexplained w) services = true
            /\ callsOf (trace w')
               = callsOf (trace w) ++ pre
                 ++ firstn (length (reached w services)) serviceCalls
            /\ startupErrors w'
               = startupErrors w
                 ++ flat_map (entryFor w) (reached w services)
            /\ dialogs (trace w') = S (dialogs (trace w))
            /\ exists v later earlier,
                 trace w'
                 = later ++ Dialog (failureBox (noMessage v)) :: earlier
                 /\ buttons (failureBox (noMessage v))
                    = ["Exit"; "Report Issue"])).
Proof.
  cbn [handleCriticalStartup].
  destruct (startupSequence_run w)
    as [(e & w' & Hrun & (pre & Hpre & Hc & Hd & Hq & He & _) & Hfatal & Herror)
       | (w3 & o & w4 & Hearly & Hs & Hrun)];
    rewrite Hrun.
  - destruct (handleStartupFailure_fatal (handleCriticalStartup fuel) e w'
                Hfatal Herror)
      as (w'' & Hrun' & Herr' & Hcalls' & Hd' & later & earlier & Htr & _).
    exists w'', pre. rewrite Hrun', Herr', He, Hcalls', Hc, Hd', Hd.
    split; [reflexivity|]. split; [exact Hpre|].
    right. left. repeat split; auto.
    exists e, later, earlier. unfold failureBox. rewrite Hfatal.
    split; [exact Htr | reflexivity].
  - destruct (services_after_early w w3 Hearly) as (Hany & Hreached & Hall & Hsome).
    destruct Hearly as (pre & Hpre & Hc & Hd & Hq & He & _).
    destruct (handleEssentialServices_run w3)
      as (o' & w4' & Hs' & Hend & Herr4 & Hcalls4 & _ & _ & Hd4 & Hq4).
    rewrite Hs in Hs'. inversion Hs'; subst o' w4'. clear Hs'.
    rewrite Hany in Hend. rewrite Hsome, He in Herr4.
    rewrite Hreached, Hc in Hcalls4. rewrite Hd in Hd4. rewrite Hq in Hq4.
    destruct Hend as [(Hnone & ->) | (Hone & v & ->)].
    + rewrite (reached_all w services Hnone) in Herr4, Hcalls4.
      eexists. exists pre. split; [reflexivity|]. split; [exact Hpre|].
      left. simpl. rewrite Herr4, Hcalls4, Hd4, Hq4, <- app_assoc.
      repeat split; eauto.
    + destruct (handleStartupFailure_fatal (handleCriticalStartup fuel)
                  (noMessage v) w4 eq_refl eq_refl)
        as (w'' & Hrun' & Herr' & Hcalls' & Hd' & later & earlier & Htr & _).
      exists w'', pre. rewrite Hrun', Herr', Herr4, Hcalls', Hcalls4, Hd', Hd4.
      split; [reflexivity|]. split; [exact Hpre|].
      right. right. rewrite <- app_assoc. repeat split; auto.
      exists v, later, earlier. split; [exact Htr | reflexivity].
Qed.

(** X15.  A startup never starts itself again: the only errors its
    steps throw are not recoverable, so the failure dialog it shows is
    always the one with the buttons Exit and Report Issue, Retry and
    Continue Anyway are never offered, and the run ends (and resolves)
    with no restart allowed. *)
Theorem startup_never_restarts :
  forall (fuel : nat) (w : World),
    handleCriticalStartup (S fuel) w = handleCriticalStartup 1 w
    /\ exists w',
         handleCriticalStartup 1 w = Some (Returned tt, w')
         /\ (dialogs (trace w') = dialogs (trace w)
             \/ (dialogs (trace w') = S (dialogs (trace w))
                 /\ exists error later earlier,
                      trace w' = later ++ Dialog (failureBox error) :: earlier
                      /\ buttons (failureBox error)
                         = ["Exit"; "Report Issue"])).
Proof.
  intros fuel w. split.
  - cbn [handleCriticalStartup].
    destruct (startupSequence_run w)
      as [(e & w' & Hrun & _ & Hfatal & _)
         | (w3 & o & w4 & _ & Hs & Hrun)];
      rewrite Hrun.
    + unfold handleStartupFailure. rewrite Hfatal. reflexivity.
    + destruct (handleEssentialServices_run w3)
        as (o' & w4' & Hs' & Hend & _).
      rewrite Hs in Hs'. inversion Hs'; subst o' w4'.
      destruct Hend as [(_ & ->) | (_ & v & ->)]; reflexivity.
  - destruct (startup_run O w)
      as (w' & pre & Hrun & _
          & [(_ & _ & _ & Hd & _)
            | [(_ & _ & Hd & Hbox)
              | (_ & _ & _ & Hd & v & later & earlier & Hbox)]]);
      exists w'; split; eauto 10.
Qed.

(** X16.  A startup always resolves, in one of three ways.  It
    completes, with each of the five services initialised once after
    the calls of the first three steps, an entry added for each that
    failed, and no dialog shown.  Or a step before the services fails:
    the failure dialog is shown once, no service was started and the
    startup errors are as before.  Or a service is rejected without a
    reason: the services up to and with that one were started, the
    failures before it have their entries, and the failure dialog is
    shown once. *)
Theorem startup_completes_or_shows_the_dialog_once :
  forall (w : World),
    exists w' pre,
      handleCriticalStartup 1 w = Some (Returned tt, w')
      /\ forallb isEarlyCall pre = true
      /\ ((existsb (unexplained w) services = false
           /\ callsOf (trace w') = callsOf (trace w) ++ pre ++ serviceCalls
           /\ startupErrors w'
              = startupErrors w ++ flat_map (entryFor w) services
           /\ dialogs (trace w') = dialogs (trace w)
           /\ hasQuit (trace w') = hasQuit (trace w))
          \/ (callsOf (trace w') = callsOf (trace w) ++ pre
              /\ startupErrors w' = startupErrors w
              /\ dialogs (trace w') = S (dialogs (trace w)))
          \/ (existsb (unexplained w) services = true
              /\ callsOf (trace w')
                 = callsOf (trace w) ++ pre
                   ++ firstn (length (reached w services)) serviceCalls
              /\ startupErrors w'
                 = startupErrors w
                   ++ flat_map (entryFor w) (reached w services)
              /\ dialogs (trace w') = S (dialogs (trace w)))).
Proof.
  intros w.
  destruct (startup_run O w)
    as (w' & pre & Hrun & Hpre
        & [(Hnone & Hc & He & Hd & Hq & _)
          | [(Hc & He & Hd & _) | (Hone & Hc & He & Hd & _)]]);
    exists w', pre; auto 10.
Qed.

(** X20.  The startup errors only accumulate: a startup run and a
    shutdown keep every entry that was there, in place; a pass over
    the services appends the failures of the services it got to, and a
    second pass, made when the first returned, appends its own after
    them; only [clearStartupErrors] empties the list. *)
Theorem startup_errors_only_accumulate :
  forall (w : World),
    (forall fuel r w',
        handleCriticalStartup (S fuel) w = Some (r, w') ->
        exists added, startupErrors w' = startupErrors w ++ added)
    /\ startupErrors (handleGracefulShutdown w).2 = startupErrors w
    /\ startupErrors
         ((handleEssentialServices ;; handleEssentialServices) w).2
       = startupErrors w
         ++ flat_map (entryFor w) (reached w services)
         ++ (if existsb (unexplained w) services then []
             else
               let w1 := (handleEssentialServices w).2 in
               flat_map (entryFor w1) (reached w1 services))
    /\ startupErrors (clearStartupErrors w).2 = [].
Proof.
  intros w. split; [|split; [|split]].
  - intros fuel r w' Hrun.
    destruct (startup_run fuel w)
      as (w1 & pre & Hrun1 & _
          & [(_ & _ & Herr & _) | [(_ & Herr & _) | (_ & _ & Herr & _)]]);
      rewrite Hrun1 in Hrun; inversion Hrun; subst; eauto.
    exists []. rewrite app_nil_r. exact Herr.
  - unfold handleGracefulShutdown, killPythonProcesses,
      forceKillPythonProcesses.
    run.
    settle (settles w StopAllDownloads (occurrences StopAllDownloads (trace w)));
      [reflexivity|].
    settle (settles w WsDisconnect (occurrences WsDisconnect (trace w)));
      [reflexivity|].
    settle (settles w PythonKill (occurrences PythonKill (trace w))).
    + destruct (String.eqb (platform w) "win32"); run.
      * settle (settles w (Exec "taskkill /f /im python.exe")
                  (occurrences (Exec "taskkill /f /im python.exe") (trace w)));
        settle (settles w ReleaseLock (occurrences ReleaseLock (trace w)));
        reflexivity.
      * settle (settles w (Exec "pkill -f python")
                  (occurrences (Exec "pkill -f python") (trace w)));
        settle (settles w ReleaseLock (occurrences ReleaseLock (trace w)));
        reflexivity.
    + settle (settles w ReleaseLock (occurrences ReleaseLock (trace w)));
        reflexivity.
  - destruct (handleEssentialServices_run w)
      as (o1 & w1 & Hrun1 & Hend & Herr1 & _).
    unfold bind. rewrite Hrun1. cbn [snd].
    destruct Hend as [(Hnone & ->) | (Hone & v & ->)].
    + destruct (handleEssentialServices_run w1)
        as (o2 & w2 & Hrun2 & _ & Herr2 & _).
      rewrite Hrun2, Hnone. cbn [snd].
      rewrite Herr2, Herr1, <- app_assoc. reflexivity.
    + rewrite Hone. cbn [snd]. rewrite Herr1, app_nil_r. reflexivity.
  - reflexivity.
Qed.

Lemma startup_errors_only_accumulate_witness :
  exists w' added,
    handleCriticalStartup 1 twoServicesDown = Some (Returned tt, w')
    /\ startupErrors w' = startupErrors twoServicesDown ++ added.
Proof.
  destruct (startup_errors_only_accumulate twoServicesDown) as (Hgrow & _).
  assert (Hrun : exists w',
             handleCriticalStartup 1 twoServicesDown = Some (Returned tt, w'))
    by (eexists; vm_compute; reflexivity).
  destruct Hrun as (w' & Hrun).
  destruct (Hgrow O _ _ Hrun) as (added & Hadd).
  exists w', added. split; assumption.
Defined.

(** *** Shutdown *)

(** X18.  The shutdown never throws.  It ends with [app.exit(1)] exactly
    when stopping the downloads, disconnecting the socket or releasing
    the lock fails, and with the completion log otherwise; a helper
    process that cannot be killed, even by force, does not make it
    exit. *)
Theorem shutdown_exits_when_a_step_fails :
  forall (w : World),
    exists w' earlier,
      handleGracefulShutdown w = (Returned tt, w')
      /\ trace w'
         = (if rejects w StopAllDownloads || rejects w WsDisconnect
               || rejects w ReleaseLock
            then Exited 1
            else Logged Info "Graceful shutdown completed")
           :: earlier.
Proof.
  intros w.
  unfold handleGracefulShutdown, killPythonProcesses,
    forceKillPythonProcesses, rejects.
  run.
  settle (settles w StopAllDownloads (occurrences StopAllDownloads (trace w)));
    [eauto|].
  settle (settles w WsDisconnect (occurrences WsDisconnect (trace w)));
    [eauto|].
  settle (settles w PythonKill (occurrences PythonKill (trace w))).
  - destruct (String.eqb (platform w) "win32"); run.
    + settle (settles w (Exec "taskkill /f /im python.exe")
                (occurrences (Exec "taskkill /f /im python.exe") (trace w)));
      settle (settles w ReleaseLock (occurrences ReleaseLock (trace w)));
      eauto.
    + settle (settles w (Exec "pkill -f python")
                (occurrences (Exec "pkill -f python") (trace w)));
      settle (settles w ReleaseLock (occurrences ReleaseLock (trace w)));
      eauto.
  - settle (settles w ReleaseLock (occurrences ReleaseLock (trace w))); eauto.
Qed.

(** X19.  When the downloads cannot be stopped or the socket cannot be
    disconnected, the shutdown goes straight to [app.exit(1)]: the helper
    process is not killed and the lock is not released. *)
Theorem early_shutdown_failure_skips_the_rest :
  forall (w : World),
    rejects w StopAllDownloads || rejects w WsDisconnect = true ->
    callsOf (trace (handleGracefulShutdown w).2)
    = callsOf (trace w)
      ++ (if rejects w StopAllDownloads then [StopAllDownloads]
          else [StopAllDownloads; WsDisconnect])
    /\ exists earlier,
         trace (handleGracefulShutdown w).2 = Exited 1 :: earlier.
Proof.
  intros w. unfold handleGracefulShutdown, rejects. run.
  settle (settles w StopAllDownloads (occurrences StopAllDownloads (trace w)));
    [intros _; eauto|].
  settle (settles w WsDisconnect (occurrences WsDisconnect (trace w)));
    [intros _; rewrite <- app_assoc; eauto | discriminate].
Qed.

Lemma early_shutdown_failure_skips_the_rest_witness :
  callsOf (trace (handleGracefulShutdown stuckDownloads).2)
  = callsOf (trace stuckDownloads)
    ++ (if rejects stuckDownloads StopAllDownloads then [StopAllDownloads]
        else [StopAllDownloads; WsDisconnect])
  /\ exists earlier,
       trace (handleGracefulShutdown stuckDownloads).2 = Exited 1 :: earlier.
Proof.
  apply (early_shutdown_failure_skips_the_rest stuckDownloads). reflexivity.
Defined.

(** X21.  The report is behind the third button only: when the dialog
    is answered with index 2, [handleStartupFailure] logs the report
    (the error, the startup errors so far, the platform data) and then
    asks the application to quit; that index is the button labelled
    Exit of the three-button dialog of a recoverable error, and no
    button of the two-button dialog of any other error.  (Handed
    [null] or [undefined] for the error, it throws a [TypeError]
    before any dialog is shown.) *)
Theorem report_is_behind_the_third_button :
  forall (retry : Run) (error : Exn) (w : World),
    response w (dialogs (trace w)) = 2 ->
    match nullish error with
    | None =>
        exists w' earlier,
          handleStartupFailure retry error w = Some (Returned tt, w')
          /\ trace w'
             = Quit
               :: Reported
                    {| timestamp := now w;
                       error_name := exnName error;
                       error_message := exnMessage error;
                       error_stack := stack w error;
                       report_startupErrors :=
                         map (fun e =>
                                {| entry_component := component e;
                                   entry_message := message e;
                                   entry_recoverable := recoverable e |})
                           (startupErrors w);
                       info_platform := platform w;
                       info_arch := arch w;
                       info_version := version w;
                       info_electronVersion := electronVersion w |}
               :: earlier
    | Some v =>
        handleStartupFailure retry error w
        = Some (Thrown (noMessage v),
                record
                  (Logged Error
                     ("Critical startup failure: " +:+ nullishText v))
                  w)
    end
    /\ buttons (failureBox error) !! 2%nat
       = (if isRecoverable error then Some "Exit" else None).
Proof.
  intros retry error w Hresp. split.
  - unfold handleStartupFailure, showMessageBox, reportIssue.
    run. destruct error; run; try (rewrite Hresp; simpl; eauto).
    reflexivity.
  - unfold failureBox. destruct (isRecoverable error); reflexivity.
Qed.

Lemma report_is_behind_the_third_button_witness :
  (exists w' earlier,
     handleStartupFailure (handleCriticalStartup 0) serviceFailure thirdButton
     = Some (Returned tt, w')
     /\ trace w'
        = Quit
          :: Reported
               {| timestamp := now thirdButton;
                  error_name := exnName serviceFailure;
                  error_message := exnMessage serviceFailure;
                  error_stack := stack thirdButton serviceFailure;
                  report_startupErrors :=
                    map (fun e =>
                           {| entry_component := component e;
                              entry_message := message e;
                              entry_recoverable := recoverable e |})
                      (startupErrors thirdButton);
                  info_platform := platform thirdButton;
                  info_arch := arch thirdButton;
                  info_version := version thirdButton;
                  info_electronVersion := electronVersion thirdButton |}
          :: earlier)
  /\ buttons (failureBox serviceFailure) !! 2%nat
     = (if isRecoverable serviceFailure then Some "Exit" else None).
Proof.
  apply (report_is_behind_the_third_button (handleCriticalStartup 0)
           serviceFailure thirdButton).
  reflexivity.
Defined.

End CriticalErrorHandlerFacts.

(* ====================================================================== *)
(** * Properties of the catalogue search *)
(* ====================================================================== *)

Module SearchGamesFacts.
Import HydraApi SearchGames.

Lemma slice_page {A} (l : list A) (take skip : Z) :
  0 <= take -> 0 <= skip ->
  slice l skip (skip + take)
  = firstn (Z.to_nat take) (skipn (Z.to_nat skip) l).
Proof.
  intros Ht Hs. unfold slice.
  replace (skip <? 0) with false by (symmetry; lia).
  replace (skip + take <? 0) with false by (symmetry; lia).
  set (len := Z.of_nat (length l)).
  destruct (Z.le_gt_cases len skip) as [Hout|Hin].
  - rewrite !skipn_all2 by lia. rewrite !firstn_nil. reflexivity.
  - rewrite (Z.min_l skip len) by lia.
    destruct (Z.le_gt_cases (skip + take) len) as [Hfit|Hcut].
    + rewrite Z.min_l by lia. f_equal. lia.
    + rewrite Z.min_r by lia.
      rewrite !firstn_all2; auto; rewrite length_skipn; lia.
Qed.

Lemma searchGames_as_perform (payload : string) (take skip : Z) :
  searchGames payload take skip
  = tryCatch
      (r <- perform (searchRequest payload take skip) searchOptions ;;
       ret (FromBackend r))
      (fun _ =>
         ret (Fallback (slice mockGames skip (skip + take)) 3)).
Proof. reflexivity. Qed.

Lemma search_is_not_validated (w : World) :
  validateOptions searchOptions w = (Returned tt, w).
Proof. reflexivity. Qed.

(** X22.  [searchGames] never throws: it resolves to the body the
    backend answered with, or, exactly when [HydraApi.post] threw, to
    the mock page, whose [count] is 3 whatever the page and whose
    [edges] are, for non-negative [take] and [skip], the first [take]
    of the mock games after the first [skip]. *)
Theorem searchGames_never_throws :
  forall (payload : string) (take skip : Z) (w : World),
    exists res w',
      searchGames payload take skip w = (Returned res, w')
      /\ w' = (post "/catalogue/search"
                 (Some (searchBody payload take skip)) searchOptions w).2
      /\ match (post "/catalogue/search"
                  (Some (searchBody payload take skip)) searchOptions w).1
         with
         | Returned d => res = FromBackend d
         | Thrown _ =>
             exists edges,
               res = Fallback edges 3
               /\ (0 <= take -> 0 <= skip ->
                   edges = firstn (Z.to_nat take)
                             (skipn (Z.to_nat skip) mockGames))
         end.
Proof.
  intros payload take skip w. unfold searchGames, tryCatch, bind.
  destruct (post _ _ _ w) as [[d|e] w1]; simpl.
  - eauto.
  - eexists; eexists. split; [reflexivity|]. split; [reflexivity|].
    eexists. split; [reflexivity|]. apply slice_page.
Qed.

(** X23.  The search needs no session: signed in or not, and with a
    token expired or not, the request is not refused and no token is
    refreshed; when the server rejects [k <= 3] calls with retryable
    errors and then answers, the body of that answer is what
    [searchGames] resolves to, after [k + 1] calls, and session and
    store are as before. *)
Theorem search_needs_no_session :
  forall (payload : string) (take skip : Z) (w : World) (k : nat)
         (r : Response),
    (k <= 3)%nat ->
    nextFail w k ->
    axios w (calls w + k) = Resolved r ->
    exists w',
      searchGames payload take skip w = (Returned (FromBackend (data r)), w')
      /\ calls w' = (calls w + S k)%nat
      /\ delaysOf (trace w') = delaysOf (trace w) ++ backoff 1000 0 k
      /\ userAuth w' = userAuth w /\ db w' = db w.
Proof.
  intros payload take skip w k r Hk Hfail Hok.
  rewrite searchGames_as_perform. unfold tryCatch, bind.
  destruct (HydraApiFacts.perform_retried (searchRequest payload take skip)
              searchOptions w eq_refl (search_is_not_validated w))
    as (f & Hlike & ->).
  unfold retryRequest, bind.
  destruct (HydraApiFacts.retryLoop_first_success
              (searchRequest payload take skip) (userAuth w) f Hlike
              (default DEFAULT_RETRY_ATTEMPTS (searchOptions ≫= retryAttempts))
              (default DEFAULT_RETRY_DELAY (searchOptions ≫= retryDelay))
              k 0 None w r eq_refl)
    as (w' & Hrun & Hc & Hd & Hua & Hdb & _); auto;
    try (simpl; unfold DEFAULT_RETRY_ATTEMPTS; lia).
  rewrite Hrun. exists w'. auto.
Qed.

Lemma search_needs_no_session_witness :
  exists w',
    searchGames "{}" 20 0 (signedOutWorld flaky)
    = (Returned (FromBackend (Data.mk "" 0 "")), w')
    /\ calls w' = (calls (signedOutWorld flaky) + 2)%nat
    /\ delaysOf (trace w')
       = delaysOf (trace (signedOutWorld flaky)) ++ backoff 1000 0 1
    /\ userAuth w' = userAuth (signedOutWorld flaky)
    /\ db w' = db (signedOutWorld flaky).
Proof.
  apply (search_needs_no_session "{}" 20 0 (signedOutWorld flaky) 1
           {| status := 200; data := Data.mk "" 0 "" |}).
  - lia.
  - intros i Hi. assert (i = O) by lia. subst i.
    exists (failed 503). split; reflexivity.
  - reflexivity.
Defined.

(** X24.  When the backend rejects call after call with retryable
    errors, [searchGames] makes four calls, waits 1000, 2000 and 4000
    ms in between, and then resolves to the mock page instead of
    throwing. *)
Theorem search_falls_back_when_the_backend_is_down :
  forall (payload : string) (take skip : Z) (w : World),
    nextFail w 4 ->
    exists w',
      searchGames payload take skip w
      = (Returned (Fallback (slice mockGames skip (skip + take)) 3), w')
      /\ calls w' = (calls w + 4)%nat
      /\ delaysOf (trace w') = delaysOf (trace w) ++ [1000; 2000; 4000]
      /\ userAuth w' = userAuth w /\ db w' = db w.
Proof.
  intros payload take skip w Hfail.
  rewrite searchGames_as_perform. unfold tryCatch, bind.
  destruct (HydraApiFacts.perform_retried (searchRequest payload take skip)
              searchOptions w eq_refl (search_is_not_validated w))
    as (f & Hlike & ->).
  unfold retryRequest, bind.
  destruct (HydraApiFacts.retryLoop_all_rejected
              (searchRequest payload take skip) (userAuth w) f Hlike
              (default DEFAULT_RETRY_ATTEMPTS (searchOptions ≫= retryAttempts))
              (default DEFAULT_RETRY_DELAY (searchOptions ≫= retryDelay))
              3 0 None w eq_refl)
    as (e & w1 & Hrun & Hlast & Hre & Hc & Hd & Hua & Hdb & _); auto.
  rewrite Hrun.
  destruct (HydraApiFacts.surface_logs (T := Data.t) e w1)
    as (thrown & text & Hs & _).
  rewrite Hs. eexists. split; [reflexivity|]. simpl.
  rewrite Hc, Hd, Hua, Hdb. repeat split; auto.
Qed.

Lemma search_falls_back_when_the_backend_is_down_witness :
  exists w',
    searchGames "{}" 20 0 (signedInWorld down)
    = (Returned (Fallback (slice mockGames 0 (0 + 20)) 3), w')
    /\ calls w' = (calls (signedInWorld down) + 4)%nat
    /\ delaysOf (trace w')
       = delaysOf (trace (signedInWorld down)) ++ [1000; 2000; 4000]
    /\ userAuth w' = userAuth (signedInWorld down)
    /\ db w' = db (signedInWorld down).
Proof.
  apply (search_falls_back_when_the_backend_is_down "{}" 20 0
           (signedInWorld down)).
  intros i Hi. exists (failed 503). split; reflexivity.
Defined.

(** X25.  Although the search needs no session, a 401 answer to one of
    its calls ends the session: that call is the last one, the session
    is the empty one, both persisted records are deleted, and
    [searchGames] still resolves, to the mock page. *)
Theorem unauthorized_search_signs_out :
  forall (payload : string) (take skip : Z) (w w' : World)
         (res : SearchResult) (k : nat),
    searchGames payload take skip w = (Returned res, w') ->
    (calls w <= k < calls w')%nat ->
    answers401 w k = true ->
    res = Fallback (slice mockGames skip (skip + take)) 3
    /\ calls w' = S k
    /\ userAuth w' = emptyUserAuth
    /\ db w' !! levelKeys_auth = None
    /\ db w' !! levelKeys_user = None.
Proof.
  intros payload take skip w w' res k Hrun Hk H401.
  rewrite searchGames_as_perform in Hrun. unfold tryCatch, bind in Hrun.
  destruct (perform (searchRequest payload take skip) searchOptions w)
    as [o w1] eqn:Hp.
  destruct (HydraApiFacts.settles_perform _ _ w o w1 Hp) as (_ & _ & _ & Hall).
  destruct o as [a|e]; cbn in Hrun; inversion Hrun; subst.
  - destruct (Hall k Hk H401) as (_ & (e & _ & Hthrown) & _). discriminate.
  - destruct (Hall k Hk H401) as (Hc & _ & Hu & Ha & Hus & _). auto.
Qed.

Lemma unauthorized_search_signs_out_witness :
  exists w',
    searchGames "{}" 20 0 (signedInWorld unauthorized)
    = (Returned (Fallback (slice mockGames 0 (0 + 20)) 3), w')
    /\ calls w' = 1%nat
    /\ userAuth w' = emptyUserAuth
    /\ db w' !! levelKeys_auth = None
    /\ db w' !! levelKeys_user = None.
Proof.
  assert (Hrun : exists w',
             searchGames "{}" 20 0 (signedInWorld unauthorized)
             = (Returned (Fallback (slice mockGames 0 (0 + 20)) 3), w')
             /\ calls w' = 1%nat)
    by (eexists; split; vm_compute; reflexivity).
  destruct Hrun as (w' & Hrun & Hc).
  exists w'. split; [exact Hrun|].
  apply (unauthorized_search_signs_out "{}" 20 0
           (signedInWorld unauthorized) w' _ O Hrun).
  - rewrite Hc. simpl. lia.
  - reflexivity.
Defined.

End SearchGamesFacts.

(* ====================================================================== *)
(** * Properties of the catalogue page *)
(* ====================================================================== *)

Module CatalogueFacts.
Import Catalogue.

Lemma replaceAllFrom_plain (p' replacement s : string) :
  plain s = true ->
  replaceAllFrom (String "&" p') replacement O s = s.
Proof.
  induction s as [|c s IH]; intros Hp; [reflexivity|].
  simpl in Hp. apply andb_prop in Hp as [Hc Hs].
  cbn [replaceAllFrom String.prefix].
  destruct (ascii_dec "&" c) as [<-|_].
  - discriminate.
  - rewrite IH by exact Hs. reflexivity.
Qed.

Lemma prefix_empty (s : string) : String.prefix "" s = true.
Proof. destruct s; reflexivity. Qed.

Lemma app_empty (s : string) : "" +:+ s = s.
Proof. reflexivity. Qed.

Ltac decode :=
  unfold decodeHTML, replaceAll;
  repeat (simpl; rewrite ?app_empty, ?prefix_empty);
  reflexivity.

(** X26.  [decodeHTML] leaves a string without an ampersand as it is,
    and decodes an escaped entity twice: [&amp;lt;], which stands for
    the text [&lt;], comes out as [<], and likewise [&amp;gt;] as [>],
    while [&amp;amp;] is decoded once, to [&amp;]. *)
Theorem decodeHTML_decodes_twice :
  forall s : string,
    (plain s = true -> decodeHTML s = s)
    /\ decodeHTML ("&amp;lt;" +:+ s) = "<" +:+ decodeHTML s
    /\ decodeHTML ("&amp;gt;" +:+ s) = ">" +:+ decodeHTML s
    /\ decodeHTML ("&amp;amp;" +:+ s) = "&amp;" +:+ decodeHTML s.
Proof.
  intros s. split; [|split; [|split]].
  - intros Hp. unfold decodeHTML, replaceAll.
    rewrite (replaceAllFrom_plain "amp;" "&" s Hp),
      (replaceAllFrom_plain "lt;" "<" s Hp),
      (replaceAllFrom_plain "gt;" ">" s Hp).
    reflexivity.
  - decode.
  - decode.
  - decode.
Qed.

Lemma includes_In (filters : list string) (value : string) :
  includes filters value = true <-> In value filters.
Proof.
  unfold includes. rewrite existsb_exists. split.
  - intros (x & Hx & Heq). apply String.eqb_eq in Heq. subst. exact Hx.
  - intros Hin. exists value. split; [exact Hin|apply String.eqb_refl].
Qed.

Lemma includes_onRemove (filters : list string) (value x : string) :
  includes (onRemove filters value) x
  = negb (String.eqb x value) && includes filters x.
Proof.
  unfold includes, onRemove. induction filters as [|a l IH]; simpl.
  - rewrite andb_false_r. reflexivity.
  - destruct (String.eqb_spec a value) as [->|Hne]; simpl.
    + rewrite IH. destruct (String.eqb_spec x value); simpl; auto.
    + rewrite IH. destruct (String.eqb_spec x a) as [->|]; simpl; auto.
      destruct (String.eqb_spec a value); simpl; congruence.
Qed.

Lemma includes_app (l1 l2 : list string) (x : string) :
  includes (l1 ++ l2) x = includes l1 x || includes l2 x.
Proof. unfold includes. apply existsb_app. Qed.

Lemma onRemove_absent (filters : list string) (value : string) :
  includes filters value = false -> onRemove filters value = filters.
Proof.
  unfold includes, onRemove. induction filters as [|a l IH]; simpl; auto.
  intros H. apply orb_false_elim in H as [Ha Hl].
  rewrite String.eqb_sym in Ha. rewrite Ha. simpl. rewrite IH; auto.
Qed.

(** X27.  Selecting a value in a filter section toggles it and nothing
    else: the value is in the new list exactly when it was not in the
    old one, every other value stays in or out, and selecting it a
    second time gives the old list back when the value was not in it
    (otherwise the value, with all its copies removed, is put back at
    the end). *)
Theorem onSelect_toggles :
  forall (filters : list string) (value : string),
    includes (onSelect filters value) value = negb (includes filters value)
    /\ (forall x, x <> value ->
          includes (onSelect filters value) x = includes filters x)
    /\ onSelect (onSelect filters value) value
       = if includes filters value
         then onRemove filters value ++ [value]
         else filters.
Proof.
  intros filters value. unfold onSelect.
  destruct (includes filters value) eqn:Hin; fold (onRemove filters value).
  - assert (Hgone : includes (onRemove filters value) value = false)
      by (rewrite includes_onRemove, String.eqb_refl; reflexivity).
    rewrite Hgone. repeat split; auto.
    intros x Hx. rewrite includes_onRemove.
    destruct (String.eqb_spec x value); [contradiction|reflexivity].
  - assert (Hthere : includes (filters ++ [value]) value = true)
      by (rewrite includes_app; unfold includes at 2; simpl;
          rewrite String.eqb_refl, orb_true_r; reflexivity).
    rewrite Hthere. split; [reflexivity|]. split.
    + intros x Hx. rewrite includes_app. unfold includes at 2. simpl.
      destruct (String.eqb_spec x value); [contradiction|].
      rewrite orb_false_r. reflexivity.
    + fold (onRemove (filters ++ [value]) value). unfold onRemove.
      rewrite List.filter_app. fold (onRemove filters value).
      rewrite onRemove_absent by exact Hin. simpl.
      rewrite String.eqb_refl. simpl. apply app_nil_r.
Qed.

(** X28.  The pages offered are those that have results: with
    [itemsCount] results, the offset of page [page >= 1] lies before
    the end of the results exactly when [page] is at most
    [Math.ceil(itemsCount / PAGE_SIZE)]. *)
Theorem pages_cover_the_results :
  forall itemsCount page : Z,
    0 <= itemsCount -> 1 <= page ->
    (offsetOf page < itemsCount <-> page <= totalPages itemsCount).
Proof.
  intros n p Hn Hp. unfold offsetOf, totalPages, PAGE_SIZE.
  pose proof (Z.div_mod (n + 20 - 1) 20 ltac:(lia)) as Hdm.
  pose proof (Z.mod_pos_bound (n + 20 - 1) 20 ltac:(lia)) as Hb.
  split; intros H; nia.
Qed.

Lemma pages_cover_the_results_witness :
  offsetOf 3 < 45 <-> 3 <= totalPages 45.
Proof.
  apply (pages_cover_the_results 45 3); lia.
Defined.

End CatalogueFacts.
